(** * Scan governance and decision scoring of the tech radar ETL

    A shallow embedding of the scan-governance and decision-scoring
    pipeline of [data-etl/src]: the temporal analyzer, the enhanced
    classifier, the circuit breaker, the progress tracker, the
    organization scan loop and the AI technology filter.

    Conventions of the embedding.
    - A Python [int] is a [Z].
    - A Python [float] is an exact rational [Q]; a decimal literal of the
      source stands for its decimal value.  The quotient of two counts is
      rounded once by the interpreter, to a double within 2^-53 of the
      exact quotient, while two different fractions [a/b] and [p/10^k]
      differ by at least [1/(b*10^k)]: for the repository counts met here
      the comparisons of the source and the exact ones agree.
      [round] rounds the exact value, ties to even; the source rounds
      the double, which at a tie of the exact value can fall on the other
      side (1/80 to three digits).
    - A Python [str] is a [string]; [str.lower] is the ASCII lowering
      and [len] counts the characters of an ASCII name.
    - A [datetime] is a number of microseconds since the epoch; the
      dates of a repository are present.
    - A [dict] used as a lookup table is a [gmap]; a [dict] that is
      iterated is an association list in insertion order; a [set] is a
      [gset].
    - Calls into collaborators (the repository source, the clock, the
      OpenAI client) are functions of an explicit world [W]. *)

From Stdlib Require Import ZArith QArith Qround Lqa Lia Bool Ascii String.
From stdpp Require Import base option list gmap strings.

Set Default Proof Using "Type".
Set Warnings "-clear-no-such-hyp".
Local Open Scope Z_scope.

(** ** Comparisons of floats *)

Module Float.

Definition leb (x y : Q) : bool := Qle_bool x y.
Definition geb (x y : Q) : bool := Qle_bool y x.
Definition ltb (x y : Q) : bool := negb (Qle_bool y x).
Definition gtb (x y : Q) : bool := negb (Qle_bool x y).
Definition eqb (x y : Q) : bool := Qeq_bool x y.

(** Python's true division of two integers. *)
Definition div (a b : Z) : Q := (inject_Z a / inject_Z b)%Q.

(** Python's [min] on floats: the first argument unless the second is
    strictly smaller. *)
Definition min (x y : Q) : Q := if ltb y x then y else x.

(** Python's [round(x)]: to the nearest integer, ties to the even one. *)
Definition round_half_even (x : Q) : Z :=
  let f := Qfloor x in
  let d := (x - inject_Z f)%Q in
  if ltb d 0.5 then f
  else if gtb d 0.5 then f + 1
  else if Z.even f then f else f + 1.

(** Python's [round(x, ndigits)]. *)
Definition round (x : Q) (ndigits : Z) : Q :=
  (inject_Z (round_half_even (x * inject_Z (10 ^ ndigits))) / inject_Z (10 ^ ndigits))%Q.

End Float.

(** ** Strings *)

Module Str.

Definition lower_ascii (c : ascii) : ascii :=
  let n := nat_of_ascii c in
  if ((65 <=? n) && (n <=? 90))%nat then ascii_of_nat (n + 32) else c.

(** [str.lower] *)
Fixpoint lower (s : string) : string :=
  match s with
  | EmptyString => EmptyString
  | String c s' => String (lower_ascii c) (lower s')
  end.

(** [s.startswith(p)] *)
Fixpoint startswith (s p : string) : bool :=
  match p, s with
  | EmptyString, _ => true
  | String _ _, EmptyString => false
  | String a p', String b s' => if decide (a = b) then startswith s' p' else false
  end.

(** [sub in s] *)
Fixpoint contains (sub s : string) : bool :=
  startswith s sub ||
  match s with
  | EmptyString => false
  | String _ s' => contains sub s'
  end.

(** [len(s)] *)
Definition len (s : string) : Z := Z.of_nat (String.length s).

(** [s in l] for a list of strings *)
Definition mem (s : string) (l : list string) : bool := bool_decide (s ∈ l).

(** [any(p in s for p in l)] *)
Definition any_in (l : list string) (s : string) : bool :=
  existsb (fun p => contains p s) l.

End Str.

(** ** The dictionaries passed between the modules *)

Module RepoData.

(** The dictionary built by [GitHubScanner._get_temporal_metadata]; the
    two ISO date strings are left out. *)
Record TemporalMetadata : Type := {
  age_months : Q;
  days_since_push : Z;
  is_active : bool;
  is_recent : bool;
  is_new : bool;
  is_legacy : bool
}.

(** The answer of the domain detector, of which the pipeline reads the
    domain tag. *)
Record DomainInfo : Type := {
  domain : string;
  confidence : Q
}.

(** Technologies by category: the dictionary returned by the detector. *)
Definition Techs : Type := list (string * gset string).

(** An entry of [repo_details]. *)
Record RepoDetail : Type := {
  name : string;
  full_name : string;
  url : string;
  stars : Z;
  technologies : Techs;
  temporal_metadata : TemporalMetadata;
  domain_info : option DomainInfo
}.

End RepoData.

(** ** temporal_analyzer.py *)

Module TemporalAnalyzer.

Inductive Trend : Type := GROWING | STABLE | DECLINING | ABANDONED | NONE.

#[global] Instance Trend_eq_dec : EqDecision Trend.
Proof. solve_decision. Defined.

Definition _determine_trend (recent new legacy active total : Z) : Trend :=
  if total =? 0 then NONE
  else
    let recent_ratio := Float.div recent total in
    let new_ratio := Float.div new total in
    let legacy_ratio := Float.div legacy total in
    let activity_ratio := Float.div active total in
    if Float.gtb recent_ratio 0.5
       || (Float.gtb new_ratio 0.6 && Float.gtb activity_ratio 0.7)
    then GROWING
    else if Float.gtb legacy_ratio 0.7 && Float.ltb activity_ratio 0.3
    then ABANDONED
    else if Float.eqb recent_ratio 0 && Float.ltb new_ratio 0.3
            && Float.ltb activity_ratio 0.5
    then DECLINING
    else STABLE.

Definition _calculate_recency_score (recent new total : Z) : Q :=
  if total =? 0 then 0%Q
  else ((inject_Z recent * 1.0 + inject_Z new * 0.5) / inject_Z total)%Q.

(** [sum(1 for r in repos if flag(r))] *)
Fixpoint count_if {A : Type} (flag : A -> bool) (repos : list A) : Z :=
  match repos with
  | [] => 0
  | r :: rest => (if flag r then 1 else 0) + count_if flag rest
  end.

(** [sum(x(r) for r in repos)] over floats *)
Fixpoint sum_of {A : Type} (x : A -> Q) (repos : list A) : Q :=
  match repos with
  | [] => 0%Q
  | r :: rest => (x r + sum_of x rest)%Q
  end.

(** An entry of the per-domain breakdown. *)
Record DomainMetrics : Type := {
  dom_total_repos : Z;
  dom_recent_repos : Z;
  dom_new_repos : Z;
  dom_active_repos : Z;
  dom_recency_score : Q;
  dom_activity_score : Q;
  dom_trend : Trend
}.

(** The analysis dictionary; [by_domain] is [None] when the key is
    absent. *)
Record TemporalData : Type := {
  total_repos : Z;
  recent_repos : Z;
  new_repos : Z;
  legacy_repos : Z;
  active_repos : Z;
  stale_repos : Z;
  avg_age_months : Q;
  trend : Trend;
  recency_score : Q;
  activity_score : Q;
  repos_list : list string;
  by_domain : option (list (string * DomainMetrics))
}.

Definition _empty_analysis : TemporalData :=
  {| total_repos := 0; recent_repos := 0; new_repos := 0; legacy_repos := 0;
     active_repos := 0; stale_repos := 0; avg_age_months := 0; trend := NONE;
     recency_score := 0; activity_score := 0; repos_list := [];
     by_domain := None |}.

Import RepoData.

Definition flag_recent (r : RepoDetail) : bool := is_recent (temporal_metadata r).
Definition flag_new (r : RepoDetail) : bool := is_new (temporal_metadata r).
Definition flag_legacy (r : RepoDetail) : bool := is_legacy (temporal_metadata r).
Definition flag_active (r : RepoDetail) : bool := is_active (temporal_metadata r).

(** [domain_groups[domain].append(repo)] on a [defaultdict(list)], which
    keeps the domains in the order of their first repository. *)
Fixpoint group_append (groups : list (string * list RepoDetail))
    (d : string) (r : RepoDetail) : list (string * list RepoDetail) :=
  match groups with
  | [] => [(d, [r])]
  | (d', rs) :: rest =>
      if decide (d' = d) then (d', rs ++ [r]) :: rest
      else (d', rs) :: group_append rest d r
  end.

Definition domain_groups (repos_with_tech : list RepoDetail)
    : list (string * list RepoDetail) :=
  fold_left
    (fun groups repo =>
       match domain_info repo with
       | Some info =>
           if decide (domain info = EmptyString) then groups
           else group_append groups (domain info) repo
       | None => groups
       end)
    repos_with_tech [].

Definition domain_metrics (repos : list RepoDetail) : DomainMetrics :=
  let total := Z.of_nat (length repos) in
  let recent := count_if flag_recent repos in
  let new := count_if flag_new repos in
  let active := count_if flag_active repos in
  {| dom_total_repos := total;
     dom_recent_repos := recent;
     dom_new_repos := new;
     dom_active_repos := active;
     dom_recency_score := Float.round (_calculate_recency_score recent new total) 3;
     dom_activity_score :=
       if 0 <? total then Float.round (Float.div active total) 3 else 0%Q;
     dom_trend :=
       _determine_trend recent new (count_if flag_legacy repos) active total |}.

Definition _analyze_by_domain (repos_with_tech : list RepoDetail)
    : list (string * DomainMetrics) :=
  map (fun g => (g.1, domain_metrics g.2)) (domain_groups repos_with_tech).

(** [tech_name in category_techs] for some category of the repository *)
Definition uses (tech_name : string) (repo : RepoDetail) : bool :=
  existsb (fun cat => bool_decide (tech_name ∈ cat.2)) (technologies repo).

(** [analyze_technology(tech_name, repo_details)], the domain filter
    being left at its default [None]. *)
Definition analyze_technology (tech_name : string)
    (repo_details : list RepoDetail) : TemporalData :=
  let repos_with_tech := List.filter (uses tech_name) repo_details in
  match repos_with_tech with
  | [] => _empty_analysis
  | _ =>
    let total := Z.of_nat (length repos_with_tech) in
    let recent := count_if flag_recent repos_with_tech in
    let new := count_if flag_new repos_with_tech in
    let legacy := count_if flag_legacy repos_with_tech in
    let active := count_if flag_active repos_with_tech in
    let avg_age :=
      (sum_of (fun r => age_months (temporal_metadata r)) repos_with_tech
       / inject_Z total)%Q in
    let recency := _calculate_recency_score recent new total in
    let activity := if 0 <? total then Float.div active total else 0%Q in
    let breakdown := _analyze_by_domain repos_with_tech in
    {| total_repos := total;
       recent_repos := recent;
       new_repos := new;
       legacy_repos := legacy;
       active_repos := active;
       stale_repos := total - active;
       avg_age_months := Float.round avg_age 1;
       trend := _determine_trend recent new legacy active total;
       recency_score := Float.round recency 3;
       activity_score := Float.round activity 3;
       repos_list := take 10 (map name repos_with_tech);
       by_domain := match breakdown with [] => None | _ => Some breakdown end |}
  end.

End TemporalAnalyzer.

(** ** classifier_enhanced.py *)

Module Classifier.

Import TemporalAnalyzer.

(** Ring numbers: 0 Adopt, 1 Trial, 2 Assess, 3 Hold. *)
Definition RINGS (ring : Z) : option string :=
  if ring =? 0 then Some "Adopt"%string
  else if ring =? 1 then Some "Trial"%string
  else if ring =? 2 then Some "Assess"%string
  else if ring =? 3 then Some "Hold"%string
  else None.

(** The loop over [temporal_data['by_domain'].items()]: the first entry
    that passes one of the two tests decides. *)
Fixpoint domain_dominance (entries : list (string * DomainMetrics))
    : option (Z * Q) :=
  match entries with
  | [] => None
  | (_, metrics) :: rest =>
      let domain_repos := dom_total_repos metrics in
      let domain_activity := dom_activity_score metrics in
      if 20 <=? domain_repos then
        if ((50 <=? domain_repos) && Float.geb domain_activity 0.5)
           || ((70 <=? domain_repos) && Float.geb domain_activity 0.4)
        then Some (0, 0.9%Q)
        else if (30 <=? domain_repos) && Float.geb domain_activity 0.65
        then Some (1, 0.8%Q)
        else domain_dominance rest
      else domain_dominance rest
  end.

(** The fallback to global metrics. *)
Definition global_ring_decision (usage recency activity : Q) (trend : Trend)
    : Z * Q :=
  if (Float.geb usage 0.4 && Float.geb activity 0.5)
     || (Float.geb usage 0.35 && Float.geb activity 0.6)
  then (0, 0.9%Q)
  else if (Float.geb recency 0.2 && Float.geb activity 0.6
           && bool_decide (trend = GROWING))
          || (Float.geb usage 0.25 && Float.geb activity 0.75)
  then (1, 0.8%Q)
  else if (Float.ltb usage 0.1 && Float.ltb activity 0.3)
          || bool_decide (trend = ABANDONED)
  then (3, 0.85%Q)
  else (2, 0.6%Q).

Definition _smart_ring_decision (usage recency activity : Q) (trend : Trend)
    (temporal_data : TemporalData) : Z * Q :=
  let dominance :=
    match by_domain temporal_data with
    | Some (entry :: entries) => domain_dominance (entry :: entries)
    | _ => None
    end in
  match dominance with
  | Some decision => decision
  | None => global_ring_decision usage recency activity trend
  end.

Definition _calculate_confidence (usage_score recency_score activity_score : Q)
    (temporal_data : TemporalData) (ring_confidence ai_confidence : Q) : Q :=
  let strong_signals := 0 in
  let total_signals := 0 in
  let total_signals := total_signals + 1 in
  let strong_signals :=
    if Float.gtb usage_score 0.7 || Float.ltb usage_score 0.1
    then strong_signals + 1 else strong_signals in
  let total_signals := total_signals + 1 in
  let strong_signals :=
    if Float.gtb activity_score 0.8 || Float.ltb activity_score 0.2
    then strong_signals + 1 else strong_signals in
  let total_signals := total_signals + 1 in
  let strong_signals :=
    if bool_decide (trend temporal_data ∈ [GROWING; ABANDONED])
    then strong_signals + 1 else strong_signals in
  let total_signals := total_signals + 1 in
  let strong_signals :=
    if 5 <=? total_repos temporal_data
    then strong_signals + 1 else strong_signals in
  let signal_confidence := Float.div strong_signals total_signals in
  let confidence :=
    (signal_confidence * 0.4 + ring_confidence * 0.4 + ai_confidence * 0.2)%Q in
  Float.min confidence 1.0.

Definition _determine_review_need (confidence : Q)
    (temporal_data : TemporalData) (usage_score : Q) (ring : Z)
    : bool * option string :=
  if Float.ltb confidence 0.75
  then (true, Some "Low confidence classification"%string)
  else if bool_decide (trend temporal_data = DECLINING)
          && Float.gtb usage_score 0.3
  then (true, Some "High usage but declining trend"%string)
  else if bool_decide (trend temporal_data = GROWING)
          && Float.ltb usage_score 0.1
  then (true, Some "Low usage but growing trend"%string)
  else if total_repos temporal_data <? 3
  then (true, Some "Limited data (fewer than 3 repos)"%string)
  else (false, None).

Definition _convert_ai_confidence (ai_confidence : string) : Q :=
  let label := Str.lower ai_confidence in
  if decide (label = "high"%string) then 0.9%Q
  else if decide (label = "medium"%string) then 0.6%Q
  else if decide (label = "low"%string) then 0.3%Q
  else 0.5%Q.

End Classifier.

(** ** Exceptions *)

Module Py.

(** What a call raises.  [CircuitOpen remaining] is the [Exception] that
    [CircuitBreaker.call] raises itself, with the seconds left in its
    message; [Failure] is any other exception below [Exception]. *)
Inductive exn : Type :=
  | CircuitOpen (remaining : Q)
  | TypeError
  | ZeroDivisionError
  | Failure (what : string).

(** How a call ends: with a value, with an exception that [except
    Exception] catches, or with one it does not catch ([KeyboardInterrupt],
    [SystemExit]). *)
Inductive outcome (A : Type) : Type :=
  | Return (a : A)
  | Raise (e : exn)
  | Interrupt.

Arguments Return {A} a.
Arguments Raise {A} e.
Arguments Interrupt {A}.

End Py.

(** ** rate_limiter.py *)

Module RateLimiter.

Import Py.

Inductive CircuitState : Type := CLOSED | OPEN | HALF_OPEN.

#[global] Instance CircuitState_eq_dec : EqDecision CircuitState.
Proof. solve_decision. Defined.

Record CircuitBreaker : Type := {
  failure_threshold : Z;
  timeout : Z;
  failure_count : Z;
  last_failure_time : option Q;
  state : CircuitState
}.

(** [CircuitBreaker(failure_threshold, timeout)] *)
Definition __init__ (failure_threshold timeout : Z) : CircuitBreaker :=
  {| failure_threshold := failure_threshold; timeout := timeout;
     failure_count := 0; last_failure_time := None; state := CLOSED |}.

Definition set_state (self : CircuitBreaker) (s : CircuitState) : CircuitBreaker :=
  {| failure_threshold := failure_threshold self; timeout := timeout self;
     failure_count := failure_count self;
     last_failure_time := last_failure_time self; state := s |}.

Definition set_failure_count (self : CircuitBreaker) (n : Z) : CircuitBreaker :=
  {| failure_threshold := failure_threshold self; timeout := timeout self;
     failure_count := n;
     last_failure_time := last_failure_time self; state := state self |}.

Definition set_last_failure_time (self : CircuitBreaker) (t : option Q)
    : CircuitBreaker :=
  {| failure_threshold := failure_threshold self; timeout := timeout self;
     failure_count := failure_count self;
     last_failure_time := t; state := state self |}.

Definition reset (self : CircuitBreaker) : CircuitBreaker :=
  set_last_failure_time (set_state (set_failure_count self 0) CLOSED) None.

Section Call.

(** The world the guarded function runs in, and [time.time()] in it. *)
Context {W : Type} (time : W -> Q).

(** The test at the head of [call]: the breaker to go on with, or the
    exception raised before the function is called.  The seconds left
    in the message are read from the clock of the same world. *)
Definition gate (self : CircuitBreaker) (w : W) : CircuitBreaker + exn :=
  if decide (state self = OPEN) then
    match last_failure_time self with
    | None => inr TypeError
    | Some last =>
        if Float.geb (time w - last) (inject_Z (timeout self))
        then inl (set_state self HALF_OPEN)
        else inr (CircuitOpen (inject_Z (timeout self) - (time w - last)))
    end
  else inl self.

Definition on_success (self : CircuitBreaker) : CircuitBreaker :=
  let self := if decide (state self = HALF_OPEN) then set_state self CLOSED else self in
  set_failure_count self 0.

Definition on_failure (self : CircuitBreaker) (w : W) : CircuitBreaker :=
  let self := set_failure_count self (failure_count self + 1) in
  let self := set_last_failure_time self (Some (time w)) in
  if failure_threshold self <=? failure_count self
  then set_state self OPEN else self.

(** [self.call(func)]: the breaker and the world afterwards, and how the
    call ends. *)
Definition call {A : Type} (self : CircuitBreaker)
    (func : W -> W * outcome A) (w : W) : CircuitBreaker * W * outcome A :=
  match gate self w with
  | inr e => (self, w, Raise e)
  | inl self =>
      let '(w', r) := func w in
      match r with
      | Return result => (on_success self, w', Return result)
      | Raise e => (on_failure self w', w', Raise e)
      | Interrupt => (self, w', Interrupt)
      end
  end.

End Call.

End RateLimiter.

(** ** progress.py *)

Module Progress.

Import Py.

(** [self.data]; the organization table is never written by the source
    and is left out. *)
Record Data : Type := {
  scanned_repos : list string;
  start_time : option Q;
  last_update : option Q;
  end_time : option Q
}.

(** The tracker with the checkpoint file it writes: [checkpoint_file] is
    the dictionary last dumped, [None] before any dump. *)
Record ProgressTracker : Type := {
  enabled : bool;
  data : Data;
  checkpoint_file : option Data
}.

Definition set_scanned_repos (d : Data) (l : list string) : Data :=
  {| scanned_repos := l; start_time := start_time d;
     last_update := last_update d; end_time := end_time d |}.

Definition set_last_update (d : Data) (t : option Q) : Data :=
  {| scanned_repos := scanned_repos d; start_time := start_time d;
     last_update := t; end_time := end_time d |}.

Definition set_end_time (d : Data) (t : option Q) : Data :=
  {| scanned_repos := scanned_repos d; start_time := start_time d;
     last_update := last_update d; end_time := t |}.

Definition set_data (self : ProgressTracker) (d : Data) : ProgressTracker :=
  {| enabled := enabled self; data := d;
     checkpoint_file := checkpoint_file self |}.

Section Tracker.

(** The world: its clock, and whether the dump to the checkpoint file
    goes through in it. *)
Context {W : Type} (now : W -> Q) (dump_ok : W -> bool).

(** [_save]: the time stamp is set before the dump; a failed dump is
    logged and leaves the file as it was. *)
Definition _save (self : ProgressTracker) (w : W) : ProgressTracker :=
  if negb (enabled self) then self
  else
    let d := set_last_update (data self) (Some (now w)) in
    {| enabled := enabled self; data := d;
       checkpoint_file := if dump_ok w then Some d else checkpoint_file self |}.

Definition is_scanned (self : ProgressTracker) (repo_full_name : string) : bool :=
  Str.mem repo_full_name (scanned_repos (data self)).

(** [mark_scanned]: the modulus by a zero interval raises after the name
    has been appended. *)
Definition mark_scanned (self : ProgressTracker) (repo_full_name : string)
    (save_interval : Z) (w : W) : ProgressTracker * outcome unit :=
  let self :=
    if Str.mem repo_full_name (scanned_repos (data self)) then self
    else set_data self
           (set_scanned_repos (data self)
              (scanned_repos (data self) ++ [repo_full_name])) in
  if save_interval =? 0 then (self, Raise ZeroDivisionError)
  else if Z.of_nat (length (scanned_repos (data self))) mod save_interval =? 0
  then (_save self w, Return tt)
  else (self, Return tt).

Definition finalize (self : ProgressTracker) (w : W) : ProgressTracker :=
  _save (set_data self (set_end_time (data self) (Some (now w)))) w.

End Tracker.

End Progress.

(** ** scanner.py *)

Module Scanner.

Import Py RepoData.

(** What the scan reads of a [github.Repository]; a [datetime] is the
    number of microseconds since the epoch. *)
Record Repository : Type := {
  repo_name : string;
  repo_full_name : string;
  html_url : string;
  stargazers_count : Z;
  archived : bool;
  fork : bool;
  private : bool;
  created_at : Z;
  pushed_at : option Z
}.

(** [config['github']] with the defaults of [_should_skip_repo] filled in. *)
Record GithubConfig : Type := {
  include_archived : bool;
  include_forks : bool;
  include_private : bool;
  min_stars : Z;
  exclude_repos : list string
}.

Record Stats : Type := {
  repos_scanned : Z;
  repos_skipped : Z;
  api_calls : Z;
  errors : Z
}.

(** The attributes of the scanner that [scan_organization] reads or
    writes; [domain_detector] and [deep_scanner] say whether the
    collaborator was built. *)
Record GitHubScanner : Type := {
  config : GithubConfig;
  progress_tracker : option Progress.ProgressTracker;
  circuit_breaker : RateLimiter.CircuitBreaker;
  domain_detector : bool;
  deep_scanner : bool;
  repo_limit : option Z;
  checkpoint_save_interval : Z;
  stats : Stats
}.

Definition set_stats (self : GitHubScanner) (s : Stats) : GitHubScanner :=
  {| config := config self; progress_tracker := progress_tracker self;
     circuit_breaker := circuit_breaker self;
     domain_detector := domain_detector self; deep_scanner := deep_scanner self;
     repo_limit := repo_limit self;
     checkpoint_save_interval := checkpoint_save_interval self; stats := s |}.

Definition set_circuit_breaker (self : GitHubScanner)
    (b : RateLimiter.CircuitBreaker) : GitHubScanner :=
  {| config := config self; progress_tracker := progress_tracker self;
     circuit_breaker := b;
     domain_detector := domain_detector self; deep_scanner := deep_scanner self;
     repo_limit := repo_limit self;
     checkpoint_save_interval := checkpoint_save_interval self;
     stats := stats self |}.

Definition set_progress_tracker (self : GitHubScanner)
    (t : option Progress.ProgressTracker) : GitHubScanner :=
  {| config := config self; progress_tracker := t;
     circuit_breaker := circuit_breaker self;
     domain_detector := domain_detector self; deep_scanner := deep_scanner self;
     repo_limit := repo_limit self;
     checkpoint_save_interval := checkpoint_save_interval self;
     stats := stats self |}.

Definition incr_scanned (s : Stats) : Stats :=
  {| repos_scanned := repos_scanned s + 1; repos_skipped := repos_skipped s;
     api_calls := api_calls s; errors := errors s |}.

Definition incr_skipped (s : Stats) : Stats :=
  {| repos_scanned := repos_scanned s; repos_skipped := repos_skipped s + 1;
     api_calls := api_calls s; errors := errors s |}.

Definition incr_api_calls (s : Stats) : Stats :=
  {| repos_scanned := repos_scanned s; repos_skipped := repos_skipped s;
     api_calls := api_calls s + 1; errors := errors s |}.

Definition incr_errors (s : Stats) : Stats :=
  {| repos_scanned := repos_scanned s; repos_skipped := repos_skipped s;
     api_calls := api_calls s; errors := errors s + 1 |}.

(** [(now - then).days] *)
Definition days (delta : Z) : Z := delta / 86400000000.

Definition _get_temporal_metadata (now : Z) (repo : Repository)
    : TemporalMetadata :=
  let created := created_at repo in
  let pushed := match pushed_at repo with Some p => p | None => created end in
  let age_days := days (now - created) in
  let age_months := (inject_Z age_days / 30.0)%Q in
  let days_since_push := days (now - pushed) in
  {| age_months := Float.round age_months 1;
     days_since_push := days_since_push;
     is_active := days_since_push <? 90;
     is_recent := Float.leb age_months 6;
     is_new := Float.leb age_months 12;
     is_legacy := Float.gtb age_months 24 |}.

(** [_should_skip_repo]; [fnmatch] is the library's glob match of a name
    against a pattern. *)
Definition _should_skip_repo (fnmatch : string -> string -> bool)
    (self : GitHubScanner) (repo : Repository) : bool :=
  let config := config self in
  if archived repo && negb (include_archived config) then true
  else if fork repo && negb (include_forks config) then true
  else if private repo && negb (include_private config) then true
  else if stargazers_count repo <? min_stars config then true
  else existsb (fun pattern => fnmatch (repo_name repo) pattern)
         (exclude_repos config).

(** [technologies['tools'].update(deep_techs)], the key being created
    when it is missing. *)
Definition add_tools (technologies : Techs) (deep_techs : list string) : Techs :=
  let technologies :=
    if existsb (fun cat => bool_decide (cat.1 = "tools"%string)) technologies
    then technologies else technologies ++ [("tools"%string, ∅)] in
  map (fun cat =>
         if decide (cat.1 = "tools"%string)
         then (cat.1, cat.2 ∪ list_to_set deep_techs) else cat)
      technologies.

(** How a loop ends: at the end of its list, or by an exception or an
    interrupt that leaves it. *)
Inductive ending : Type :=
  | Finished
  | Raised (e : exn)
  | Interrupted.

Section Scan.

(** The world and the collaborators of the scan: the two clocks, the
    checkpoint dump, the glob match, the rate limiter, the detector, the
    deep scanner, the domain detector, the listing of an organization
    and the optional progress callback. *)
Context {W : Type}
  (time : W -> Q)
  (utcnow : W -> Z)
  (dump_ok : W -> bool)
  (fnmatch : string -> string -> bool)
  (check_and_wait : W -> W * outcome unit)
  (detect_technologies : Repository -> W -> W * outcome Techs)
  (should_deep_scan : string -> bool)
  (deep_scan_repository : Repository -> W -> W * outcome (list string))
  (detect_domain : Repository -> Techs -> W -> W * outcome (option DomainInfo))
  (get_repos : string -> W -> W * outcome (list Repository))
  (progress_callback : option (Z -> Z -> string -> W -> W * outcome unit)).

(** [_scan_repository], the function handed to the breaker: it runs on
    the statistics of the scanner and the world. *)
Definition _scan_repository (deep : bool) (repo : Repository)
    (sw : Stats * W) : (Stats * W) * outcome Techs :=
  let '(w, r) := check_and_wait sw.2 in
  match r with
  | Raise e => ((sw.1, w), Raise e)
  | Interrupt => ((sw.1, w), Interrupt)
  | Return _ =>
      let st := incr_api_calls sw.1 in
      let '(w, r) := detect_technologies repo w in
      match r with
      | Raise e => ((st, w), Raise e)
      | Interrupt => ((st, w), Interrupt)
      | Return technologies =>
          if deep && should_deep_scan (repo_name repo) then
            let '(w, r) := deep_scan_repository repo w in
            match r with
            | Return deep_techs =>
                ((st, w),
                 Return (match deep_techs with
                         | [] => technologies
                         | _ => add_tools technologies deep_techs
                         end))
            | Raise _ => ((st, w), Return technologies)
            | Interrupt => ((st, w), Interrupt)
            end
          else ((st, w), Return technologies)
      end
  end.

(** The scanner, the two result lists and the world during a scan. *)
Record Run : Type := {
  self : GitHubScanner;
  all_repo_techs : list Techs;
  repo_details : list RepoDetail;
  world : W
}.

Definition with_stats (run : Run) (f : Stats -> Stats) : Run :=
  {| self := set_stats (self run) (f (stats (self run)));
     all_repo_techs := all_repo_techs run; repo_details := repo_details run;
     world := world run |}.

Definition with_world (run : Run) (w : W) : Run :=
  {| self := self run; all_repo_techs := all_repo_techs run;
     repo_details := repo_details run; world := w |}.

(** [self.circuit_breaker.call(self._scan_repository, repo)] *)
Definition guarded_scan (run : Run) (repo : Repository)
    : RateLimiter.CircuitBreaker * (Stats * W) * outcome Techs :=
  RateLimiter.call (fun sw : Stats * W => time sw.2)
    (circuit_breaker (self run))
    (_scan_repository (deep_scanner (self run)) repo)
    (stats (self run), world run).

(** The statements of the [try] body after the guarded call returned
    [techs], up to the count of scanned repositories. *)
Definition record_scan (run : Run) (repo : Repository) (techs : Techs)
    : Run * outcome unit :=
  match techs with
  | [] => (with_stats run incr_scanned, Return tt)
  | _ =>
      let techs_list := all_repo_techs run ++ [techs] in
      let '(w, found) :=
        if domain_detector (self run) then
          let '(w, r) := detect_domain repo techs (world run) in
          match r with
          | Return info => (w, Return info)
          | Raise _ => (w, Return None)
          | Interrupt => (w, Interrupt)
          end
        else (world run, Return None) in
      match found with
      | Return info =>
          let detail :=
            {| name := repo_name repo; full_name := repo_full_name repo;
               url := html_url repo; stars := stargazers_count repo;
               technologies := techs;
               temporal_metadata := _get_temporal_metadata (utcnow w) repo;
               domain_info := info |} in
          (with_stats
             {| self := self run; all_repo_techs := techs_list;
                repo_details := repo_details run ++ [detail]; world := w |}
             incr_scanned,
           Return tt)
      | Raise e =>
          ({| self := self run; all_repo_techs := techs_list;
              repo_details := repo_details run; world := w |}, Raise e)
      | Interrupt =>
          ({| self := self run; all_repo_techs := techs_list;
              repo_details := repo_details run; world := w |}, Interrupt)
      end
  end.

(** The checkpoint statement that ends the [try] body. *)
Definition checkpoint (run : Run) (repo : Repository) : Run * outcome unit :=
  match progress_tracker (self run) with
  | None => (run, Return tt)
  | Some tracker =>
      let '(tracker, r) :=
        Progress.mark_scanned time dump_ok tracker (repo_full_name repo)
          (checkpoint_save_interval (self run)) (world run) in
      ({| self := set_progress_tracker (self run) (Some tracker);
          all_repo_techs := all_repo_techs run;
          repo_details := repo_details run; world := world run |}, r)
  end.

(** The [try] statement of the loop body: an exception is counted and
    the loop goes on, an interrupt leaves the loop. *)
Definition try_scan (run : Run) (repo : Repository) : Run * option ending :=
  let '(breaker, sw, r) := guarded_scan run repo in
  let run :=
    {| self := set_stats (set_circuit_breaker (self run) breaker) sw.1;
       all_repo_techs := all_repo_techs run; repo_details := repo_details run;
       world := sw.2 |} in
  match r with
  | Return techs =>
      match record_scan run repo techs with
      | (run, Return _) =>
          match checkpoint run repo with
          | (run, Return _) => (run, None)
          | (run, Raise _) => (with_stats run incr_errors, None)
          | (run, Interrupt) => (run, Some Interrupted)
          end
      | (run, Raise _) => (with_stats run incr_errors, None)
      | (run, Interrupt) => (run, Some Interrupted)
      end
  | Raise _ => (with_stats run incr_errors, None)
  | Interrupt => (run, Some Interrupted)
  end.

(** Whether the loop body reaches its [try] statement for [repo]. *)
Definition skipped (run : Run) (repo : Repository) : bool :=
  match progress_tracker (self run) with
  | Some tracker =>
      Progress.is_scanned tracker (repo_full_name repo)
      || _should_skip_repo fnmatch (self run) repo
  | None => _should_skip_repo fnmatch (self run) repo
  end.

(** One turn of the loop of [scan_organization]; [None] goes on with the
    next repository. *)
Definition scan_one (total : Z) (run : Run) (idx : Z) (repo : Repository)
    : Run * option ending :=
  if skipped run repo then (with_stats run incr_skipped, None)
  else
    match progress_callback with
    | None => try_scan run repo
    | Some callback =>
        let '(w, r) := callback (idx + 1) total (repo_name repo) (world run) in
        match r with
        | Return _ => try_scan (with_world run w) repo
        | Raise e => (with_world run w, Some (Raised e))
        | Interrupt => (with_world run w, Some Interrupted)
        end
    end.

(** [for idx, repo in enumerate(repos)], from index [idx] on. *)
Fixpoint scan_loop (total : Z) (run : Run) (idx : Z) (repos : list Repository)
    : Run * ending :=
  match repos with
  | [] => (run, Finished)
  | repo :: rest =>
      match scan_one total run idx repo with
      | (run, None) => scan_loop total run (idx + 1) rest
      | (run, Some e) => (run, e)
      end
  end.

(** [scan_organization(org_name, progress_callback)]: the scanner and
    the world afterwards, and the two lists or the way the call was
    left. *)
Definition scan_organization (scanner : GitHubScanner) (org_name : string)
    (w : W) : Run * ending :=
  let start (scanner : GitHubScanner) (w : W) : Run :=
    {| self := scanner; all_repo_techs := []; repo_details := []; world := w |} in
  let '(w, r) := check_and_wait w in
  match r with
  | Raise e => (start scanner w, Raised e)
  | Interrupt => (start scanner w, Interrupted)
  | Return _ =>
      let scanner := set_stats scanner (incr_api_calls (stats scanner)) in
      let '(w, r) := get_repos org_name w in
      match r with
      | Raise e => (start scanner w, Raised e)
      | Interrupt => (start scanner w, Interrupted)
      | Return repos =>
          let total_repos := Z.of_nat (length repos) in
          let repos :=
            match repo_limit scanner with
            | Some limit =>
                if negb (limit =? 0) && (limit <? total_repos)
                then take (Z.to_nat (if 0 <=? limit then limit
                                     else total_repos + limit)) repos
                else repos
            | None => repos
            end in
          scan_loop (Z.of_nat (length repos)) (start scanner w) 0 repos
      end
  end.

End Scan.

End Scanner.

(** ** ai_filter.py *)

Module AIFilter.

Import Py.

(** [tech['metadata']], of which the filter reads and writes the counts. *)
Record Metadata : Type := {
  repos_count : Z;
  usage_percentage : Q;
  total_repos : Z
}.

(** [tech['filtering_metadata']]; a key that is absent is [None]. *)
Record FilteringMetadata : Type := {
  merged_from : option (list string);
  ai_decision : option string;
  consolidated_from : option (list string)
}.

(** A classified technology.  The keys that the filter adds are [None]
    while absent; an entry of [sub_features] is the child with its count
    instead of the text formatted from the two. *)
Record Tech : Type := {
  name : string;
  quadrant : Z;
  ring : Z;
  metadata : Metadata;
  filtering_metadata : option FilteringMetadata;
  sub_features : option (list (string * Z));
  deprecated : option bool;
  replacement : option string;
  deprecation_note : option string
}.

(** A strategic decision; [strategic_value] and [reason] are [None] when
    the answer of the model lacks the key. *)
Record Decision : Type := {
  should_include : bool;
  strategic_value : option string;
  reason : option string;
  decision_confidence : option string
}.

(** The answers of the model once parsed, with the keys the prompts ask
    for; [None] for a key that [.get] reads and that may be missing. *)
Record StrategicAnswer : Type := {
  answer_strategic_value : option string;
  answer_reason : option string;
  answer_confidence : option string
}.

Record MergeGroup : Type := {
  are_duplicates : option bool;
  canonical_name : string;
  merge_candidates : list string;
  merge_reason : option string
}.

Record HierarchyAnswer : Type := {
  should_consolidate : option bool;
  hierarchy_reason : option string
}.

Record Consolidation : Type := {
  parent : string;
  children : list string;
  consolidation_reason : option string
}.

Record Deprecation : Type := {
  dep_name : string;
  dep_repos_count : Z;
  dep_replacement : string;
  dep_note : string
}.

Record Stats : Type := {
  evaluated : Z;
  kept : Z;
  removed : Z;
  merged : Z;
  consolidated : Z;
  ai_calls : Z
}.

(** The filter: its configuration and its statistics. *)
Record AITechnologyFilter : Type := {
  enabled : bool;
  ignore_single_repo : bool;
  ignore_os_utilities : bool;
  ignore_dev_conveniences : bool;
  strategic_include : list string;
  duplicate_detection : bool;
  consolidation : bool;
  deprecation : bool;
  always_include_min_repos : Z;
  always_include_names : gset string;
  stats : Stats
}.

(** The decisions returned by [filter_technologies]. *)
Record Decisions : Type := {
  strategic_decisions : gmap string Decision;
  merge_groups : list MergeGroup;
  consolidations : list Consolidation;
  deprecated_list : list Deprecation
}.

Definition set_stats (self : AITechnologyFilter) (s : Stats) : AITechnologyFilter :=
  {| enabled := enabled self; ignore_single_repo := ignore_single_repo self;
     ignore_os_utilities := ignore_os_utilities self;
     ignore_dev_conveniences := ignore_dev_conveniences self;
     strategic_include := strategic_include self;
     duplicate_detection := duplicate_detection self;
     consolidation := consolidation self; deprecation := deprecation self;
     always_include_min_repos := always_include_min_repos self;
     always_include_names := always_include_names self; stats := s |}.

Definition add_evaluated (s : Stats) : Stats :=
  {| evaluated := evaluated s + 1; kept := kept s; removed := removed s;
     merged := merged s; consolidated := consolidated s; ai_calls := ai_calls s |}.

Definition add_kept (s : Stats) : Stats :=
  {| evaluated := evaluated s; kept := kept s + 1; removed := removed s;
     merged := merged s; consolidated := consolidated s; ai_calls := ai_calls s |}.

Definition add_removed (s : Stats) : Stats :=
  {| evaluated := evaluated s; kept := kept s; removed := removed s + 1;
     merged := merged s; consolidated := consolidated s; ai_calls := ai_calls s |}.

Definition add_merged (s : Stats) (n : Z) : Stats :=
  {| evaluated := evaluated s; kept := kept s; removed := removed s;
     merged := merged s + n; consolidated := consolidated s;
     ai_calls := ai_calls s |}.

Definition add_consolidated (s : Stats) (n : Z) : Stats :=
  {| evaluated := evaluated s; kept := kept s; removed := removed s;
     merged := merged s; consolidated := consolidated s + n;
     ai_calls := ai_calls s |}.

Definition add_ai_call (s : Stats) : Stats :=
  {| evaluated := evaluated s; kept := kept s; removed := removed s;
     merged := merged s; consolidated := consolidated s;
     ai_calls := ai_calls s + 1 |}.

Definition os_utils : list string :=
  ["apt-get"; "brew"; "curl"; "wget"; "tar"; "zip"; "unzip"; "grep"; "sed";
   "awk"]%string.

Definition dev_utils : list string :=
  ["rimraf"; "nodemon"; "npm-run-all"; "cross-env"; "dotenv"; "envsubst"]%string.

Definition _should_auto_ignore (self : AITechnologyFilter) (tech : Tech) : bool :=
  let name := Str.lower (name tech) in
  let repos_count := repos_count (metadata tech) in
  if ignore_single_repo self && (repos_count =? 1) then true
  else if ignore_os_utilities self && Str.any_in os_utils name then true
  else if ignore_dev_conveniences self && Str.any_in dev_utils name then true
  else false.

(** [similar] of [_group_similar_names]: the test that puts [other] into
    the group of [name]. *)
Definition similar_names (name other : string) : bool :=
  let name_lower := Str.lower name in
  let other_lower := Str.lower other in
  if decide (name_lower = other_lower) then true
  else (Str.contains name_lower other_lower
        || Str.contains other_lower name_lower)
       && (Z.abs (Str.len name - Str.len other) <=? 5).

(** The outer loop of [_group_similar_names] over the names still to
    visit. *)
Fixpoint group_names (tech_names : list string) (todo : list string)
    (groups : list (list string)) (processed : gset string)
    : list (list string) :=
  match todo with
  | [] => groups
  | name :: rest =>
      if decide (name ∈ processed) then group_names tech_names rest groups processed
      else
        let similar :=
          name :: List.filter
                    (fun other =>
                       negb (bool_decide (other = name)
                             || bool_decide (other ∈ processed))
                       && similar_names name other)
                    tech_names in
        if (1 <? length similar)%nat
        then group_names tech_names rest (groups ++ [similar])
               (processed ∪ list_to_set similar)
        else group_names tech_names rest groups processed
  end.

Definition _group_similar_names (technologies : list Tech) : list (list string) :=
  let tech_names := map name technologies in
  group_names tech_names tech_names [] ∅.

(** [hierarchies[name].append(other)] on a [defaultdict(list)] *)
Fixpoint hierarchy_append (hierarchies : list (string * list string))
    (name other : string) : list (string * list string) :=
  match hierarchies with
  | [] => [(name, [other])]
  | (n, others) :: rest =>
      if decide (n = name) then (n, others ++ [other]) :: rest
      else (n, others) :: hierarchy_append rest name other
  end.

Definition _find_potential_hierarchies (technologies : list Tech)
    : list (string * list string) :=
  let tech_names := map name technologies in
  fold_left
    (fun hierarchies name =>
       fold_left
         (fun hierarchies other =>
            if negb (bool_decide (name = other))
               && Str.startswith other (String.append name " ")
            then hierarchy_append hierarchies name other
            else hierarchies)
         tech_names hierarchies)
    tech_names [].

(** The table of [_detect_deprecated]. *)
Definition known_deprecated (name : string) : option (string * string) :=
  if decide (name = "TSLint"%string)
  then Some ("ESLint", "TSLint is deprecated. Migrate to ESLint.")%string
  else if decide (name = "tslint"%string)
  then Some ("ESLint", "TSLint is deprecated. Migrate to ESLint.")%string
  else None.

Definition _detect_deprecated (technologies : list Tech) : list Deprecation :=
  omap
    (fun tech =>
       match known_deprecated (name tech) with
       | Some (replacement, note) =>
           Some {| dep_name := name tech;
                   dep_repos_count := repos_count (metadata tech);
                   dep_replacement := replacement; dep_note := note |}
       | None => None
       end)
    technologies.

(** [{t['name']: t for t in technologies}] *)
Definition lookup_table (technologies : list Tech) : gmap string Tech :=
  fold_left (fun table tech => <[name tech := tech]> table) technologies ∅.

(** Step 1 of [apply_filter_decisions]: the names decided against. *)
Definition strategic_removals (decisions : gmap string Decision) : gset string :=
  dom (filter (fun entry => should_include entry.2 = false) decisions).

(** [sum(tech_lookup[name]['metadata']['repos_count'] for name in names
    if name in tech_lookup)] *)
Fixpoint sum_counts (tech_lookup : gmap string Tech) (names : list string) : Z :=
  match names with
  | [] => 0
  | name :: rest =>
      match tech_lookup !! name with
      | Some tech => repos_count (metadata tech) + sum_counts tech_lookup rest
      | None => sum_counts tech_lookup rest
      end
  end.

Definition absorb (tech : Tech) (total : Z) (group : MergeGroup) : Tech :=
  {| name := name tech; quadrant := quadrant tech; ring := ring tech;
     metadata :=
       {| repos_count := total;
          usage_percentage :=
            Float.round
              (Float.div total (total_repos (metadata tech)) * 100)%Q 1;
          total_repos := total_repos (metadata tech) |};
     filtering_metadata :=
       Some {| merged_from := Some (merge_candidates group);
               ai_decision := Some (default EmptyString (merge_reason group));
               consolidated_from := None |};
     sub_features := sub_features tech; deprecated := deprecated tech;
     replacement := replacement tech;
     deprecation_note := deprecation_note tech |}.

(** Step 2 for one group; the division raises when the canonical entry
    records no repositories in total. *)
Definition merge_group (state : gmap string Tech * gset string)
    (group : MergeGroup) : exn + gmap string Tech * gset string :=
  let '(tech_lookup, to_remove) := state in
  let canonical := canonical_name group in
  let candidates := merge_candidates group in
  let total := sum_counts tech_lookup (canonical :: candidates) in
  match tech_lookup !! canonical with
  | Some tech =>
      if total_repos (metadata tech) =? 0 then inl ZeroDivisionError
      else inr (<[canonical := absorb tech total group]> tech_lookup,
                to_remove ∪ list_to_set candidates)
  | None => inr (tech_lookup, to_remove ∪ list_to_set candidates)
  end.

Fixpoint merge_all (state : gmap string Tech * gset string)
    (groups : list MergeGroup) : exn + gmap string Tech * gset string :=
  match groups with
  | [] => inr state
  | group :: rest =>
      match merge_group state group with
      | inr state => merge_all state rest
      | inl e => inl e
      end
  end.

Definition annotate_parent (tech : Tech) (features : list (string * Z))
    (children : list string) : Tech :=
  let previous :=
    default {| merged_from := None; ai_decision := None;
               consolidated_from := None |} (filtering_metadata tech) in
  {| name := name tech; quadrant := quadrant tech; ring := ring tech;
     metadata := metadata tech;
     filtering_metadata :=
       Some {| merged_from := merged_from previous;
               ai_decision := ai_decision previous;
               consolidated_from := Some children |};
     sub_features := Some features; deprecated := deprecated tech;
     replacement := replacement tech;
     deprecation_note := deprecation_note tech |}.

(** Step 3 for one consolidation. *)
Definition consolidate (state : gmap string Tech * gset string)
    (c : Consolidation) : gmap string Tech * gset string :=
  let '(tech_lookup, to_remove) := state in
  let tech_lookup :=
    match tech_lookup !! parent c with
    | Some tech =>
        let features :=
          omap (fun child =>
                  match tech_lookup !! child with
                  | Some t => Some (child, repos_count (metadata t))
                  | None => None
                  end)
               (children c) in
        <[parent c := annotate_parent tech features (children c)]> tech_lookup
    | None => tech_lookup
    end in
  (tech_lookup, to_remove ∪ list_to_set (children c)).

Definition flag_deprecated (tech : Tech) (d : Deprecation) : Tech :=
  {| name := name tech; quadrant := quadrant tech; ring := ring tech;
     metadata := metadata tech;
     filtering_metadata := filtering_metadata tech;
     sub_features := sub_features tech; deprecated := Some true;
     replacement := Some (dep_replacement d);
     deprecation_note := Some (dep_note d) |}.

(** Step 4 for one entry. *)
Definition deprecate (tech_lookup : gmap string Tech) (d : Deprecation)
    : gmap string Tech :=
  match tech_lookup !! dep_name d with
  | Some tech => <[dep_name d := flag_deprecated tech d]> tech_lookup
  | None => tech_lookup
  end.

(** Step 5: the entries of the table for the names that stay, in the
    order of the list given. *)
Definition final_technologies (technologies : list Tech)
    (tech_lookup : gmap string Tech) (to_remove : gset string) : list Tech :=
  omap (fun tech =>
          if bool_decide (name tech ∈ to_remove) then None
          else tech_lookup !! name tech)
       technologies.

Definition apply_filter_decisions (technologies : list Tech)
    (decisions : Decisions) : exn + list Tech :=
  let tech_lookup := lookup_table technologies in
  let to_remove := strategic_removals (strategic_decisions decisions) in
  match merge_all (tech_lookup, to_remove) (merge_groups decisions) with
  | inl e => inl e
  | inr state =>
      let '(tech_lookup, to_remove) :=
        fold_left consolidate (consolidations decisions) state in
      let tech_lookup :=
        fold_left deprecate (deprecated_list decisions) tech_lookup in
      inr (final_technologies technologies tech_lookup to_remove)
  end.

Section Oracle.

(** The world of the filter and the three questions put to the model.
    Each stands for the request with the retries of its decorator and
    the parsing of the reply: an exception when the request failed for
    good, [None] when the reply is not JSON, the parsed answer
    otherwise.  A duplicate answer is taken to name its canonical entry
    and its candidates. *)
Context {W : Type}
  (strategic_oracle : Tech -> W -> W * (exn + option StrategicAnswer))
  (duplicate_oracle : list string -> W -> W * (exn + option MergeGroup))
  (hierarchy_oracle : string -> list string -> W -> W * (exn + option HierarchyAnswer)).

Definition JSONDecodeError : exn := Failure "JSONDecodeError".

Definition _evaluate_strategic_value (self : AITechnologyFilter) (tech : Tech)
    (w : W) : AITechnologyFilter * W * (exn + Decision) :=
  let '(w, r) := strategic_oracle tech w in
  match r with
  | inl e => (self, w, inl e)
  | inr reply =>
      let self := set_stats self (add_ai_call (stats self)) in
      match reply with
      | None => (self, w, inl JSONDecodeError)
      | Some result =>
          let strategic_value :=
            default "medium"%string (answer_strategic_value result) in
          (self, w,
           inr {| should_include := Str.mem strategic_value (strategic_include self);
                  strategic_value := answer_strategic_value result;
                  reason := answer_reason result;
                  decision_confidence := answer_confidence result |})
      end
  end.

(** The body of the loop of [_evaluate_all_strategic_value]; the reason
    of the second override is given without the count that the source
    formats into it. *)
Definition evaluate_one (self : AITechnologyFilter) (tech : Tech) (w : W)
    : AITechnologyFilter * W * Decision :=
  let self := set_stats self (add_evaluated (stats self)) in
  if bool_decide (name tech ∈ always_include_names self) then
    (set_stats self (add_kept (stats self)), w,
     {| should_include := true; strategic_value := Some "high"%string;
        reason := Some "Explicitly configured to always include"%string;
        decision_confidence := Some "high"%string |})
  else if always_include_min_repos self <=? repos_count (metadata tech) then
    (set_stats self (add_kept (stats self)), w,
     {| should_include := true; strategic_value := Some "medium"%string;
        reason := Some "Used in repos (above threshold)"%string;
        decision_confidence := Some "high"%string |})
  else if _should_auto_ignore self tech then
    (set_stats self (add_removed (stats self)), w,
     {| should_include := false; strategic_value := Some "low"%string;
        reason := Some "Auto-ignored (utility/single-repo)"%string;
        decision_confidence := Some "high"%string |})
  else
    match _evaluate_strategic_value self tech w with
    | (self, w, inr decision) =>
        (set_stats self
           (if should_include decision then add_kept (stats self)
            else add_removed (stats self)), w, decision)
    | (self, w, inl _) =>
        (set_stats self (add_kept (stats self)), w,
         {| should_include := true; strategic_value := Some "unknown"%string;
            reason := Some "AI evaluation failed, kept by default"%string;
            decision_confidence := Some "low"%string |})
    end.

Fixpoint evaluate_all (self : AITechnologyFilter) (technologies : list Tech)
    (decisions : gmap string Decision) (w : W)
    : AITechnologyFilter * W * gmap string Decision :=
  match technologies with
  | [] => (self, w, decisions)
  | tech :: rest =>
      let '(self, w, decision) := evaluate_one self tech w in
      evaluate_all self rest (<[name tech := decision]> decisions) w
  end.

Definition _evaluate_all_strategic_value (self : AITechnologyFilter)
    (technologies : list Tech) (w : W)
    : AITechnologyFilter * W * gmap string Decision :=
  evaluate_all self technologies ∅ w.

(** [_detect_duplicates]: the request, the count of calls, the parsing. *)
Definition _detect_duplicates (self : AITechnologyFilter)
    (tech_group : list string) (w : W)
    : AITechnologyFilter * W * (exn + MergeGroup) :=
  let '(w, r) := duplicate_oracle tech_group w in
  match r with
  | inl e => (self, w, inl e)
  | inr reply =>
      let self := set_stats self (add_ai_call (stats self)) in
      match reply with
      | None => (self, w, inl JSONDecodeError)
      | Some result => (self, w, inr result)
      end
  end.

(** The loop of [_detect_all_duplicates] over the potential groups. *)
Fixpoint detect_groups (self : AITechnologyFilter)
    (potential_groups : list (list string)) (merge_groups : list MergeGroup)
    (w : W) : AITechnologyFilter * W * list MergeGroup :=
  match potential_groups with
  | [] => (self, w, merge_groups)
  | group :: rest =>
      if (1 <? length group)%nat then
        match _detect_duplicates self group w with
        | (self, w, inr result) =>
            if default false (are_duplicates result) then
              detect_groups
                (set_stats self
                   (add_merged (stats self)
                      (Z.of_nat (length (merge_candidates result)))))
                rest (merge_groups ++ [result]) w
            else detect_groups self rest merge_groups w
        | (self, w, inl _) => detect_groups self rest merge_groups w
        end
      else detect_groups self rest merge_groups w
  end.

Definition _detect_all_duplicates (self : AITechnologyFilter)
    (technologies : list Tech) (w : W)
    : AITechnologyFilter * W * list MergeGroup :=
  detect_groups self (_group_similar_names technologies) [] w.

(** [_detect_hierarchy]: the answer with the parent and the children
    written into it. *)
Definition _detect_hierarchy (self : AITechnologyFilter) (parent : string)
    (children : list string) (w : W)
    : AITechnologyFilter * W * (exn + (HierarchyAnswer * Consolidation)) :=
  let '(w, r) := hierarchy_oracle parent children w in
  match r with
  | inl e => (self, w, inl e)
  | inr reply =>
      let self := set_stats self (add_ai_call (stats self)) in
      match reply with
      | None => (self, w, inl JSONDecodeError)
      | Some result =>
          (self, w,
           inr (result,
                {| parent := parent; children := children;
                   consolidation_reason := hierarchy_reason result |}))
      end
  end.

Fixpoint detect_hierarchies (self : AITechnologyFilter)
    (potential : list (string * list string)) (found : list Consolidation)
    (w : W) : AITechnologyFilter * W * list Consolidation :=
  match potential with
  | [] => (self, w, found)
  | (parent, children) :: rest =>
      if (0 <? length children)%nat then
        match _detect_hierarchy self parent children w with
        | (self, w, inr (result, consolidation)) =>
            if default false (should_consolidate result) then
              detect_hierarchies
                (set_stats self
                   (add_consolidated (stats self) (Z.of_nat (length children))))
                rest (found ++ [consolidation]) w
            else detect_hierarchies self rest found w
        | (self, w, inl _) => detect_hierarchies self rest found w
        end
      else detect_hierarchies self rest found w
  end.

Definition _detect_all_hierarchies (self : AITechnologyFilter)
    (technologies : list Tech) (w : W)
    : AITechnologyFilter * W * list Consolidation :=
  detect_hierarchies self (_find_potential_hierarchies technologies) [] w.

(** [filter_technologies]: the four phases, each on the list it was
    given. *)
Definition filter_technologies (self : AITechnologyFilter)
    (technologies : list Tech) (w : W) : AITechnologyFilter * W * Decisions :=
  if negb (enabled self) then
    (self, w,
     {| strategic_decisions := ∅; merge_groups := []; consolidations := [];
        deprecated_list := [] |})
  else
    let '(self, w, strategic) :=
      _evaluate_all_strategic_value self technologies w in
    let '(self, w, groups) :=
      if duplicate_detection self
      then _detect_all_duplicates self technologies w else (self, w, []) in
    let '(self, w, found) :=
      if consolidation self
      then _detect_all_hierarchies self technologies w else (self, w, []) in
    let deprecated :=
      if deprecation self then _detect_deprecated technologies else [] in
    (self, w,
     {| strategic_decisions := strategic; merge_groups := groups;
        consolidations := found; deprecated_list := deprecated |}).

End Oracle.

End AIFilter.

(** ** main.py *)

Module Main.

Import Py AIFilter.

(** The curation step of [main.py]: the decisions, then their
    application to the list the decisions were taken on. *)
Definition curate {W : Type}
    (strategic_oracle : Tech -> W -> W * (exn + option StrategicAnswer))
    (duplicate_oracle : list string -> W -> W * (exn + option MergeGroup))
    (hierarchy_oracle : string -> list string -> W -> W * (exn + option HierarchyAnswer))
    (self : AITechnologyFilter) (technologies : list Tech) (w : W)
    : Decisions * (exn + list Tech) :=
  let decisions :=
    (filter_technologies strategic_oracle duplicate_oracle hierarchy_oracle
       self technologies w).2 in
  (decisions, apply_filter_decisions technologies decisions).

End Main.


(** ** classifier_enhanced.py: the classification of the technologies *)

Module Decision.

Import TemporalAnalyzer Classifier.

Definition QUADRANTS (quadrant : Z) : option string :=
  if quadrant =? 0 then Some "Techniques"%string
  else if quadrant =? 1 then Some "Tools"%string
  else if quadrant =? 2 then Some "Platforms"%string
  else if quadrant =? 3 then Some "Languages & Frameworks"%string
  else None.

Definition languages : list string :=
  ["python"; "javascript"; "typescript"; "java"; "go"; "rust"; "php"; "ruby";
   "kotlin"; "c++"; "c#"]%string.

Definition frameworks : list string :=
  ["react"; "vue"; "angular"; "django"; "flask"; "express"; "next.js";
   "rails"; "laravel"]%string.

Definition platforms : list string :=
  ["docker"; "kubernetes"; "aws"; "azure"; "gcp"; "postgres"; "mysql";
   "mongodb"; "redis"]%string.

Definition tools : list string :=
  ["webpack"; "vite"; "jest"; "pytest"; "eslint"; "prettier"; "github";
   "maven"; "gradle"]%string.

Definition _infer_quadrant (tech_name : string) : Z :=
  let tech_lower := Str.lower tech_name in
  if Str.any_in (languages ++ frameworks) tech_lower then 3
  else if Str.any_in platforms tech_lower then 2
  else if Str.any_in tools tech_lower then 1
  else 0.

(** [domain_counts[domain] = domain_counts.get(domain, 0) + 1] *)
Fixpoint count_domain (domain_counts : list (string * Z)) (domain : string)
    : list (string * Z) :=
  match domain_counts with
  | [] => [(domain, 1)]
  | (d, n) :: rest =>
      if decide (d = domain) then (d, n + 1) :: rest
      else (d, n) :: count_domain rest domain
  end.

(** The domain under which [_meets_domain_threshold] counts a
    repository. *)
Definition domain_of (repo : RepoData.RepoDetail) : string :=
  match RepoData.domain_info repo with
  | Some domain_data => RepoData.domain domain_data
  | None => "unknown"%string
  end.

Definition domain_counts (tech_name : string)
    (repo_details : list RepoData.RepoDetail) : list (string * Z) :=
  fold_left
    (fun counts repo =>
       if uses tech_name repo then count_domain counts (domain_of repo)
       else counts)
    repo_details [].

Definition _meets_domain_threshold (tech_name : string) (total_count : Z)
    (repo_details : list RepoData.RepoDetail) (default_min_repos : Z)
    (min_repos_by_domain : gmap string Z) : bool :=
  if default_min_repos <=? total_count then true
  else
    existsb
      (fun entry =>
         default default_min_repos (min_repos_by_domain !! entry.1) <=? entry.2)
      (domain_counts tech_name repo_details).

(** [_should_exclude]; [fnmatch] is the library's glob match. *)
Definition _should_exclude (fnmatch : string -> string -> bool)
    (exclude_patterns : list string) (tech_name : string) : bool :=
  existsb (fun pattern => fnmatch (Str.lower tech_name) (Str.lower pattern))
    exclude_patterns.

(** An entry of the result of [_analyze_domain_breakdown]. *)
Record DomainSuggestion : Type := {
  suggested_ring : Z;
  ring_name : string;
  suggestion_confidence : Q;
  suggestion_total_repos : Z;
  suggestion_recent_repos : Z;
  suggestion_activity_score : Q;
  suggestion_trend : Trend
}.

(** The metrics of a domain read as the dictionary that
    [_smart_ring_decision] is given: they have no breakdown of their
    own. *)
Definition metrics_profile (metrics : DomainMetrics) : TemporalData :=
  {| total_repos := dom_total_repos metrics;
     recent_repos := dom_recent_repos metrics;
     new_repos := dom_new_repos metrics;
     legacy_repos := 0;
     active_repos := dom_active_repos metrics;
     stale_repos := 0;
     avg_age_months := 0;
     trend := dom_trend metrics;
     recency_score := dom_recency_score metrics;
     activity_score := dom_activity_score metrics;
     repos_list := [];
     by_domain := None |}.

(** The body of the loop of [_analyze_domain_breakdown]; [None] is the
    [KeyError] of [self.RINGS[ring]]. *)
Definition suggest (metrics : DomainMetrics) : option DomainSuggestion :=
  let usage_score :=
    Float.min (inject_Z (dom_total_repos metrics) / 10.0)%Q 1.0 in
  let '(ring, confidence) :=
    _smart_ring_decision usage_score (dom_recency_score metrics)
      (dom_activity_score metrics) (dom_trend metrics)
      (metrics_profile metrics) in
  match RINGS ring with
  | Some ring_name =>
      Some {| suggested_ring := ring; ring_name := ring_name;
              suggestion_confidence := Float.round confidence 2;
              suggestion_total_repos := dom_total_repos metrics;
              suggestion_recent_repos := dom_recent_repos metrics;
              suggestion_activity_score := dom_activity_score metrics;
              suggestion_trend := dom_trend metrics |}
  | None => None
  end.

Fixpoint _analyze_domain_breakdown (entries : list (string * DomainMetrics))
    : option (list (string * DomainSuggestion)) :=
  match entries with
  | [] => Some []
  | (domain, metrics) :: rest =>
      match suggest metrics with
      | Some suggestion =>
          match _analyze_domain_breakdown rest with
          | Some suggestions => Some ((domain, suggestion) :: suggestions)
          | None => None
          end
      | None => None
      end
  end.

(** A decision factor; the text that the source formats from a number
    is the constructor with the number. *)
Inductive Tier : Type := High | Medium | Low.

Inductive Factor : Type :=
  | UsageFactor (tier : Tier) (usage_percentage : Q)
  | RecentAdoption (recent_repos : Z)
  | NoRecentAdoption
  | ActivityFactor (tier : Tier) (active_pct : Q)
  | TrendFactor (trend : Trend).

Definition _build_decision_factors (usage_percentage : Q)
    (temporal_data : TemporalData) : list Factor :=
  let usage :=
    if Float.geb usage_percentage 50 then UsageFactor High usage_percentage
    else if Float.geb usage_percentage 20 then UsageFactor Medium usage_percentage
    else UsageFactor Low usage_percentage in
  let recency :=
    if 0 <? recent_repos temporal_data
    then RecentAdoption (recent_repos temporal_data) else NoRecentAdoption in
  let active_pct :=
    if 0 <? total_repos temporal_data
    then (Float.div (active_repos temporal_data) (total_repos temporal_data)
          * 100)%Q
    else 0%Q in
  let activity :=
    if Float.geb active_pct 70 then ActivityFactor High active_pct
    else if Float.geb active_pct 40 then ActivityFactor Medium active_pct
    else ActivityFactor Low active_pct in
  [usage; recency; activity; TrendFactor (trend temporal_data)].

(** A value of the reply of the model, as [json.loads] gives it. *)
Inductive Json : Type :=
  | JStr (s : string)
  | JInt (n : Z)
  | JOther.

(** The reply of the model, asked for as a JSON object; a key that the
    reply lacks is [None]. *)
Record AIResult : Type := {
  ai_quadrant : option Json;
  ai_description : option Json;
  ai_confidence : option Json
}.

(** The description of a classification: the value of the reply, or one
    of the two sentences that the source formats from the name and a
    number. *)
Inductive Description : Type :=
  | FromModel (value : Json)
  | UsedIn (tech_name : string) (count : Z)
  | UsedInShare (tech_name : string) (usage_percentage : Q).

(** The dictionary returned by [_get_ai_classification]: the reply, or
    the one of [_fallback_classification]. *)
Record AIClassification : Type := {
  quadrant_key : option Json;
  description_key : option Description;
  ai_confidence_key : option Json
}.

Definition of_reply (reply : AIResult) : AIClassification :=
  {| quadrant_key := ai_quadrant reply;
     description_key := FromModel <$> ai_description reply;
     ai_confidence_key := ai_confidence reply |}.

Definition _fallback_classification (tech_name : string)
    (usage_percentage : Q) (ring : Z) : AIClassification :=
  {| quadrant_key := Some (JInt (_infer_quadrant tech_name));
     description_key := Some (UsedInShare tech_name usage_percentage);
     ai_confidence_key := Some (JStr "low") |}.

Record Metadata : Type := {
  repos_count : Z;
  usage_percentage : Q;
  total_repos_scanned : Z;
  ai_confidence_label : Json;
  ai_model : string;
  temporal_data : TemporalData;
  usage_score : Q;
  recency_score_rounded : Q;
  activity_score_rounded : Q;
  domain_breakdown : option (list (string * DomainSuggestion))
}.

(** A classification as returned by [_classify_single_enhanced]. *)
Record Classification : Type := {
  name : string;
  quadrant : Json;
  ring : Z;
  description : Description;
  confidence : Q;
  metadata : Metadata;
  decision_factors : list Factor;
  needs_review : bool;
  review_reason : option string
}.

(** [config['openai']['model']] and [config['classification']], with the
    defaults of [classify_technologies] filled in. *)
Record Config : Type := {
  model : string;
  min_repos : Z;
  min_repos_by_domain : gmap string Z;
  exclude_patterns : list string
}.

(** [sorted(items, key=lambda x: x[1], reverse=True)]: the sort is
    stable, entries with the same count stay in the order they had. *)
Fixpoint insert_by_count (entry : string * Z) (sorted : list (string * Z))
    : list (string * Z) :=
  match sorted with
  | [] => [entry]
  | first :: rest =>
      if first.2 <? entry.2 then entry :: first :: rest
      else first :: insert_by_count entry rest
  end.

Definition sorted_by_count (items : list (string * Z)) : list (string * Z) :=
  fold_left (fun sorted entry => insert_by_count entry sorted) items [].

Section Classify.

(** The world, the glob match, and the request to the model with the
    parsing of its reply: [None] when one of the two raises. *)
Context {W : Type}
  (fnmatch : string -> string -> bool)
  (ai_oracle : string -> Q -> TemporalData -> Z -> W -> W * option AIResult).

(** [_get_ai_classification]; the prompt names the suggested ring, and
    [None] is the [KeyError] of a ring without a name, raised before the
    request. *)
Definition _get_ai_classification (tech_name : string) (usage_percentage : Q)
    (temporal_data : TemporalData) (suggested_ring : Z) (w : W)
    : W * option AIClassification :=
  match RINGS suggested_ring with
  | None => (w, None)
  | Some _ =>
      let '(w, reply) :=
        ai_oracle tech_name usage_percentage temporal_data suggested_ring w in
      match reply with
      | Some result => (w, Some (of_reply result))
      | None =>
          (w, Some (_fallback_classification tech_name usage_percentage
                      suggested_ring))
      end
  end.

(** [_classify_single_enhanced]; [None] when a step raises: the ring
    has no name, or the confidence of the reply is not a string and has
    no [lower]. *)
Definition _classify_single_enhanced (config : Config) (tech_name : string)
    (count total_repos : Z) (usage_percentage : Q)
    (temporal_data : TemporalData) (w : W) : W * option Classification :=
  let usage_score := (usage_percentage / 100)%Q in
  let recency_score := recency_score temporal_data in
  let activity_score := activity_score temporal_data in
  let '(ring, ring_confidence) :=
    _smart_ring_decision usage_score recency_score activity_score
      (trend temporal_data) temporal_data in
  let '(w, classification) :=
    _get_ai_classification tech_name usage_percentage temporal_data ring w in
  match classification with
  | None => (w, None)
  | Some ai_result =>
      let ai_confidence_str :=
        default (JStr "medium") (ai_confidence_key ai_result) in
      match ai_confidence_str with
      | JStr label =>
          let ai_confidence_float := _convert_ai_confidence label in
          let confidence :=
            _calculate_confidence usage_score recency_score activity_score
              temporal_data ring_confidence ai_confidence_float in
          let decision_factors :=
            _build_decision_factors usage_percentage temporal_data in
          let '(needs_review, review_reason) :=
            _determine_review_need confidence temporal_data usage_score ring in
          let breakdown :=
            match by_domain temporal_data with
            | Some (entry :: entries) =>
                match _analyze_domain_breakdown (entry :: entries) with
                | Some [] => Some None
                | Some suggestions => Some (Some suggestions)
                | None => None
                end
            | _ => Some None
            end in
          match breakdown with
          | None => (w, None)
          | Some domain_breakdown =>
              (w,
               Some
                 {| name := tech_name;
                    quadrant :=
                      default (JInt (_infer_quadrant tech_name))
                        (quadrant_key ai_result);
                    ring := ring;
                    description :=
                      default (UsedIn tech_name count)
                        (description_key ai_result);
                    confidence := Float.round confidence 3;
                    metadata :=
                      {| repos_count := count;
                         usage_percentage := Float.round usage_percentage 1;
                         total_repos_scanned := total_repos;
                         ai_confidence_label := ai_confidence_str;
                         ai_model := model config;
                         temporal_data := temporal_data;
                         usage_score := Float.round usage_score 3;
                         recency_score_rounded := Float.round recency_score 3;
                         activity_score_rounded := Float.round activity_score 3;
                         domain_breakdown := domain_breakdown |};
                    decision_factors := decision_factors;
                    needs_review := needs_review;
                    review_reason :=
                      if needs_review then review_reason else None |})
          end
      | _ => (w, None)
      end
  end.

(** The body of the loop of [classify_technologies] for one entry of the
    sorted counts: the two lists and the world afterwards.  The division
    by a zero total raises, and the entry is passed over as after any
    other exception of the [try] block. *)
Definition classify_one (config : Config) (total_repos : Z)
    (repo_details : list RepoData.RepoDetail)
    (lists : list Classification * list Classification) (entry : string * Z)
    (w : W) : (list Classification * list Classification) * W :=
  let '(tech_name, count) := entry in
  if negb (_meets_domain_threshold tech_name count repo_details
             (min_repos config) (min_repos_by_domain config))
  then (lists, w)
  else if _should_exclude fnmatch (exclude_patterns config) tech_name
  then (lists, w)
  else if total_repos =? 0 then (lists, w)
  else
    let usage_percentage := (Float.div count total_repos * 100)%Q in
    let temporal_data := analyze_technology tech_name repo_details in
    let '(w, result) :=
      _classify_single_enhanced config tech_name count total_repos
        usage_percentage temporal_data w in
    match result with
    | None => (lists, w)
    | Some classification =>
        if Float.geb (confidence classification) 0.75
        then ((lists.1 ++ [classification], lists.2), w)
        else ((lists.1, lists.2 ++ [classification]), w)
    end.

Fixpoint classify_all (config : Config) (total_repos : Z)
    (repo_details : list RepoData.RepoDetail)
    (lists : list Classification * list Classification)
    (entries : list (string * Z)) (w : W)
    : (list Classification * list Classification) * W :=
  match entries with
  | [] => (lists, w)
  | entry :: rest =>
      let '(lists, w) :=
        classify_one config total_repos repo_details lists entry w in
      classify_all config total_repos repo_details lists rest w
  end.

(** [classify_technologies]: the high-confidence list and the list that
    needs review. *)
Definition classify_technologies (config : Config)
    (tech_counts : list (string * Z)) (total_repos : Z)
    (repo_details : list RepoData.RepoDetail) (w : W)
    : (list Classification * list Classification) * W :=
  classify_all config total_repos repo_details ([], [])
    (sorted_by_count tech_counts) w.

End Classify.

End Decision.

(** ** rate_limiter.py: the rate limiter *)

Module Limiter.

Import Py.

(** [rate_limit.core]; the reset time is on the clock of
    [datetime.now()], in microseconds. *)
Record Core : Type := {
  remaining : Z;
  limit : Z;
  reset : Z
}.

Record RateLimiter : Type := {
  max_per_minute : Z;
  safety_threshold : Z;
  request_times : list Q;
  rate_limit_cache : option Core;
  rate_limit_cache_time : Q;
  cache_ttl : Z
}.

(** [RateLimiter(github, max_per_minute, safety_threshold)] *)
Definition __init__ (max_per_minute safety_threshold : Z) : RateLimiter :=
  {| max_per_minute := max_per_minute; safety_threshold := safety_threshold;
     request_times := []; rate_limit_cache := None;
     rate_limit_cache_time := 0; cache_ttl := 10 |}.

Definition set_request_times (self : RateLimiter) (times : list Q) : RateLimiter :=
  {| max_per_minute := max_per_minute self;
     safety_threshold := safety_threshold self;
     request_times := times;
     rate_limit_cache := rate_limit_cache self;
     rate_limit_cache_time := rate_limit_cache_time self;
     cache_ttl := cache_ttl self |}.

Definition set_rate_limit_cache (self : RateLimiter) (cache : option Core)
    : RateLimiter :=
  {| max_per_minute := max_per_minute self;
     safety_threshold := safety_threshold self;
     request_times := request_times self;
     rate_limit_cache := cache;
     rate_limit_cache_time := rate_limit_cache_time self;
     cache_ttl := cache_ttl self |}.

Definition set_rate_limit_cache_time (self : RateLimiter) (t : Q) : RateLimiter :=
  {| max_per_minute := max_per_minute self;
     safety_threshold := safety_threshold self;
     request_times := request_times self;
     rate_limit_cache := rate_limit_cache self;
     rate_limit_cache_time := t;
     cache_ttl := cache_ttl self |}.

Section Limit.

(** The world: [time.time()] in seconds and [datetime.now()] in
    microseconds, [time.sleep], and the query of the quota, which may
    raise. *)
Context {W : Type}
  (time : W -> Q)
  (datetime_now : W -> Z)
  (sleep : Q -> W -> W)
  (get_rate_limit : W -> W * outcome Core).

(** [_enforce_per_minute_limit]; [request_times[0]] of an empty list
    raises an [IndexError], after the list has been pruned. *)
Definition _enforce_per_minute_limit (self : RateLimiter) (w : W)
    : RateLimiter * W * outcome unit :=
  let now := time w in
  let self :=
    set_request_times self
      (List.filter (fun t => Float.ltb (now - t) 60) (request_times self)) in
  if max_per_minute self <=? Z.of_nat (length (request_times self)) then
    match request_times self with
    | [] => (self, w, Raise (Failure "IndexError"))
    | oldest :: _ =>
        let wait_seconds := (60 - (now - oldest))%Q in
        let w := if Float.gtb wait_seconds 0 then sleep wait_seconds w else w in
        (set_request_times self (request_times self ++ [now]), w, Return tt)
    end
  else (set_request_times self (request_times self ++ [now]), w, Return tt).

(** The quota that [check_and_wait] goes by: the cached one, or a fresh
    one that it caches with the time of the call. *)
Definition current_rate_limit (self : RateLimiter) (w : W)
    : RateLimiter * W * outcome Core :=
  let now := time w in
  match rate_limit_cache self with
  | Some cached =>
      if Float.gtb (now - rate_limit_cache_time self) (inject_Z (cache_ttl self))
      then
        let '(w, r) := get_rate_limit w in
        match r with
        | Return rate_limit =>
            (set_rate_limit_cache_time
               (set_rate_limit_cache self (Some rate_limit)) now,
             w, Return rate_limit)
        | Raise e => (self, w, Raise e)
        | Interrupt => (self, w, Interrupt)
        end
      else (self, w, Return cached)
  | None =>
      let '(w, r) := get_rate_limit w in
      match r with
      | Return rate_limit =>
          (set_rate_limit_cache_time
             (set_rate_limit_cache self (Some rate_limit)) now,
           w, Return rate_limit)
      | Raise e => (self, w, Raise e)
      | Interrupt => (self, w, Interrupt)
      end
  end.

Definition check_and_wait (self : RateLimiter) (w : W)
    : RateLimiter * W * outcome unit :=
  let '(self, w, r) := current_rate_limit self w in
  match r with
  | Return core_limit =>
      let '(self, w) :=
        if remaining core_limit <? safety_threshold self then
          let wait_seconds :=
            Float.div (reset core_limit - datetime_now w) 1000000 in
          if Float.gtb wait_seconds 0
          then (set_rate_limit_cache self None, sleep (wait_seconds + 1) w)
          else (self, w)
        else (self, w) in
      _enforce_per_minute_limit self w
  | Raise e => (self, w, Raise e)
  | Interrupt => (self, w, Interrupt)
  end.

End Limit.

End Limiter.

(** ** detector.py: the aggregation of the technologies *)

Module Detector.

Import RepoData.

(** The categories of a repository flattened into one set. *)
Definition all_techs (repo_techs : Techs) : gset string := ⋃ repo_techs.*2.

(** [tech_counts[tech] = tech_counts.get(tech, 0) + 1] for every
    technology of the set. *)
Definition count_occurrences (tech_counts : gmap string Z)
    (all_techs : gset string) : gmap string Z :=
  set_fold
    (fun tech tech_counts =>
       <[tech := default 0 (tech_counts !! tech) + 1]> tech_counts)
    tech_counts all_techs.

(** [aggregate_technologies]; the order in which a set is iterated is
    not fixed, and the dictionary is returned as a table. *)
Definition aggregate_technologies (all_repo_techs : list Techs)
    : gmap string Z :=
  fold_left
    (fun tech_counts repo_techs =>
       count_occurrences tech_counts (all_techs repo_techs))
    all_repo_techs ∅.

End Detector.

(** ** scanner.py: the scan of the organizations *)

Module Organizations.

Import Py RepoData Scanner Detector.

Section Orgs.

Context {W : Type}
  (time : W -> Q)
  (utcnow : W -> Z)
  (dump_ok : W -> bool)
  (fnmatch : string -> string -> bool)
  (check_and_wait : W -> W * outcome unit)
  (detect_technologies : Repository -> W -> W * outcome Techs)
  (should_deep_scan : string -> bool)
  (deep_scan_repository : Repository -> W -> W * outcome (list string))
  (detect_domain : Repository -> Techs -> W -> W * outcome (option DomainInfo))
  (get_repos : string -> W -> W * outcome (list Repository))
  (progress_callback : option (Z -> Z -> string -> W -> W * outcome unit)).

(** The loop of [scan_organizations] over the organizations still to
    scan: the two lists of an organization are added when its scan
    returns; an exception of the scan is counted and the loop goes on
    with what the scan left of the scanner; an interrupt leaves the
    loop. *)
Fixpoint scan_each (run : Run (W := W)) (orgs : list string) : Run * ending :=
  match orgs with
  | [] => (run, Finished)
  | org_name :: rest =>
      let '(org_run, e) :=
        scan_organization time utcnow dump_ok fnmatch check_and_wait
          detect_technologies should_deep_scan deep_scan_repository
          detect_domain get_repos progress_callback (self run) org_name
          (world run) in
      match e with
      | Finished =>
          scan_each
            {| self := self org_run;
               all_repo_techs := all_repo_techs run ++ all_repo_techs org_run;
               repo_details := repo_details run ++ repo_details org_run;
               world := world org_run |} rest
      | Raised _ =>
          scan_each
            {| self := set_stats (self org_run) (incr_errors (stats (self org_run)));
               all_repo_techs := all_repo_techs run;
               repo_details := repo_details run;
               world := world org_run |} rest
      | Interrupted =>
          ({| self := self org_run; all_repo_techs := all_repo_techs run;
              repo_details := repo_details run; world := world org_run |},
           Interrupted)
      end
  end.

(** [scan_organizations] over the organizations of the configuration:
    the scanner and the world afterwards, and the counts with the
    details of the repositories. *)
Definition scan_organizations (scanner : GitHubScanner) (orgs : list string)
    (w : W) : Run * outcome (gmap string Z * list RepoDetail) :=
  let '(run, e) :=
    scan_each {| self := scanner; all_repo_techs := []; repo_details := [];
                 world := w |} orgs in
  match e with
  | Interrupted => (run, Interrupt)
  | _ => (run, Return (aggregate_technologies (all_repo_techs run),
                       repo_details run))
  end.

End Orgs.

End Organizations.

(** ** progress.py: building the tracker and starting the scan *)

Module Resume.

Import Py Progress.

(** What the checkpoint path holds when the tracker is built: nothing,
    something that [json.load] does not read, or a dictionary dumped by
    an earlier run. *)
Inductive File : Type :=
  | Missing
  | Unreadable
  | Stored (d : Data).

Definition empty_data : Data :=
  {| scanned_repos := []; start_time := None; last_update := None;
     end_time := None |}.

(** [_load]: the data of the tracker afterwards. *)
Definition _load (data : Data) (file : File) : Data :=
  match file with
  | Missing => data
  | Unreadable => set_scanned_repos data []
  | Stored d => d
  end.

(** [ProgressTracker(checkpoint_path, enabled, resume)] *)
Definition __init__ (file : File) (enabled resume : bool) : ProgressTracker :=
  {| enabled := enabled;
     data := if enabled && resume then _load empty_data file else empty_data;
     checkpoint_file := match file with Stored d => Some d | _ => None end |}.

Section Tracker.

Context {W : Type} (now : W -> Q) (dump_ok : W -> bool).

Definition start_scan (self : ProgressTracker) (w : W) : ProgressTracker :=
  let self :=
    match start_time (data self) with
    | Some _ => self
    | None =>
        set_data self
          {| scanned_repos := scanned_repos (data self);
             start_time := Some (now w);
             last_update := last_update (data self);
             end_time := end_time (data self) |}
    end in
  _save now dump_ok self w.

(** [get_progress]: the number of scanned repositories and the two
    times. *)
Definition get_progress (self : ProgressTracker) : Z * option Q * option Q :=
  (Z.of_nat (length (scanned_repos (data self))), start_time (data self),
   last_update (data self)).

(** [clear]: the data are reset and the file is removed. *)
Definition clear (self : ProgressTracker) : ProgressTracker :=
  {| enabled := enabled self; data := empty_data; checkpoint_file := None |}.

End Tracker.

End Resume.

(** * Vocabulary of the properties *)

(** ** Ring decision, confidence and review *)

Module RingSpec.

Import TemporalAnalyzer Classifier.

(** A profile without a per-domain breakdown: the key is absent or the
    dictionary is empty. *)
Definition no_breakdown (temporal_data : TemporalData) : Prop :=
  by_domain temporal_data = None \/ by_domain temporal_data = Some [].

(** A stable technology in ten repositories, nine of them active. *)
Definition stable_profile : TemporalData :=
  {| total_repos := 10; recent_repos := 0; new_repos := 3; legacy_repos := 2;
     active_repos := 9; stale_repos := 1; avg_age_months := 18; trend := STABLE;
     recency_score := 0.15; activity_score := 0.9; repos_list := [];
     by_domain := None |}.

Definition with_breakdown (temporal_data : TemporalData)
    (entries : list (string * DomainMetrics)) : TemporalData :=
  {| total_repos := total_repos temporal_data;
     recent_repos := recent_repos temporal_data;
     new_repos := new_repos temporal_data;
     legacy_repos := legacy_repos temporal_data;
     active_repos := active_repos temporal_data;
     stale_repos := stale_repos temporal_data;
     avg_age_months := avg_age_months temporal_data;
     trend := trend temporal_data;
     recency_score := recency_score temporal_data;
     activity_score := activity_score temporal_data;
     repos_list := repos_list temporal_data;
     by_domain := Some entries |}.

(** Thirty mobile repositories, 21 of them active. *)
Definition mobile_presence : DomainMetrics :=
  {| dom_total_repos := 30; dom_recent_repos := 0; dom_new_repos := 0;
     dom_active_repos := 21; dom_recency_score := 0; dom_activity_score := 0.7;
     dom_trend := STABLE |}.

(** Seventy backend repositories, 35 of them active. *)
Definition backend_dominance : DomainMetrics :=
  {| dom_total_repos := 70; dom_recent_repos := 0; dom_new_repos := 0;
     dom_active_repos := 35; dom_recency_score := 0; dom_activity_score := 0.5;
     dom_trend := STABLE |}.

(** The two tests of the override on one entry, as the claim words
    them. *)
Definition adopt_entry (metrics : DomainMetrics) : Prop :=
  (70 <= dom_total_repos metrics /\ (0.4 <= dom_activity_score metrics)%Q)
  \/ (50 <= dom_total_repos metrics /\ (0.5 <= dom_activity_score metrics)%Q).

Definition trial_entry (metrics : DomainMetrics) : Prop :=
  30 <= dom_total_repos metrics /\ (0.65 <= dom_activity_score metrics)%Q.


#[export] Instance Qlt_decision (x y : Q) : Decision (x < y)%Q :=
  match Qlt_le_dec x y with
  | left H => left H
  | right H => right (Qle_not_lt _ _ H)
  end.



End RingSpec.

(** ** The circuit breaker *)

Module BreakerSpec.

Import Py RateLimiter.

Section Calls.

Context {W A : Type} (time : W -> Q).

Implicit Types (self : CircuitBreaker) (func : W -> W * outcome A) (w : W).

(** A guarded operation that raises in every world. *)
Definition always_fails func : Prop := forall w, exists e, (func w).2 = Raise e.

(** Calls one after the other, each in the world the last one left. *)
Fixpoint calls self (funcs : list (W -> W * outcome A)) w : CircuitBreaker * W :=
  match funcs with
  | [] => (self, w)
  | func :: rest =>
      let '(self, w, _) := call time self func w in calls self rest w
  end.

(** The worlds the operations leave when each of them is run. *)
Fixpoint run_all (funcs : list (W -> W * outcome A)) w : W :=
  match funcs with
  | [] => w
  | func :: rest => run_all rest (func w).1
  end.

(** The operations fail in turn: each one raises in the world the one
    before it left. *)
Fixpoint fail_in_turn (funcs : list (W -> W * outcome A)) w : Prop :=
  match funcs with
  | [] => True
  | func :: rest =>
      (exists e, (func w).2 = Raise e) /\ fail_in_turn rest (func w).1
  end.

(** What holds of a breaker between two calls. *)
Definition well_formed self : Prop :=
  0 < failure_threshold self
  /\ 0 <= failure_count self
  /\ state self <> HALF_OPEN
  /\ (state self = OPEN ->
      failure_threshold self <= failure_count self
      /\ is_Some (last_failure_time self))
  /\ (state self = CLOSED -> failure_count self < failure_threshold self).

End Calls.

(** A world that counts the runs of the operation and carries the
    clock, and a fetch that takes a second and fails. *)
Definition failing_fetch (w : nat * Q) : (nat * Q) * outcome unit :=
  ((S w.1, (w.2 + 1)%Q), Raise (Failure "timeout")).

End BreakerSpec.

(** ** The checkpoint of the organization scan *)

Module CheckpointSpec.

Import Py RepoData Progress Scanner.

Section Run.

Context {W : Type}
  (time : W -> Q)
  (utcnow : W -> Z)
  (dump_ok : W -> bool)
  (fnmatch : string -> string -> bool)
  (check_and_wait : W -> W * outcome unit)
  (detect_technologies : Repository -> W -> W * outcome Techs)
  (should_deep_scan : string -> bool)
  (deep_scan_repository : Repository -> W -> W * outcome (list string))
  (detect_domain : Repository -> Techs -> W -> W * outcome (option DomainInfo))
  (progress_callback : option (Z -> Z -> string -> W -> W * outcome unit)).

Local Abbreviation guarded_scan :=
  (guarded_scan time check_and_wait detect_technologies should_deep_scan
     deep_scan_repository).
Local Abbreviation scan_one :=
  (scan_one time utcnow dump_ok fnmatch check_and_wait detect_technologies
     should_deep_scan deep_scan_repository detect_domain progress_callback).

Implicit Types (run : Run (W := W)) (repo : Repository)
  (tracker : ProgressTracker).

(** The identifiers of the checkpoint: in the tracker, and in the file
    it last wrote. *)
Definition in_memory tracker : list string := scanned_repos (data tracker).

Definition on_disk tracker : list string :=
  match checkpoint_file tracker with
  | Some d => scanned_repos d
  | None => []
  end.

Definition scanned run : list string :=
  match progress_tracker (self run) with
  | Some tracker => in_memory tracker
  | None => []
  end.

Definition persisted run : list string :=
  match progress_tracker (self run) with
  | Some tracker => on_disk tracker
  | None => []
  end.

(** The run in which the loop body enters its [try] statement for
    [repo], when it does. *)
Definition attempt (total : Z) run (idx : Z) repo : option Run :=
  if skipped fnmatch run repo then None
  else
    match progress_callback with
    | None => Some run
    | Some callback =>
        match callback (idx + 1) total (repo_name repo) (world run) with
        | (w, Return _) => Some (with_world run w)
        | _ => None
        end
    end.

(** The guarded scan of [repo] is made in this turn and returns. *)
Definition completes (total : Z) run (idx : Z) repo : Prop :=
  exists run0 techs,
    attempt total run idx repo = Some run0
    /\ (guarded_scan run0 repo).2 = Return techs.

(** The repositories whose guarded scan returned during the loop. *)
Inductive completed_in (total : Z) : Run -> Z -> list Repository -> string -> Prop :=
  | completed_here run idx repo rest :
      completes total run idx repo ->
      completed_in total run idx (repo :: rest) (repo_full_name repo)
  | completed_later run idx repo rest run' name :
      scan_one total run idx repo = (run', None) ->
      completed_in total run' (idx + 1) rest name ->
      completed_in total run idx (repo :: rest) name.

End Run.

(** A run over two repositories in a world that is its clock: the scan
    of [org/a] finds a language, the scan of [org/b] fails. *)
Definition repo_a : Repository :=
  {| repo_name := "a"; repo_full_name := "org/a"; html_url := "";
     stargazers_count := 3; archived := false; fork := false; private := false;
     created_at := 0; pushed_at := None |}.

Definition repo_b : Repository :=
  {| repo_name := "b"; repo_full_name := "org/b"; html_url := "";
     stargazers_count := 1; archived := false; fork := false; private := false;
     created_at := 0; pushed_at := None |}.

Definition fresh_scanner : GitHubScanner :=
  {| config :=
       {| include_archived := false; include_forks := false;
          include_private := true; min_stars := 0; exclude_repos := [] |};
     progress_tracker :=
       Some {| enabled := true;
               data := {| scanned_repos := []; start_time := None;
                          last_update := None; end_time := None |};
               checkpoint_file := None |};
     circuit_breaker := RateLimiter.__init__ 5 60;
     domain_detector := false; deep_scanner := false; repo_limit := None;
     checkpoint_save_interval := 1;
     stats := {| repos_scanned := 0; repos_skipped := 0; api_calls := 0;
                 errors := 0 |} |}.

Definition fresh_run : Run (W := Q) :=
  {| self := fresh_scanner; all_repo_techs := []; repo_details := [];
     world := 0%Q |}.

Definition detect_a_only (repo : Repository) (w : Q) : Q * outcome Techs :=
  if decide (repo_full_name repo = "org/a"%string)
  then ((w + 1)%Q, Return [("languages"%string, {["Python"%string]})])
  else ((w + 1)%Q, Raise (Failure "502")).

Definition two_repo_scan : Run (W := Q) * ending :=
  scan_loop (fun w => w) (fun _ => 0) (fun _ => true) (fun _ _ => false)
    (fun w => (w, Return tt)) detect_a_only (fun _ => false)
    (fun _ w => (w, Return [])) (fun _ _ w => (w, Return None)) None
    2 fresh_run 0 [repo_a; repo_b].

End CheckpointSpec.

(** ** The strategic filter and the merging of duplicates *)

Module FilterSpec.

Import Py AIFilter Main.

(** The configuration that [__init__] builds from an empty
    [filtering] section. *)
Definition default_filter : AITechnologyFilter :=
  {| enabled := true; ignore_single_repo := true; ignore_os_utilities := true;
     ignore_dev_conveniences := true;
     strategic_include := ["high"; "medium"]%string;
     duplicate_detection := true; consolidation := true; deprecation := true;
     always_include_min_repos := 5; always_include_names := ∅;
     stats := {| evaluated := 0; kept := 0; removed := 0; merged := 0;
                 consolidated := 0; ai_calls := 0 |} |}.

Definition technology (name : string) (repos_count total_repos : Z) : Tech :=
  {| name := name; quadrant := 1; ring := 2;
     metadata :=
       {| repos_count := repos_count;
          usage_percentage :=
            Float.round (Float.div repos_count total_repos * 100)%Q 1;
          total_repos := total_repos |};
     filtering_metadata := None; sub_features := None; deprecated := None;
     replacement := None; deprecation_note := None |}.

(** The name list of the claim: the OS utilities and the developer
    conveniences. *)
Definition matches_utility_list (tech : Tech) : Prop :=
  exists util, util ∈ os_utils ++ dev_utils
               /\ Str.contains util (Str.lower (name tech)) = true.

(** The decision taken without the oracle. *)
Definition auto_ignored : Decision :=
  {| should_include := false; strategic_value := Some "low"%string;
     reason := Some "Auto-ignored (utility/single-repo)"%string;
     decision_confidence := Some "high"%string |}.

(** The decision when the oracle fails. *)
Definition kept_by_default : Decision :=
  {| should_include := true; strategic_value := Some "unknown"%string;
     reason := Some "AI evaluation failed, kept by default"%string;
     decision_confidence := Some "low"%string |}.

(** The technology is removed by the rules alone: whatever the oracle
    and the world, the decision is the automatic one and the world is
    left as it was. *)
Definition removed_without_oracle (self : AITechnologyFilter) (tech : Tech) : Prop :=
  forall (W : Type) (strategic_oracle : Tech -> W -> W * (exn + option StrategicAnswer))
         (w : W),
    evaluate_one strategic_oracle self tech w =
      (set_stats self (add_removed (add_evaluated (stats self))), w, auto_ignored).

(** The oracle is asked once about the technology, and its answer
    decides: the verdict against the allow-set, or keeping by default
    when the call or the parsing fails. *)
Definition oracle_consulted (self : AITechnologyFilter) (tech : Tech) : Prop :=
  forall (W : Type) (strategic_oracle : Tech -> W -> W * (exn + option StrategicAnswer))
         (w : W),
    let result := evaluate_one strategic_oracle self tech w in
    result.1.2 = (strategic_oracle tech w).1
    /\ match (strategic_oracle tech w).2 with
       | inr (Some answer) =>
           should_include result.2 =
             Str.mem (default "medium"%string (answer_strategic_value answer))
               (strategic_include self)
       | _ => result.2 = kept_by_default
       end.

Definition graphql_once : Tech := technology "GraphQL" 1 40.
Definition curl_thrice : Tech := technology "curl" 3 40.

(** The three rules of [_should_auto_ignore]. *)
Definition ignore_rule (self : AITechnologyFilter) (tech : Tech) : Prop :=
  (ignore_single_repo self = true /\ repos_count (metadata tech) = 1)
  \/ (ignore_os_utilities self = true
      /\ exists util, util ∈ os_utils
                      /\ Str.contains util (Str.lower (name tech)) = true)
  \/ (ignore_dev_conveniences self = true
      /\ exists util, util ∈ dev_utils
                      /\ Str.contains util (Str.lower (name tech)) = true).

(** Names of which no two different ones are similar. *)
Definition dissimilar (names : list string) : Prop :=
  forall a b, a ∈ names -> b ∈ names -> a <> b -> similar_names a b = false.

(** The unprocessed names that join the group of [name]. *)
Definition joining (tech_names : list string) (processed : gset string)
    (name : string) : list string :=
  List.filter
    (fun other =>
       negb (bool_decide (other = name) || bool_decide (other ∈ processed))
       && similar_names name other)
    tech_names.

(** The members of the groups, and those behind the first of their
    group. *)
Definition members (groups : list (list string)) : gset string :=
  ⋃ (map list_to_set groups).

Definition followers (groups : list (list string)) : gset string :=
  ⋃ (map (fun group => list_to_set (tail group)) groups).

(** What the loop of [_group_similar_names] keeps between two names:
    the processed names are the members of the groups, every group
    starts with a name already visited, and a visited name that follows
    no other is similar to no name that follows no other. *)
Definition grouping_inv (tech_names visited : list string)
    (groups : list (list string)) (processed : gset string) : Prop :=
  processed = members groups
  /\ (forall a, a ∈ members groups ->
        a ∈ followers groups \/ a ∈ visited)
  /\ (forall a b, a ∈ visited -> a ∉ followers groups ->
        b ∈ tech_names -> b ∉ followers groups -> a <> b ->
        similar_names a b = false).

(** Every entry of the table is filed under its name and records a
    total of repositories that is not zero. *)
Definition keyed (table : gmap string Tech) : Prop :=
  forall key tech, table !! key = Some tech -> name tech = key.

Definition counted (table : gmap string Tech) : Prop :=
  forall key tech, table !! key = Some tech -> total_repos (metadata tech) <> 0.

(** The candidates of merge groups. *)
Definition candidates_of (groups : list MergeGroup) : gset string :=
  ⋃ (map (fun group => list_to_set (merge_candidates group)) groups).

(** The duplicate oracle that takes every group submitted for one
    technology, named by the first member of the group. *)
Definition merges_onto_first {W : Type}
    (duplicate_oracle : list string -> W -> W * (exn + option MergeGroup)) : Prop :=
  forall (group : list string) (w : W),
    exists answer,
      (duplicate_oracle group w).2 = inr (Some answer)
      /\ are_duplicates answer = Some true
      /\ canonical_name answer = hd EmptyString group
      /\ merge_candidates answer = tail group.

(** Three technologies out of twenty repositories, and three oracles
    that answer by the question alone: every technology is of high
    value, every group is one technology named by its last member, no
    hierarchy is consolidated. *)
Definition registry : list Tech :=
  [technology "ECR" 6 20; technology "AWS ECR" 7 20; technology "AWS" 8 20].

Definition values_all (tech : Tech) (w : unit)
    : unit * (exn + option StrategicAnswer) :=
  (w, inr (Some {| answer_strategic_value := Some "high"%string;
                   answer_reason := None; answer_confidence := None |})).

Definition merges_onto_last (group : list string) (w : unit)
    : unit * (exn + option MergeGroup) :=
  (w, inr (Some {| are_duplicates := Some true;
                   canonical_name := List.last group EmptyString;
                   merge_candidates := removelast group;
                   merge_reason := None |})).

Definition merges_onto_head (group : list string) (w : unit)
    : unit * (exn + option MergeGroup) :=
  (w, inr (Some {| are_duplicates := Some true;
                   canonical_name := hd EmptyString group;
                   merge_candidates := tail group;
                   merge_reason := None |})).

Definition keeps_separate (parent : string) (children : list string) (w : unit)
    : unit * (exn + option HierarchyAnswer) :=
  (w, inr (Some {| should_consolidate := Some false; hierarchy_reason := None |})).

Definition curated_by (duplicate_oracle : list string -> unit -> unit * (exn + option MergeGroup))
    (technologies : list Tech) : list Tech :=
  match (curate values_all duplicate_oracle keeps_separate default_filter
           technologies tt).2 with
  | inr curated => curated
  | inl _ => []
  end.

Definition summary (technologies : list Tech) : list (string * Z) :=
  map (fun tech => (name tech, repos_count (metadata tech))) technologies.

Definition merges (decisions : Decisions) : list (string * list string) :=
  map (fun group => (canonical_name group, merge_candidates group))
    (merge_groups decisions).

End FilterSpec.

(** ** The classification of the technologies *)

Module DecisionSpec.

Import RepoData TemporalAnalyzer Classifier Decision.

(** The four rings with the base confidence of each. *)
Definition ring_table : list (Z * Q) :=
  [(0, 0.9%Q); (1, 0.8%Q); (2, 0.6%Q); (3, 0.85%Q)].

(** The repositories of a domain that use a technology. *)
Definition repos_in_domain (tech_name d : string)
    (repo_details : list RepoDetail) : Z :=
  count_if (fun repo => uses tech_name repo && bool_decide (domain_of repo = d))
    repo_details.

(** The threshold that applies to a domain. *)
Definition threshold (default_min_repos : Z) (by_domain : gmap string Z)
    (d : string) : Z :=
  default default_min_repos (by_domain !! d).

(** [counts.get(d, 0)] *)
Fixpoint get (counts : list (string * Z)) (d : string) : Z :=
  match counts with
  | [] => 0
  | (d', n) :: rest => if decide (d' = d) then n else get rest d
  end.

(** The entries of the counts that [classify_technologies] goes on to
    classify. *)
Definition eligible (fnmatch : string -> string -> bool) (config : Config)
    (repo_details : list RepoDetail) (entry : string * Z) : bool :=
  _meets_domain_threshold entry.1 entry.2 repo_details (min_repos config)
    (min_repos_by_domain config)
  && negb (_should_exclude fnmatch (exclude_patterns config) entry.1).

(** A reply whose confidence, when it has one, is a string. *)
Definition string_confidence (reply : AIResult) : Prop :=
  match ai_confidence reply with
  | Some (JStr _) | None => True
  | Some _ => False
  end.

Definition high (c : Classification) : bool := Float.geb (confidence c) 0.75.

(** The name and the count that a classification was made from. *)
Definition key (c : Classification) : string * Z :=
  (name c, repos_count (metadata c)).

(** A repository of a domain that uses one framework. *)
Definition repo_of (repo_name d framework : string) (active : bool) : RepoDetail :=
  {| RepoData.name := repo_name; full_name := repo_name; url := "";
     stars := 0;
     technologies := [("frameworks"%string, {[ framework ]})];
     temporal_metadata :=
       {| age_months := 30; days_since_push := 10; is_active := active;
          is_recent := false; is_new := false; is_legacy := true |};
     domain_info := Some {| domain := d; RepoData.confidence := 0.9 |} |}.

Definition three_repos : list RepoDetail :=
  [repo_of "api" "backend" "Django" true;
   repo_of "app" "mobile" "Flutter" true;
   repo_of "infra" "infrastructure" "Terraform" true].

Definition radar_config : Config :=
  {| model := "gpt-4o-mini"; min_repos := 2;
     min_repos_by_domain := {[ "infrastructure"%string := 1 ]};
     exclude_patterns := [] |}.

(** A model that cannot be reached. *)
Definition no_model (tech_name : string) (usage_percentage : Q)
    (temporal_data : TemporalData) (ring : Z) (w : unit)
    : unit * option AIResult :=
  (w, None).

Definition no_match (s pattern : string) : bool := false.

(** Four repositories of a domain, two of them active. *)
Definition small_domain : DomainMetrics :=
  {| dom_total_repos := 4; dom_recent_repos := 0; dom_new_repos := 0;
     dom_active_repos := 2; dom_recency_score := 0; dom_activity_score := 0.5;
     dom_trend := STABLE |}.

(** What [classify_technologies] does with a classification: to the end
    of the first list when the confidence reaches 0.75, else to the end
    of the second. *)
Definition push (lists : list Classification * list Classification)
    (c : Classification) : list Classification * list Classification :=
  if high c then (lists.1 ++ [c], lists.2) else (lists.1, lists.2 ++ [c]).

(** The values of [_convert_ai_confidence]. *)
Definition ai_confidence_values : list Q := [0.9%Q; 0.6%Q; 0.3%Q; 0.5%Q].

(** A model whose replies have a confidence that is a string, when they
    have one. *)
Definition replies_typed {W : Type}
    (ai_oracle : string -> Q -> TemporalData -> Z -> W -> W * option AIResult)
    : Prop :=
  forall tech_name usage_percentage temporal_data ring w reply,
    (ai_oracle tech_name usage_percentage temporal_data ring w).2 = Some reply ->
    string_confidence reply.

(** Counts that never grow along the list. *)
Fixpoint descending (counts : list Z) : Prop :=
  match counts with
  | [] => True
  | n :: rest => Forall (fun m => m <= n) rest /\ descending rest
  end.

(** The counts of the three repositories. *)
Definition three_counts : list (string * Z) :=
  [("Django"%string, 1); ("Flutter"%string, 1); ("Terraform"%string, 1)].

(** What holds of a classification that [_classify_single_enhanced]
    returns. *)
Definition well_scored (c : Classification) : Prop :=
  (0.3 <= confidence c /\ confidence c <= 0.94)%Q
  /\ is_Some (RINGS (ring c))
  /\ (high c = false ->
      needs_review c = true
      /\ review_reason c = Some "Low confidence classification"%string)
  /\ (needs_review c = false -> review_reason c = None).

End DecisionSpec.

(** ** The rate limiter *)

Module LimiterSpec.

Import Py Limiter.

(** The recorded requests that are less than a minute old at [now]. *)
Definition recent (now : Q) (times : list Q) : list Q :=
  List.filter (fun t => Float.ltb (now - t) 60) times.

Section Clock.

Context {W : Type} (time : W -> Q) (sleep : Q -> W -> W)
  (get_rate_limit : W -> W * outcome Core).

(** A sleep lasts at least as long as it was asked to. *)
Definition sleep_lasts : Prop :=
  forall (d : Q) (w : W), (time w + d <= time (sleep d w))%Q.

(** The query of the quota does not turn the clock back. *)
Definition query_takes_time : Prop :=
  forall w : W, (time w <= time (get_rate_limit w).1)%Q.

(** What the limiter keeps between two calls: it holds at most one
    recorded request more than the limit, and when it holds that many
    the oldest of them is a minute old. *)
Definition bounded (self : RateLimiter) (w : W) : Prop :=
  Z.of_nat (length (request_times self)) <= max_per_minute self + 1
  /\ (Z.of_nat (length (request_times self)) = max_per_minute self + 1 ->
      exists oldest,
        head (request_times self) = Some oldest
        /\ (oldest + 60 <= time w)%Q).

End Clock.

(** A world that is its clock, with the local time at zero; a quota
    that is far from used up, and a query that fails. *)
Definition clock (w : Q) : Q := w.
Definition midnight (w : Q) : Z := 0.
Definition wait (d : Q) (w : Q) : Q := (w + d)%Q.
Definition ample : Core := {| remaining := 4000; limit := 5000; reset := 0 |}.
Definition quota (w : Q) : Q * outcome Core := (w, Return ample).
Definition no_quota (w : Q) : Q * outcome Core :=
  (w, Raise (Failure "connection")).

(** A limiter of two requests per minute that has recorded two. *)
Definition busy : RateLimiter :=
  set_request_times (__init__ 2 100) [0%Q; 1%Q].

(** A limiter that caches the quota it got at time zero. *)
Definition cached : RateLimiter :=
  set_rate_limit_cache (__init__ 25 100) (Some ample).

End LimiterSpec.

(** ** The counts of the detector and of the temporal analyzer *)

Module CountSpec.

Import RepoData TemporalAnalyzer Detector.

(** The repository lists the technology in one of its categories. *)
Definition mentions (tech : string) (repo_techs : Techs) : bool :=
  bool_decide (tech ∈ all_techs repo_techs).

(** The repository was put into the domain by the detector. *)
Definition in_domain (d : string) (repo : RepoDetail) : bool :=
  match domain_info repo with
  | Some info => bool_decide (domain info = d)
  | None => false
  end.

(** The repositories of a domain that a group holds, none when the
    domain has no group. *)
Fixpoint group_of (groups : list (string * list RepoDetail)) (d : string)
    : list RepoDetail :=
  match groups with
  | [] => []
  | (d', repos) :: rest => if decide (d' = d) then repos else group_of rest d
  end.

End CountSpec.

(** ** The scan of the organizations *)

Module ScanSpec.

Import Py RepoData Progress Scanner Resume.

Section Run.

Context {W : Type}.

Implicit Types (run : Run (W := W)).

(** The repositories that the counters of the scanner account for. *)
Definition accounted run : Z :=
  repos_scanned (stats (self run)) + repos_skipped (stats (self run))
  + errors (stats (self run)).

(** The two result lists go together: the technologies of the one are
    those of the details of the other. *)
Definition aligned run : Prop :=
  all_repo_techs run = technologies <$> repo_details run.

(** The checkpoint cannot raise: there is no tracker, or the interval
    of the saves is not zero. *)
Definition checkpoint_safe run : Prop :=
  progress_tracker (self run) = None
  \/ checkpoint_save_interval (self run) <> 0.

(** What a part of the scan keeps: the interval and the presence of
    the tracker, and a detail is added only for a repository that is
    counted as scanned. *)
Definition advances run run' : Prop :=
  checkpoint_save_interval (self run') = checkpoint_save_interval (self run)
  /\ (progress_tracker (self run') = None <-> progress_tracker (self run) = None)
  /\ repos_scanned (stats (self run)) <= repos_scanned (stats (self run'))
  /\ Z.of_nat (length (repo_details run')) - Z.of_nat (length (repo_details run))
     <= repos_scanned (stats (self run')) - repos_scanned (stats (self run)).

(** The names in the checkpoint of the run. *)
Definition checkpointed run : list string :=
  match progress_tracker (self run) with
  | Some tracker => scanned_repos (data tracker)
  | None => []
  end.

End Run.

(** What a checkpoint holds unsaved: the file is a prefix of the list
    in memory, short of it by less than the distance to the last
    multiple of the interval. *)
Definition lag_bounded (save_interval : Z) (tracker : ProgressTracker) : Prop :=
  let in_memory := scanned_repos (data tracker) in
  let on_disk := CheckpointSpec.on_disk tracker in
  on_disk `prefix_of` in_memory
  /\ Z.of_nat (length in_memory) - Z.of_nat (length on_disk)
     <= Z.of_nat (length in_memory) mod save_interval.

(** [n] more repositories skipped. *)
Definition skip_many (n : Z) (s : Stats) : Stats :=
  {| repos_scanned := repos_scanned s; repos_skipped := repos_skipped s + n;
     api_calls := api_calls s; errors := errors s |}.

(** A checkpoint left by a run that scanned two repositories. *)
Definition two_scanned : Data :=
  {| scanned_repos := ["org/a"; "org/b"]%string; start_time := Some 1%Q;
     last_update := Some 2%Q; end_time := None |}.

(** A world that is its clock. *)
Definition tick (w : Q) : Q := w.
Definition writable (w : Q) : bool := true.

(** A scanner that resumes from the checkpoint of two repositories, and
    an organization that lists the two. *)
Definition resumed_scanner : GitHubScanner :=
  set_progress_tracker CheckpointSpec.fresh_scanner
    (Some (__init__ (Stored two_scanned) true true)).

Definition resumed_run : Run (W := Q) :=
  {| self := resumed_scanner; all_repo_techs := []; repo_details := [];
     world := 0%Q |}.

Definition lists_two (org_name : string) (w : Q)
    : Q * outcome (list Repository) :=
  (w, Return [CheckpointSpec.repo_a; CheckpointSpec.repo_b]).

(** The scan of one organization of two repositories, the scan of the
    second of which fails. *)
Definition one_org_scan
    : Run (W := Q) * outcome (gmap string Z * list RepoDetail) :=
  Organizations.scan_organizations (fun w => w) (fun _ => 0) (fun _ => true)
    (fun _ _ => false) (fun w => (w, Return tt)) CheckpointSpec.detect_a_only
    (fun _ => false) (fun _ w => (w, Return [])) (fun _ _ w => (w, Return None))
    lists_two None CheckpointSpec.fresh_scanner ["org"%string] 0%Q.

End ScanSpec.

(** ** The decisions of the filter and their application *)

Module CurationSpec.

Import Py AIFilter Main FilterSpec.

(** The children of the consolidations. *)
Definition children_of (found : list Consolidation) : gset string :=
  ⋃ (map (fun c => list_to_set (children c)) found).

(** The names that the decisions take out: those decided against, the
    candidates of the merge groups and the children of the
    consolidations. *)
Definition removed_names (decisions : Decisions) : gset string :=
  strategic_removals (strategic_decisions decisions)
  ∪ candidates_of (merge_groups decisions)
  ∪ children_of (consolidations decisions).

Definition stays (decisions : Decisions) (name : string) : bool :=
  negb (bool_decide (name ∈ removed_names decisions)).

(** The decisions of a filter that is disabled. *)
Definition no_decisions : Decisions :=
  {| strategic_decisions := ∅; merge_groups := []; consolidations := [];
     deprecated_list := [] |}.

(** The filter keeps its configuration. *)
Definition same_configuration (self self' : AITechnologyFilter) : Prop :=
  set_stats self' (stats self) = self.

(** The decision for a technology on the allow-list, and the one for a
    technology at or above the minimum. *)
Definition allow_listed : Decision :=
  {| should_include := true; strategic_value := Some "high"%string;
     reason := Some "Explicitly configured to always include"%string;
     decision_confidence := Some "high"%string |}.

Definition above_threshold : Decision :=
  {| should_include := true; strategic_value := Some "medium"%string;
     reason := Some "Used in repos (above threshold)"%string;
     decision_confidence := Some "high"%string |}.

(** curl in nine repositories out of forty. *)
Definition curl_everywhere : Tech := technology "curl" 9 40.

(** A model that cannot be reached. *)
Definition unreachable (tech : Tech) (w : unit)
    : unit * (exn + option StrategicAnswer) :=
  (w, inl (Failure "connection")).

(** The default configuration with the filter switched off. *)
Definition set_enabled_off (self : AITechnologyFilter) : AITechnologyFilter :=
  {| enabled := false; ignore_single_repo := ignore_single_repo self;
     ignore_os_utilities := ignore_os_utilities self;
     ignore_dev_conveniences := ignore_dev_conveniences self;
     strategic_include := strategic_include self;
     duplicate_detection := duplicate_detection self;
     consolidation := consolidation self; deprecation := deprecation self;
     always_include_min_repos := always_include_min_repos self;
     always_include_names := always_include_names self; stats := stats self |}.

End CurationSpec.

(** * Properties *)

(** ** The comparisons decide the order of the rationals *)

Module FloatFacts.

Lemma gtb_reflect (x y : Q) : reflect (y < x)%Q (Float.gtb x y).
Proof.
  unfold Float.gtb. destruct (Qle_bool x y) eqn:E; constructor.
  - apply Qle_bool_iff in E. lra.
  - apply Qnot_le_lt. intros H. apply Qle_bool_iff in H. congruence.
Qed.

Lemma ltb_reflect (x y : Q) : reflect (x < y)%Q (Float.ltb x y).
Proof. apply (gtb_reflect y x). Qed.

Lemma geb_reflect (x y : Q) : reflect (y <= x)%Q (Float.geb x y).
Proof.
  unfold Float.geb. destruct (Qle_bool y x) eqn:E; constructor.
  - by apply Qle_bool_iff.
  - intros H. apply Qle_bool_iff in H. congruence.
Qed.

Lemma leb_reflect (x y : Q) : reflect (x <= y)%Q (Float.leb x y).
Proof. apply (geb_reflect y x). Qed.

Lemma eqb_reflect (x y : Q) : reflect (x == y)%Q (Float.eqb x y).
Proof.
  unfold Float.eqb. destruct (Qeq_bool x y) eqn:E; constructor.
  - by apply Qeq_bool_iff.
  - intros H. apply Qeq_bool_iff in H. congruence.
Qed.

(** A quotient of counts against a bound, without the division. *)
Lemma inject_pos (b : Z) : 0 < b -> (0 < inject_Z b)%Q.
Proof. intros Hb. change 0%Q with (inject_Z 0). by rewrite <- Zlt_Qlt. Qed.

Lemma div_mul (a b : Z) : 0 < b -> (Float.div a b * inject_Z b == inject_Z a)%Q.
Proof.
  intros Hb. apply inject_pos in Hb. unfold Float.div. field. lra.
Qed.

Lemma div_gt (a b : Z) (c : Q) :
  0 < b -> (c < Float.div a b <-> c * inject_Z b < inject_Z a)%Q.
Proof.
  intros Hb. rewrite <- (div_mul a b Hb).
  symmetry. apply Qmult_lt_r. by apply inject_pos.
Qed.

Lemma div_lt (a b : Z) (c : Q) :
  0 < b -> (Float.div a b < c <-> inject_Z a < c * inject_Z b)%Q.
Proof.
  intros Hb. rewrite <- (div_mul a b Hb).
  symmetry. apply Qmult_lt_r. by apply inject_pos.
Qed.

Lemma div_zero (a b : Z) : 0 < b -> (Float.div a b == 0)%Q <-> a = 0.
Proof.
  intros Hb. split.
  - intros H. pose proof (div_mul a b Hb) as E. rewrite H in E.
    assert (inject_Z a == inject_Z 0)%Q as E'.
    { rewrite <- E. change (inject_Z 0) with 0%Q. ring. }
    exact (proj1 (inject_Z_injective a 0) E').
  - intros ->. unfold Float.div. apply inject_pos in Hb. field. lra.
Qed.

End FloatFacts.

(** ** Trend and recency of the temporal analyzer *)

Module TrendProps.

Import RepoData TemporalAnalyzer FloatFacts.

(** A quotient of counts against a decimal bound, on the counts. *)
Lemma gtb_div (a total c d : Z) :
  0 < total -> 0 < d ->
  Float.gtb (Float.div a total) (inject_Z c / inject_Z d) =
    bool_decide (c * total < d * a).
Proof.
  intros Ht Hd. pose proof (inject_pos _ Ht). pose proof (inject_pos d Hd) as Hdq.
  assert ((inject_Z c / inject_Z d < Float.div a total)%Q <-> c * total < d * a)
    as E.
  { rewrite (div_gt a total _ Ht).
    rewrite <- (Qmult_lt_r _ _ (inject_Z d) Hdq).
    setoid_replace (inject_Z c / inject_Z d * inject_Z total * inject_Z d)%Q
      with (inject_Z (c * total)) using relation Qeq
      by (rewrite inject_Z_mult; field; lra).
    rewrite <- inject_Z_mult, <- Zlt_Qlt. lia. }
  destruct (gtb_reflect (Float.div a total) (inject_Z c / inject_Z d));
    case_bool_decide; tauto.
Qed.

Lemma ltb_div (a total c d : Z) :
  0 < total -> 0 < d ->
  Float.ltb (Float.div a total) (inject_Z c / inject_Z d) =
    bool_decide (d * a < c * total).
Proof.
  intros Ht Hd. pose proof (inject_pos _ Ht). pose proof (inject_pos d Hd) as Hdq.
  assert ((Float.div a total < inject_Z c / inject_Z d)%Q <-> d * a < c * total)
    as E.
  { rewrite (div_lt a total _ Ht).
    rewrite <- (Qmult_lt_r _ _ (inject_Z d) Hdq).
    setoid_replace (inject_Z c / inject_Z d * inject_Z total * inject_Z d)%Q
      with (inject_Z (c * total)) using relation Qeq
      by (rewrite inject_Z_mult; field; lra).
    rewrite <- inject_Z_mult, <- Zlt_Qlt. lia. }
  destruct (ltb_reflect (Float.div a total) (inject_Z c / inject_Z d));
    case_bool_decide; tauto.
Qed.

Lemma eqb_div_zero (a total : Z) :
  0 < total -> Float.eqb (Float.div a total) 0 = bool_decide (a = 0).
Proof.
  intros Ht. pose proof (div_zero a total Ht).
  destruct (eqb_reflect (Float.div a total) 0); case_bool_decide; tauto.
Qed.

(** The three tests of [_determine_trend] on the counts themselves. *)
Lemma determine_trend_counts (recent new legacy active total : Z) :
  0 < total ->
  _determine_trend recent new legacy active total =
    if bool_decide (total < 2 * recent
                    \/ (6 * total < 10 * new /\ 7 * total < 10 * active))
    then GROWING
    else if bool_decide (7 * total < 10 * legacy /\ 10 * active < 3 * total)
    then ABANDONED
    else if bool_decide (recent = 0 /\ 10 * new < 3 * total
                         /\ 2 * active < total)
    then DECLINING
    else STABLE.
Proof.
  intros Ht. unfold _determine_trend.
  destruct (Z.eqb_spec total 0) as [->|_]; [lia|].
  change 0.5%Q with (inject_Z 5 / inject_Z 10)%Q.
  change 0.6%Q with (inject_Z 6 / inject_Z 10)%Q.
  change 0.7%Q with (inject_Z 7 / inject_Z 10)%Q.
  change 0.3%Q with (inject_Z 3 / inject_Z 10)%Q.
  rewrite !gtb_div, !ltb_div, eqb_div_zero by lia.
  repeat case_bool_decide; simpl; try reflexivity; exfalso; lia.
Qed.

(** C1.  Trend classification is a function of the five counts, with
    the tests taken in order and the first that holds deciding: without
    repositories the trend is NONE; with [total > 0] it is GROWING when
    [recent/total > 0.5] or ([new/total > 0.6] and [active/total > 0.7]),
    else ABANDONED when [legacy/total > 0.7] and [active/total < 0.3],
    else DECLINING when [recent/total == 0], [new/total < 0.3] and
    [active/total < 0.5], else STABLE; the vectors (6,6,0,6,10),
    (0,0,9,1,10) and (0,2,3,3,10) give GROWING, ABANDONED and
    DECLINING. *)
Theorem determine_trend_precedence (recent new legacy active total : Z) :
  let recent_ratio := Float.div recent total in
  let new_ratio := Float.div new total in
  let legacy_ratio := Float.div legacy total in
  let activity_ratio := Float.div active total in
  let growing :=
    (0.5 < recent_ratio \/ (0.6 < new_ratio /\ 0.7 < activity_ratio))%Q in
  let abandoned := (0.7 < legacy_ratio /\ activity_ratio < 0.3)%Q in
  let declining :=
    (recent_ratio == 0 /\ new_ratio < 0.3 /\ activity_ratio < 0.5)%Q in
  let result := _determine_trend recent new legacy active total in
  (total = 0 -> result = NONE) /\
  (0 < total ->
     (growing -> result = GROWING) /\
     (~ growing -> abandoned -> result = ABANDONED) /\
     (~ growing -> ~ abandoned -> declining -> result = DECLINING) /\
     (~ growing -> ~ abandoned -> ~ declining -> result = STABLE)) /\
  _determine_trend 6 6 0 6 10 = GROWING /\
  _determine_trend 0 0 9 1 10 = ABANDONED /\
  _determine_trend 0 2 3 3 10 = DECLINING /\
  _determine_trend 3 3 3 5 10 = STABLE.
Proof.
  cbv zeta. split; [intros ->; reflexivity|].
  split; [|repeat split; reflexivity].
  intros Ht. unfold _determine_trend.
  destruct (Z.eqb_spec total 0) as [->|_]; [lia|].
  destruct (gtb_reflect (Float.div recent total) 0.5),
    (gtb_reflect (Float.div new total) 0.6),
    (gtb_reflect (Float.div active total) 0.7),
    (gtb_reflect (Float.div legacy total) 0.7),
    (ltb_reflect (Float.div active total) 0.3),
    (eqb_reflect (Float.div recent total) 0),
    (ltb_reflect (Float.div new total) 0.3),
    (ltb_reflect (Float.div active total) 0.5);
    simpl; repeat split; intros; try reflexivity; exfalso; tauto.
Qed.

Lemma determine_trend_precedence_witness :
  0 < 10 /\ _determine_trend 6 6 0 6 10 = GROWING.
Proof.
  split; [lia|].
  pose proof (determine_trend_precedence 6 6 0 6 10) as H. cbv zeta in H.
  destruct H as (_ & H & _). destruct (H ltac:(lia)) as (Hg & _).
  apply Hg. left. reflexivity.
Defined.

(** The age classes are nested: a repository that is recent is new. *)
Lemma recent_is_new (now : Z) (repo : Scanner.Repository) :
  is_recent (Scanner._get_temporal_metadata now repo) = true ->
  is_new (Scanner._get_temporal_metadata now repo) = true.
Proof.
  unfold Scanner._get_temporal_metadata. simpl.
  set (age := (inject_Z _ / 30.0)%Q).
  destruct (leb_reflect age 6), (leb_reflect age 12); try done. lra.
Qed.

Lemma count_if_bounds {A : Type} (flag : A -> bool) (l : list A) :
  0 <= count_if flag l <= Z.of_nat (length l).
Proof. induction l as [|x l IH]; simpl; [lia|]. destruct (flag x); lia. Qed.

Lemma count_if_mono {A : Type} (f g : A -> bool) (l : list A) :
  (forall x, x ∈ l -> f x = true -> g x = true) ->
  count_if f l <= count_if g l.
Proof.
  induction l as [|x l IH]; simpl; intros H; [lia|].
  assert (count_if f l <= count_if g l) by (apply IH; intros; apply H; set_solver).
  pose proof (H x ltac:(set_solver)).
  destruct (f x), (g x); lia.
Qed.

(** C10.  The recency score is not bounded by 1.  The metadata built by
    the scanner makes every recent repository a new one, so the counts
    of a selection satisfy [0 <= recent <= new <= total]; for such
    counts with [total > 0] the score is [(recent + 0.5 * new) / total]
    and lies in [0, 1.5]; when every repository is recent it is exactly
    1.5, above 1. *)
Theorem recency_score_range :
  (forall repos : list RepoDetail,
      (forall r, r ∈ repos -> exists now repo,
            temporal_metadata r = Scanner._get_temporal_metadata now repo) ->
      0 <= count_if flag_recent repos
      /\ count_if flag_recent repos <= count_if flag_new repos
      /\ count_if flag_new repos <= Z.of_nat (length repos)) /\
  (forall recent new total : Z,
      0 <= recent -> recent <= new -> new <= total -> 0 < total ->
      let score := _calculate_recency_score recent new total in
      (score == (inject_Z recent + 0.5 * inject_Z new) / inject_Z total
       /\ 0 <= score /\ score <= 1.5)%Q) /\
  (forall total : Z,
      0 < total ->
      (_calculate_recency_score total total total == 1.5
       /\ 1 < _calculate_recency_score total total total)%Q).
Proof.
  assert (forall recent new total : Z,
             0 < total ->
             (_calculate_recency_score recent new total ==
              (inject_Z recent + 0.5 * inject_Z new) / inject_Z total)%Q) as Hscore.
  { intros recent new total Ht. unfold _calculate_recency_score.
    destruct (Z.eqb_spec total 0) as [->|_]; [lia|].
    apply inject_pos in Ht. field. lra. }
  split; [|split].
  - intros repos Hmeta. split; [apply count_if_bounds|].
    split; [|apply count_if_bounds].
    apply count_if_mono. intros r Hr. unfold flag_recent, flag_new.
    destruct (Hmeta r Hr) as (now & repo & ->). apply recent_is_new.
  - intros recent new total H0 H1 H2 Ht score. unfold score.
    rewrite (Hscore recent new total Ht).
    pose proof (inject_pos total Ht) as Hq.
    assert (0 <= inject_Z recent)%Q by (change 0%Q with (inject_Z 0); by rewrite <- Zle_Qle).
    assert (inject_Z recent <= inject_Z new)%Q by (by rewrite <- Zle_Qle).
    assert (inject_Z new <= inject_Z total)%Q by (by rewrite <- Zle_Qle).
    split; [reflexivity|]. split.
    + apply Qle_shift_div_l; [exact Hq|]. lra.
    + apply Qle_shift_div_r; [exact Hq|]. lra.
  - intros total Ht. rewrite (Hscore total total total Ht).
    pose proof (inject_pos total Ht) as Hq.
    assert ((inject_Z total + 0.5 * inject_Z total) / inject_Z total == 1.5)%Q
      as -> by (field; lra).
    split; [reflexivity|]. reflexivity.
Qed.

Lemma recency_score_range_witness :
  (0 <= 4 /\ 4 <= 4 /\ 4 <= 4 /\ 0 < 4)
  /\ (_calculate_recency_score 4 4 4 <= 1.5)%Q.
Proof.
  split; [lia|].
  destruct recency_score_range as (_ & H & _).
  destruct (H 4 4 4 ltac:(lia) ltac:(lia) ltac:(lia) ltac:(lia)) as (_ & _ & Hle).
  exact Hle.
Defined.

End TrendProps.

(** ** Ring decision, confidence and review of the classifier *)

Module RingProps.

Import TemporalAnalyzer Classifier FloatFacts RingSpec.

Lemma smart_ring_global (usage recency activity : Q) (trend : Trend)
    (temporal_data : TemporalData) :
  no_breakdown temporal_data ->
  _smart_ring_decision usage recency activity trend temporal_data =
    global_ring_decision usage recency activity trend.
Proof. unfold _smart_ring_decision. by intros [-> | ->]. Qed.

(** More usage never moves a technology to a later ring. *)
Lemma global_ring_monotone (u1 u2 recency activity : Q) (trend : Trend) :
  (u1 <= u2)%Q ->
  (global_ring_decision u2 recency activity trend).1
  <= (global_ring_decision u1 recency activity trend).1.
Proof.
  intros Hu. unfold global_ring_decision.
  destruct (geb_reflect u1 0.4), (geb_reflect u2 0.4),
    (geb_reflect u1 0.35), (geb_reflect u2 0.35),
    (geb_reflect u1 0.25), (geb_reflect u2 0.25),
    (ltb_reflect u1 0.1), (ltb_reflect u2 0.1);
    try (exfalso; lra);
    destruct (Float.geb activity 0.5), (Float.geb activity 0.6),
      (Float.geb activity 0.75), (Float.geb recency 0.2),
      (Float.ltb activity 0.3);
    repeat case_bool_decide; simpl; lia.
Qed.

(** C2, as stated, fails: with activity 0.9 and no breakdown a stable
    technology is not put on Hold at usage 0.05 and is not left at
    Assess at usage 0.3. *)
Lemma ring_usage_vectors_counterexample :
  ~ ((_smart_ring_decision 0.05 0.15 0.9 STABLE stable_profile).1 = 3
     /\ (_smart_ring_decision 0.3 0.15 0.9 STABLE stable_profile).1 = 2
     /\ (_smart_ring_decision 0.4 0.15 0.9 STABLE stable_profile).1 = 0).
Proof. vm_compute. intros (H & _). discriminate H. Qed.

(** C2, amended.  With the activity score at 0.9 and no per-domain
    breakdown the ring number never grows with the usage ratio; usage
    0.4 gives Adopt, usage 0.3 gives Trial, and usage 0.05 gives Trial
    for a growing trend with recency at least 0.2, else Hold for an
    abandoned trend, else Assess. *)
Theorem ring_monotone_in_usage (recency : Q) (trend : Trend)
    (temporal_data : TemporalData) :
  no_breakdown temporal_data ->
  let ring usage :=
    (_smart_ring_decision usage recency 0.9 trend temporal_data).1 in
  (forall u1 u2 : Q, (u1 <= u2)%Q -> ring u2 <= ring u1)
  /\ ring 0.4%Q = 0
  /\ ring 0.3%Q = 1
  /\ ((0.2 <= recency)%Q /\ trend = GROWING -> ring 0.05%Q = 1)
  /\ (~ ((0.2 <= recency)%Q /\ trend = GROWING) ->
      trend = ABANDONED -> ring 0.05%Q = 3)
  /\ (~ ((0.2 <= recency)%Q /\ trend = GROWING) ->
      trend <> ABANDONED -> ring 0.05%Q = 2).
Proof.
  intros Hnone ring. unfold ring.
  split; [|split; [|split]].
  - intros u1 u2 Hu. rewrite !smart_ring_global by done.
    by apply global_ring_monotone.
  - rewrite smart_ring_global by done. reflexivity.
  - rewrite smart_ring_global by done. unfold global_ring_decision.
    destruct (Float.geb recency 0.2), trend; reflexivity.
  - rewrite smart_ring_global by done. unfold global_ring_decision.
    change (Float.geb 0.05 0.4) with false. change (Float.geb 0.05 0.35) with false.
    change (Float.geb 0.05 0.25) with false. change (Float.geb 0.9 0.6) with true.
    change (Float.ltb 0.9 0.3) with false. change (Float.ltb 0.05 0.1) with true.
    simpl.
    destruct (geb_reflect recency 0.2); repeat case_bool_decide; simpl;
      repeat split; intros; try reflexivity; try tauto; try congruence.
Qed.

Lemma ring_monotone_in_usage_witness :
  no_breakdown stable_profile
  /\ (_smart_ring_decision 0.3 0.15 0.9 STABLE stable_profile).1 = 1.
Proof.
  assert (no_breakdown stable_profile) as H by (left; reflexivity).
  split; [exact H|].
  exact (proj1 (proj2 (proj2 (ring_monotone_in_usage 0.15 STABLE stable_profile H)))).
Defined.

(** What the loop over the breakdown does decide: entries that pass
    neither test are skipped, and the first entry that passes one gives
    the ring of the test it passes. *)
Lemma adopt_entry_test (metrics : DomainMetrics) :
  adopt_entry metrics <->
  ((50 <=? dom_total_repos metrics) && Float.geb (dom_activity_score metrics) 0.5)
  || ((70 <=? dom_total_repos metrics) && Float.geb (dom_activity_score metrics) 0.4)
  = true.
Proof.
  unfold adopt_entry.
  destruct (Z.leb_spec 50 (dom_total_repos metrics)),
    (Z.leb_spec 70 (dom_total_repos metrics)),
    (geb_reflect (dom_activity_score metrics) 0.5),
    (geb_reflect (dom_activity_score metrics) 0.4); simpl;
    (split; [intros [[? ?]|[? ?]] | intros ?]);
    try done; try lia; try lra;
    solve [left; split; [lia|lra] | right; split; [lia|lra]].
Qed.

Lemma trial_entry_test (metrics : DomainMetrics) :
  trial_entry metrics <->
  (30 <=? dom_total_repos metrics) && Float.geb (dom_activity_score metrics) 0.65
  = true.
Proof.
  unfold trial_entry.
  destruct (Z.leb_spec 30 (dom_total_repos metrics)),
    (geb_reflect (dom_activity_score metrics) 0.65); simpl;
    (split; [intros [? ?] | intros ?]); try done; try lia; try lra.
Qed.

Lemma domain_dominance_skip (skipped rest : list (string * DomainMetrics)) :
  Forall (fun entry => ~ adopt_entry entry.2 /\ ~ trial_entry entry.2) skipped ->
  domain_dominance (skipped ++ rest) = domain_dominance rest.
Proof.
  induction 1 as [|[domain metrics] skipped [Ha Ht] _ IH]; [done|].
  cbn [app domain_dominance]. cbn [snd] in Ha, Ht.
  rewrite adopt_entry_test in Ha. rewrite trial_entry_test in Ht.
  apply not_true_is_false in Ha, Ht. rewrite Ha, Ht, IH.
  by case_match.
Qed.

Lemma domain_dominance_adopt (domain : string) (metrics : DomainMetrics)
    (rest : list (string * DomainMetrics)) :
  adopt_entry metrics ->
  domain_dominance ((domain, metrics) :: rest) = Some (0, 0.9%Q).
Proof.
  intros Ha. simpl.
  assert ((20 <=? dom_total_repos metrics) = true) as ->
    by (apply Z.leb_le; destruct Ha; lia).
  apply adopt_entry_test in Ha. by rewrite Ha.
Qed.

Lemma domain_dominance_trial (domain : string) (metrics : DomainMetrics)
    (rest : list (string * DomainMetrics)) :
  ~ adopt_entry metrics -> trial_entry metrics ->
  domain_dominance ((domain, metrics) :: rest) = Some (1, 0.8%Q).
Proof.
  intros Ha Ht. simpl.
  assert ((20 <=? dom_total_repos metrics) = true) as ->
    by (apply Z.leb_le; destruct Ht; lia).
  rewrite adopt_entry_test in Ha. apply trial_entry_test in Ht.
  apply not_true_is_false in Ha. by rewrite Ha, Ht.
Qed.

(** Without an entry that passes the Adopt test, an entry that passes
    the Trial test gives Trial. *)
Lemma domain_dominance_trial_only (entries : list (string * DomainMetrics)) :
  Forall (fun entry => ~ adopt_entry entry.2) entries ->
  Exists (fun entry => trial_entry entry.2) entries ->
  domain_dominance entries = Some (1, 0.8%Q).
Proof.
  intros Hno Hex. induction Hex as [[domain metrics] rest Ht|[domain metrics] rest _ IH].
  - apply domain_dominance_trial; [|done]. by inversion Hno.
  - inversion Hno as [|? ? Ha Hrest]; subst. specialize (IH Hrest).
    cbn [domain_dominance]. cbn [snd] in Ha.
    rewrite adopt_entry_test in Ha. apply not_true_is_false in Ha.
    rewrite Ha, IH. by repeat case_match.
Qed.

(** C3 at the failing input.  A breakdown whose first entry passes only
    the Trial test and whose second entry passes the Adopt test is
    decided by the first entry: the ring is Trial with confidence 0.8,
    and it is Adopt with confidence 0.9 once the two entries change
    places. *)
Theorem domain_dominance_first_entry_decides (usage recency activity : Q)
    (trend : Trend) (temporal_data : TemporalData) :
  adopt_entry backend_dominance
  /\ _smart_ring_decision usage recency activity trend
       (with_breakdown temporal_data
          [("mobile"%string, mobile_presence);
           ("backend"%string, backend_dominance)]) = (1, 0.8%Q)
  /\ _smart_ring_decision usage recency activity trend
       (with_breakdown temporal_data
          [("backend"%string, backend_dominance);
           ("mobile"%string, mobile_presence)]) = (0, 0.9%Q).
Proof.
  split; [left; split; [simpl; lia | by vm_compute]|].
  split; reflexivity.
Qed.

(** C4.  Review is asked for exactly when the confidence is below 0.75,
    or the trend is DECLINING with usage above 0.3, or the trend is
    GROWING with usage below 0.1, or the technology has fewer than 3
    repositories; the reason is that of the first of these that holds,
    and without any of them there is no review and no reason. *)
Theorem review_need_exact (confidence usage_score : Q)
    (temporal_data : TemporalData) (ring : Z) :
  let result := _determine_review_need confidence temporal_data usage_score ring in
  let low := (confidence < 0.75)%Q in
  let declining := trend temporal_data = DECLINING /\ (0.3 < usage_score)%Q in
  let growing := trend temporal_data = GROWING /\ (usage_score < 0.1)%Q in
  let limited := total_repos temporal_data < 3 in
  (result.1 = true <-> low \/ declining \/ growing \/ limited)
  /\ (~ (low \/ declining \/ growing \/ limited) -> result = (false, None))
  /\ (low -> result = (true, Some "Low confidence classification"%string))
  /\ (~ low -> declining ->
      result = (true, Some "High usage but declining trend"%string))
  /\ (~ low -> ~ declining -> growing ->
      result = (true, Some "Low usage but growing trend"%string))
  /\ (~ low -> ~ declining -> ~ growing -> limited ->
      result = (true, Some "Limited data (fewer than 3 repos)"%string)).
Proof.
  cbv zeta. unfold _determine_review_need.
  destruct (ltb_reflect confidence 0.75), (gtb_reflect usage_score 0.3),
    (ltb_reflect usage_score 0.1), (Z.ltb_spec (total_repos temporal_data) 3);
    repeat case_bool_decide; simpl;
    intuition (try done; try congruence; try lia; try lra).
Qed.

Lemma review_need_exact_witness :
  (0.6 < 0.75)%Q
  /\ _determine_review_need 0.6 stable_profile 0.5 2 =
       (true, Some "Low confidence classification"%string).
Proof.
  assert (0.6 < 0.75)%Q as H by reflexivity.
  split; [exact H|].
  exact (proj1 (proj2 (proj2 (review_need_exact 0.6 0.5 stable_profile 2))) H).
Defined.








End RingProps.

(** ** The circuit breaker *)

Module BreakerProps.

Import Py RateLimiter FloatFacts BreakerSpec.

Section Breaker.

Context {W A : Type} (time : W -> Q).

Local Abbreviation calls := (calls time).

Implicit Types (self : CircuitBreaker) (func : W -> W * outcome A) (w : W).

Local Ltac wf_cases :=
  repeat split; simpl; intros; try done; try lia; try (by eexists).

Lemma init_well_formed (failure_threshold timeout : Z) :
  0 < failure_threshold -> well_formed (__init__ failure_threshold timeout).
Proof. intros H. wf_cases. Qed.

Lemma gate_closed self w : state self = CLOSED -> gate time self w = inl self.
Proof. intros H. unfold gate. rewrite H. by case_decide. Qed.

Lemma call_closed_failure self func w w' e :
  state self = CLOSED -> func w = (w', Raise e) ->
  call time self func w = (on_failure time self w', w', Raise e).
Proof. intros Hs Hf. unfold call. by rewrite gate_closed, Hf. Qed.

(** A call that is not interrupted keeps the breaker well formed. *)
Lemma call_well_formed self func w :
  well_formed self -> (call time self func w).2 <> Interrupt ->
  well_formed (call time self func w).1.1.
Proof.
  intros (Hth & Hc & Hh & Ho & Hcl). unfold call, gate.
  destruct self as [th tm c last st]; simpl in *.
  destruct st; try done; simpl.
  - destruct (func w) as [w' [v|e|]]; simpl; try done; intros _;
      unfold on_failure; simpl; try destruct (Z.leb_spec th (c + 1)); wf_cases.
  - destruct (Ho eq_refl) as [Hge [t ->]].
    destruct (Float.geb _ _); [|intros _; wf_cases].
    destruct (func w) as [w' [v|e|]]; simpl; try done; intros _;
      unfold on_failure; simpl; try destruct (Z.leb_spec th (c + 1)); wf_cases.
Qed.

(** Failures below the threshold leave the breaker closed and are
    counted. *)
Lemma calls_failures_closed (funcs : list (W -> W * outcome A)) self w :
  Forall always_fails funcs ->
  state self = CLOSED ->
  failure_count self + Z.of_nat (length funcs) < failure_threshold self ->
  let self' := (calls self funcs w).1 in
  state self' = CLOSED
  /\ failure_count self' = failure_count self + Z.of_nat (length funcs)
  /\ failure_threshold self' = failure_threshold self
  /\ timeout self' = timeout self
  /\ (calls self funcs w).2 = run_all funcs w.
Proof.
  intros Hall. revert self w.
  induction Hall as [|func rest Hf _ IH]; intros self w Hs Hlt; cbv zeta.
  - simpl. repeat split; try done; lia.
  - cbn [calls run_all]. destruct (Hf w) as [e He].
    destruct (func w) as [w' r] eqn:Efunc. simpl in He. subst r.
    rewrite (call_closed_failure self func w w' e Hs Efunc).
    rewrite length_cons, Nat2Z.inj_succ in Hlt.
    assert (on_failure time self w' =
            set_last_failure_time
              (set_failure_count self (failure_count self + 1))
              (Some (time w'))) as Eon.
    { unfold on_failure. simpl.
      destruct (Z.leb_spec (failure_threshold self) (failure_count self + 1));
        [lia | done]. }
    rewrite Eon.
    destruct (IH (set_last_failure_time
                    (set_failure_count self (failure_count self + 1))
                    (Some (time w'))) w') as (H1 & H2 & H3 & H4 & H5);
      [done | simpl; lia |].
    simpl in H2, H3, H4. rewrite H1, H2, H3, H4, H5.
    rewrite length_cons, Nat2Z.inj_succ. simpl. repeat split; try done; lia.
Qed.

Lemma calls_app (funcs more : list (W -> W * outcome A)) self w :
  calls self (funcs ++ more) w =
    calls (calls self funcs w).1 more (calls self funcs w).2.
Proof.
  revert self w. induction funcs as [|func funcs IH]; intros self w; [done|].
  cbn [app calls]. destruct (call time self func w) as [[self' w'] r]. apply IH.
Qed.

(** The failure that reaches the threshold opens the breaker. *)
Lemma calls_failures_open (funcs : list (W -> W * outcome A)) self w :
  Forall always_fails funcs ->
  funcs <> [] ->
  state self = CLOSED ->
  failure_count self + Z.of_nat (length funcs) = failure_threshold self ->
  let self' := (calls self funcs w).1 in
  state self' = OPEN
  /\ failure_count self' = failure_threshold self
  /\ last_failure_time self' = Some (time (run_all funcs w))
  /\ (calls self funcs w).2 = run_all funcs w.
Proof.
  intros Hall Hne Hs Hc. cbv zeta.
  destruct (exists_last Hne) as (pre & func & ->).
  apply Forall_app in Hall as [Hpre Hlast].
  apply Forall_cons in Hlast as [Hf _].
  rewrite length_app, Nat2Z.inj_add in Hc. simpl in Hc.
  destruct (calls_failures_closed pre self w Hpre Hs ltac:(lia))
    as (H1 & H2 & H3 & H4 & H5).
  rewrite calls_app. cbn [calls].
  set (mid := (calls self pre w).1) in *. rewrite H5.
  assert (run_all (pre ++ [func]) w = (func (run_all pre w)).1) as ->.
  { clear. revert w. induction pre as [|g pre IH]; intros w; [done|]. apply IH. }
  destruct (Hf (run_all pre w)) as [e He].
  destruct (func (run_all pre w)) as [w' r] eqn:Efunc. simpl in He. subst r.
  rewrite (call_closed_failure mid func _ w' e H1 Efunc). simpl.
  unfold on_failure. simpl.
  destruct (Z.leb_spec (failure_threshold mid) (failure_count mid + 1)); [|lia].
  simpl. repeat split; try done; lia.
Qed.

(** While the cooldown runs an open breaker refuses the call. *)
Lemma call_open_refused self func w (last : Q) :
  state self = OPEN -> last_failure_time self = Some last ->
  (time w - last < inject_Z (timeout self))%Q ->
  call time self func w =
    (self, w, Raise (CircuitOpen (inject_Z (timeout self) - (time w - last)))).
Proof.
  intros Hs Hl Ht. unfold call, gate. rewrite Hs, Hl.
  case_decide; [|done].
  destruct (geb_reflect (time w - last) (inject_Z (timeout self))); [lra|done].
Qed.

(** After the cooldown the call goes through as the one trial. *)
Lemma call_open_trial self func w (last : Q) :
  state self = OPEN -> last_failure_time self = Some last ->
  (inject_Z (timeout self) <= time w - last)%Q ->
  call time self func w =
    match (func w).2 with
    | Return result =>
        (set_failure_count (set_state self CLOSED) 0, (func w).1, Return result)
    | Raise e =>
        (on_failure time (set_state self HALF_OPEN) (func w).1, (func w).1,
         Raise e)
    | Interrupt => (set_state self HALF_OPEN, (func w).1, Interrupt)
    end.
Proof.
  intros Hs Hl Ht. unfold call, gate. rewrite Hs, Hl.
  case_decide; [|done].
  destruct (geb_reflect (time w - last) (inject_Z (timeout self))); [|lra].
  by destruct (func w) as [w' [v|e|]].
Qed.

Lemma on_failure_below self w :
  failure_count self + 1 < failure_threshold self ->
  on_failure time self w =
    set_last_failure_time
      (set_failure_count self (failure_count self + 1)) (Some (time w)).
Proof.
  intros Hlt. unfold on_failure. simpl.
  by destruct (Z.leb_spec (failure_threshold self) (failure_count self + 1));
    [lia|].
Qed.

Lemma on_failure_reaches self w :
  failure_threshold self <= failure_count self + 1 ->
  on_failure time self w =
    set_state
      (set_last_failure_time
         (set_failure_count self (failure_count self + 1)) (Some (time w)))
      OPEN.
Proof.
  intros Hle. unfold on_failure. simpl.
  by destruct (Z.leb_spec (failure_threshold self) (failure_count self + 1));
    [|lia].
Qed.

(** Failures in turn below the threshold leave the breaker closed and
    are counted. *)
Lemma calls_fail_closed (funcs : list (W -> W * outcome A)) self w :
  fail_in_turn funcs w ->
  state self = CLOSED ->
  failure_count self + Z.of_nat (length funcs) < failure_threshold self ->
  state (calls self funcs w).1 = CLOSED
  /\ failure_count (calls self funcs w).1 =
       failure_count self + Z.of_nat (length funcs)
  /\ (calls self funcs w).2 = run_all funcs w.
Proof.
  revert self w.
  induction funcs as [|func rest IH]; intros self w Hall Hs Hlt.
  - simpl. repeat split; try done; lia.
  - destruct Hall as [[e He] Hrest]. cbn [calls run_all].
    destruct (func w) as [w' r] eqn:Efunc. simpl in He, Hrest. subst r.
    rewrite (call_closed_failure self func w w' e Hs Efunc).
    rewrite length_cons, Nat2Z.inj_succ in Hlt.
    rewrite on_failure_below by lia.
    destruct (IH (set_last_failure_time
                    (set_failure_count self (failure_count self + 1))
                    (Some (time w'))) w' Hrest) as (H1 & H2 & H3);
      [done | simpl; lia |].
    simpl in H2. rewrite length_cons, Nat2Z.inj_succ.
    repeat split; [done | lia | done].
Qed.

(** The failure in turn that reaches the threshold opens the breaker. *)
Lemma calls_fail_open (funcs : list (W -> W * outcome A)) self w :
  fail_in_turn funcs w ->
  funcs <> [] ->
  state self = CLOSED ->
  failure_count self + Z.of_nat (length funcs) = failure_threshold self ->
  state (calls self funcs w).1 = OPEN
  /\ failure_count (calls self funcs w).1 = failure_threshold self
  /\ last_failure_time (calls self funcs w).1 = Some (time (run_all funcs w))
  /\ (calls self funcs w).2 = run_all funcs w.
Proof.
  revert self w.
  induction funcs as [|func rest IH]; intros self w Hall Hne Hs Hc; [done|].
  destruct Hall as [[e He] Hrest]. cbn [calls run_all].
  destruct (func w) as [w' r] eqn:Efunc. simpl in He, Hrest. subst r.
  rewrite (call_closed_failure self func w w' e Hs Efunc).
  rewrite length_cons, Nat2Z.inj_succ in Hc.
  destruct rest as [|func' rest'].
  - simpl in Hc. rewrite on_failure_reaches by lia. simpl.
    repeat split; try done; lia.
  - rewrite on_failure_below by (simpl in Hc; lia).
    destruct (IH (set_last_failure_time
                    (set_failure_count self (failure_count self + 1))
                    (Some (time w'))) w' Hrest) as (H1 & H2 & H3 & H4);
      [done | done | simpl; simpl in Hc; lia |].
    simpl in H2. repeat split; done.
Qed.

(** A success of a closed breaker clears the count of failures. *)
Lemma call_closed_success self func w result :
  state self = CLOSED -> (func w).2 = Return result ->
  call time self func w = (set_failure_count self 0, (func w).1, Return result).
Proof.
  intros Hs Hf. unfold call. rewrite gate_closed by done.
  destruct (func w) as [w' r]. simpl in Hf. subst r.
  unfold on_success. rewrite Hs. by case_decide.
Qed.

(** C6.  The breaker of the scanner, closed at first, is open after five
    failures of the guarded operation in a row; an open breaker whose
    cooldown has not elapsed raises without running the operation and
    keeps its state; once the cooldown has elapsed the next call goes
    to HALF_OPEN and runs the operation once: its success closes the
    breaker and clears the failure count, its failure opens the breaker
    again with the time of that failure as the new start of the
    cooldown.  The first part holds of every closed breaker and of
    operations that need only fail where they are run: a success clears
    the count, failures in a row are counted while the count is below
    the threshold, and the failure that brings the count to the
    threshold opens the breaker at the time of that failure. *)
Theorem breaker_state_machine :
  (forall (funcs : list (W -> W * outcome A)) w,
      length funcs = 5%nat -> Forall always_fails funcs ->
      let self := (calls (__init__ 5 60) funcs w).1 in
      state self = OPEN /\ failure_count self = 5
      /\ last_failure_time self = Some (time (run_all funcs w))
      /\ (calls (__init__ 5 60) funcs w).2 = run_all funcs w) /\
  (forall (funcs : list (W -> W * outcome A)) w,
      (length funcs < 5)%nat -> Forall always_fails funcs ->
      state (calls (__init__ 5 60) funcs w).1 = CLOSED) /\
  (forall self func w (last : Q),
      state self = OPEN -> last_failure_time self = Some last ->
      (time w - last < inject_Z (timeout self))%Q ->
      call time self func w =
        (self, w, Raise (CircuitOpen (inject_Z (timeout self) - (time w - last))))) /\
  (forall self func w (last : Q),
      well_formed self ->
      state self = OPEN -> last_failure_time self = Some last ->
      (inject_Z (timeout self) <= time w - last)%Q ->
      let w' := (func w).1 in
      gate time self w = inl (set_state self HALF_OPEN) /\
      (forall result, (func w).2 = Return result ->
          call time self func w =
            (set_failure_count (set_state self CLOSED) 0, w', Return result)) /\
      (forall e, (func w).2 = Raise e ->
          call time self func w =
            (set_state
               (set_last_failure_time
                  (set_failure_count self (failure_count self + 1))
                  (Some (time w')))
               OPEN,
             w', Raise e))) /\
  (forall self func w result,
      state self = CLOSED -> (func w).2 = Return result ->
      call time self func w =
        (set_failure_count self 0, (func w).1, Return result)) /\
  (forall self (funcs : list (W -> W * outcome A)) w,
      state self = CLOSED -> fail_in_turn funcs w ->
      let self' := (calls self funcs w).1 in
      (failure_count self + Z.of_nat (length funcs) < failure_threshold self ->
       state self' = CLOSED
       /\ failure_count self' = failure_count self + Z.of_nat (length funcs)
       /\ (calls self funcs w).2 = run_all funcs w) /\
      (funcs <> [] ->
       failure_count self + Z.of_nat (length funcs) = failure_threshold self ->
       state self' = OPEN
       /\ failure_count self' = failure_threshold self
       /\ last_failure_time self' = Some (time (run_all funcs w))
       /\ (calls self funcs w).2 = run_all funcs w)).
Proof.
  split; [|split; [|split; [|split; [|split]]]].
  - intros funcs w Hlen Hall.
    apply (calls_failures_open funcs (__init__ 5 60) w Hall);
      [by destruct funcs | done | simpl; lia].
  - intros funcs w Hlen Hall.
    apply (calls_failures_closed funcs (__init__ 5 60) w Hall); [done|simpl; lia].
  - apply call_open_refused.
  - intros self func w last Hwf Hs Hl Ht. cbv zeta.
    rewrite (call_open_trial self func w last Hs Hl Ht).
    split.
    { unfold gate. rewrite Hs, Hl. case_decide; [|done].
      by destruct (geb_reflect (time w - last) (inject_Z (timeout self))); [|lra]. }
    split; [by intros result ->|]. intros e ->.
    destruct Hwf as (_ & _ & _ & Ho & _). destruct (Ho Hs) as [Hge _].
    unfold on_failure. simpl.
    by destruct (Z.leb_spec (failure_threshold self) (failure_count self + 1));
      [|lia].
  - apply call_closed_success.
  - intros self funcs w Hs Hall. cbv zeta. split.
    + intros Hlt. by apply calls_fail_closed.
    + intros Hne Hc. by apply calls_fail_open.
Qed.

End Breaker.

Lemma breaker_state_machine_witness :
  ((length (replicate 5 failing_fetch) = 5%nat
    /\ Forall always_fails (replicate 5 failing_fetch))
   /\ state (calls snd (__init__ 5 60) (replicate 5 failing_fetch) (0%nat, 0%Q)).1
      = OPEN)
  /\ (state (set_failure_count (__init__ 5 60) 3) = CLOSED
      /\ fail_in_turn (replicate 2 failing_fetch) (0%nat, 0%Q)
      /\ replicate 2 failing_fetch <> []
      /\ failure_count (set_failure_count (__init__ 5 60) 3)
           + Z.of_nat (length (replicate 2 failing_fetch))
         = failure_threshold (set_failure_count (__init__ 5 60) 3))
  /\ state (calls snd (set_failure_count (__init__ 5 60) 3)
              (replicate 2 failing_fetch) (0%nat, 0%Q)).1
     = OPEN.
Proof.
  assert (Forall always_fails (replicate 5 failing_fetch)) as Hall.
  { apply Forall_replicate. intros w. by eexists. }
  assert (fail_in_turn (replicate 2 failing_fetch) (0%nat, 0%Q)) as Hturn.
  { simpl. repeat split; by eexists. }
  assert (replicate 2 failing_fetch <> []) as Hne by done.
  pose proof (breaker_state_machine (W := (nat * Q)%type) (A := unit) snd)
    as (H1 & _ & _ & _ & _ & H6).
  split; [split; [by split|]|split; [by split_and!|]].
  - exact (proj1 (H1 (replicate 5 failing_fetch) (0%nat, 0%Q) eq_refl Hall)).
  - exact (proj1 (proj2 (H6 (set_failure_count (__init__ 5 60) 3)
                           (replicate 2 failing_fetch) (0%nat, 0%Q)
                           eq_refl Hturn) Hne eq_refl)).
Defined.

End BreakerProps.

(** ** The checkpoint of the organization scan *)

Module CheckpointProps.

Import Py RepoData Progress Scanner CheckpointSpec.

Section Checkpoint.

Context {W : Type}
  (time : W -> Q)
  (utcnow : W -> Z)
  (dump_ok : W -> bool)
  (fnmatch : string -> string -> bool)
  (check_and_wait : W -> W * outcome unit)
  (detect_technologies : Repository -> W -> W * outcome Techs)
  (should_deep_scan : string -> bool)
  (deep_scan_repository : Repository -> W -> W * outcome (list string))
  (detect_domain : Repository -> Techs -> W -> W * outcome (option DomainInfo))
  (progress_callback : option (Z -> Z -> string -> W -> W * outcome unit)).

Local Abbreviation fetch_and_extract :=
  (_scan_repository check_and_wait detect_technologies should_deep_scan
     deep_scan_repository).
Local Abbreviation guarded_scan :=
  (guarded_scan time check_and_wait detect_technologies should_deep_scan
     deep_scan_repository).
Local Abbreviation try_scan :=
  (try_scan time utcnow dump_ok check_and_wait detect_technologies
     should_deep_scan deep_scan_repository detect_domain).
Local Abbreviation scan_one :=
  (scan_one time utcnow dump_ok fnmatch check_and_wait detect_technologies
     should_deep_scan deep_scan_repository detect_domain progress_callback).
Local Abbreviation scan_loop :=
  (scan_loop time utcnow dump_ok fnmatch check_and_wait detect_technologies
     should_deep_scan deep_scan_repository detect_domain progress_callback).

Local Abbreviation attempt := (attempt fnmatch progress_callback).
Local Abbreviation completes :=
  (completes time fnmatch check_and_wait detect_technologies should_deep_scan
     deep_scan_repository progress_callback).
Local Abbreviation completed_in :=
  (completed_in time utcnow dump_ok fnmatch check_and_wait detect_technologies
     should_deep_scan deep_scan_repository detect_domain progress_callback).

Implicit Types (run : Run (W := W)) (repo : Repository)
  (tracker : ProgressTracker).

(** [mark_scanned] adds at most the name it is given, and what it
    writes to the file is the list it then holds. *)
Lemma mark_scanned_effect tracker (name : string) (save_interval : Z) (w : W) :
  let tracker' := (mark_scanned time dump_ok tracker name save_interval w).1 in
  (in_memory tracker' = in_memory tracker
   \/ in_memory tracker' = in_memory tracker ++ [name])
  /\ (on_disk tracker' = on_disk tracker
      \/ on_disk tracker' = in_memory tracker').
Proof.
  cbv zeta. unfold mark_scanned, in_memory, on_disk, _save.
  destruct (Str.mem name _); destruct (save_interval =? 0); simpl;
    try (split; [by (left + right)|by left]);
    destruct (_ mod _ =? 0); simpl;
    try (split; [by (left + right)|by left]);
    destruct (enabled tracker); simpl;
    try (split; [by (left + right)|by left]);
    destruct (dump_ok w); simpl;
    (split; [by (left + right)|by (left + right)]).
Qed.

Lemma record_scan_tracker run repo (techs : Techs) :
  progress_tracker (self (record_scan utcnow detect_domain run repo techs).1)
  = progress_tracker (self run).
Proof.
  unfold record_scan. destruct techs as [|cat techs]; [done|].
  destruct (domain_detector (self run)); [|done].
  by destruct (detect_domain repo (cat :: techs) (world run)) as [w [info|e|]].
Qed.

(** The [try] statement changes the checkpoint only through
    [mark_scanned], and only after the guarded scan returned. *)
Lemma try_scan_tracker run repo :
  let run' := (try_scan run repo).1 in
  progress_tracker (self run') = progress_tracker (self run)
  \/ exists tracker save_interval (w : W) (techs : Techs),
       (guarded_scan run repo).2 = Return techs
       /\ progress_tracker (self run) = Some tracker
       /\ progress_tracker (self run') =
            Some (mark_scanned time dump_ok tracker (repo_full_name repo)
                    save_interval w).1.
Proof.
  cbv zeta. unfold Scanner.try_scan.
  destruct (guarded_scan run repo) as [[breaker sw] [techs|e|]] eqn:Eg;
    [|by left|by left].
  set (run1 := {| self := _ |}).
  pose proof (record_scan_tracker run1 repo techs) as Hrec.
  destruct (record_scan utcnow detect_domain run1 repo techs) as [run2 [[]|e|]];
    simpl in Hrec; [|by left|by left].
  unfold checkpoint. rewrite Hrec. simpl.
  destruct (progress_tracker (self run)) as [tracker|] eqn:Et.
  - right. exists tracker, (checkpoint_save_interval (self run2)), (world run2), techs.
    split; [done|]. split; [done|].
    by destruct (mark_scanned _ _ _ _ _ _) as [tracker' [[]|e|]].
  - by left.
Qed.

(** A guarded scan that returns has run the fetch-and-extract, which
    returned. *)
Lemma guarded_scan_returns run repo (techs : Techs) :
  (guarded_scan run repo).2 = Return techs ->
  (fetch_and_extract (deep_scanner (self run)) repo
     (stats (self run), world run)).2 = Return techs.
Proof.
  unfold Scanner.guarded_scan, RateLimiter.call.
  destruct (RateLimiter.gate _ _ _) as [breaker|e]; [|done].
  by destruct (fetch_and_extract _ _ _) as [sw [v|e|]].
Qed.

Lemma try_scan_checkpoint run repo :
  let run' := (try_scan run repo).1 in
  (scanned run' = scanned run
   \/ ((exists techs : Techs, (guarded_scan run repo).2 = Return techs)
       /\ scanned run' = scanned run ++ [repo_full_name repo]))
  /\ (persisted run' = persisted run \/ persisted run' = scanned run').
Proof.
  cbv zeta. unfold scanned, persisted.
  destruct (try_scan_tracker run repo)
    as [-> | (tracker & interval & w & techs & Hg & -> & ->)].
  - split; by left.
  - destruct (mark_scanned_effect tracker (repo_full_name repo) interval w)
      as [[Hm | Hm] Hd]; (split; [|done]); [by left|].
    right. split; [by exists techs|done].
Qed.

(** One turn of the loop: the checkpoint gains at most the name of the
    repository of the turn, and only when its guarded scan returned. *)
Lemma scan_one_checkpoint (total : Z) run (idx : Z) repo :
  let run' := (scan_one total run idx repo).1 in
  (scanned run' = scanned run
   \/ (completes total run idx repo
       /\ scanned run' = scanned run ++ [repo_full_name repo]))
  /\ (persisted run' = persisted run \/ persisted run' = scanned run').
Proof.
  cbv zeta. unfold Scanner.scan_one, completes, attempt.
  destruct (skipped fnmatch run repo); [split; by left|].
  destruct progress_callback as [callback|].
  - destruct (callback _ _ _ _) as [w [[]|e|]]; [|split; by left|split; by left].
    destruct (try_scan_checkpoint (with_world run w) repo) as [[Hs | [Hg Hs]] Hp];
      (split; [|exact Hp]); [by left|].
    right. split; [|exact Hs]. destruct Hg as [techs Hg]. by exists (with_world run w), techs.
  - destruct (try_scan_checkpoint run repo) as [[Hs | [Hg Hs]] Hp];
      (split; [|exact Hp]); [by left|].
    right. split; [|exact Hs]. destruct Hg as [techs Hg]. by exists run, techs.
Qed.

(** The loop: every identifier of the checkpoint was there at the start
    or belongs to a repository whose guarded scan returned; the file
    holds nothing else either. *)
Lemma scan_loop_checkpoint (repos : list Repository) (total : Z) run (idx : Z) :
  let run' := (scan_loop total run idx repos).1 in
  (forall name, name ∈ scanned run' ->
      name ∈ scanned run \/ completed_in total run idx repos name)
  /\ (forall name, name ∈ persisted run' ->
      name ∈ persisted run \/ name ∈ scanned run
      \/ completed_in total run idx repos name).
Proof.
  revert run idx. induction repos as [|repo rest IH]; intros run idx; cbv zeta.
  - simpl. split; intros name Hin; by left.
  - cbn [Scanner.scan_loop].
    pose proof (scan_one_checkpoint total run idx repo) as Hstep.
    destruct (scan_one total run idx repo) as [run1 [e|]] eqn:Eone;
      cbv zeta in Hstep; simpl in Hstep; destruct Hstep as [Hs Hp].
    + assert (forall name, name ∈ scanned run1 ->
                name ∈ scanned run \/ completed_in total run idx (repo :: rest) name)
        as Hscanned.
      { intros name Hin. destruct Hs as [Hs | [Hc Hs]]; rewrite Hs in Hin; [by left|].
        apply elem_of_app in Hin as [Hin | Hin]; [by left|].
        apply list_elem_of_singleton in Hin as ->. right. by constructor. }
      simpl. split; [exact Hscanned|].
      intros name Hin. destruct Hp as [Hp | Hp]; rewrite Hp in Hin; [by left|].
      right. by apply Hscanned.
    + destruct (IH run1 (idx + 1)) as [IHs IHp].
      assert (forall name, name ∈ scanned run1 ->
                name ∈ scanned run \/ completed_in total run idx (repo :: rest) name)
        as Hscanned.
      { intros name Hin. destruct Hs as [Hs | [Hc Hs]]; rewrite Hs in Hin; [by left|].
        apply elem_of_app in Hin as [Hin | Hin]; [by left|].
        apply list_elem_of_singleton in Hin as ->. right. by constructor. }
      split.
      * intros name Hin. destruct (IHs name Hin) as [H1 | H1]; [by apply Hscanned|].
        right. by eapply completed_later.
      * intros name Hin. destruct (IHp name Hin) as [H1 | [H1 | H1]].
        -- destruct Hp as [Hp | Hp]; rewrite Hp in H1; [by left|].
           right. by apply Hscanned.
        -- right. by apply Hscanned.
        -- right. right. by eapply completed_later.
Qed.

(** C7.  A repository enters the checkpoint only after its guarded scan
    returned: when the guarded scan raises, as it does while the breaker
    is open, or is interrupted, the tracker is left as it was and an
    interrupt leaves the loop; a guarded scan that returns has run the
    fetch-and-extract, which returned; and after any run of the loop,
    whether it ends or is left, the identifiers in the tracker and in
    the checkpoint file are those present at the start and those of
    repositories whose guarded scan returned in the run. *)
Theorem checkpoint_completeness :
  (forall run repo e,
      (guarded_scan run repo).2 = Raise e ->
      progress_tracker (self (try_scan run repo).1) = progress_tracker (self run)) /\
  (forall run repo (last : Q),
      RateLimiter.state (circuit_breaker (self run)) = RateLimiter.OPEN ->
      RateLimiter.last_failure_time (circuit_breaker (self run)) = Some last ->
      (time (world run) - last
       < inject_Z (RateLimiter.timeout (circuit_breaker (self run))))%Q ->
      exists e, (guarded_scan run repo).2 = Raise e) /\
  (forall run repo,
      (guarded_scan run repo).2 = Interrupt ->
      progress_tracker (self (try_scan run repo).1) = progress_tracker (self run)
      /\ (try_scan run repo).2 = Some Interrupted) /\
  (forall run repo (techs : Techs),
      (guarded_scan run repo).2 = Return techs ->
      (fetch_and_extract (deep_scanner (self run)) repo
         (stats (self run), world run)).2 = Return techs) /\
  (forall (repos : list Repository) (total : Z) run (idx : Z) (name : string),
      name ∈ scanned (scan_loop total run idx repos).1 ->
      name ∈ scanned run \/ completed_in total run idx repos name) /\
  (forall (repos : list Repository) (total : Z) run (idx : Z) (name : string),
      name ∈ persisted (scan_loop total run idx repos).1 ->
      name ∈ persisted run \/ name ∈ scanned run
      \/ completed_in total run idx repos name).
Proof.
  repeat split.
  - intros run repo e Hg.
    destruct (try_scan_tracker run repo) as [H | (? & ? & ? & techs & Hr & _)];
      [done | congruence].
  - intros run repo last Hs Hl Ht. eexists. unfold Scanner.guarded_scan.
    by rewrite (BreakerProps.call_open_refused (fun sw : Stats * W => time sw.2)
                  _ _ (stats (self run), world run) last Hs Hl Ht).
  - destruct (try_scan_tracker run repo) as [Ht | (? & ? & ? & techs & Hr & _)];
      [done | congruence].
  - unfold Scanner.try_scan.
    by destruct (guarded_scan run repo) as [[breaker sw] [techs|e|]].
  - apply guarded_scan_returns.
  - apply scan_loop_checkpoint.
  - apply scan_loop_checkpoint.
Qed.

End Checkpoint.

Lemma checkpoint_completeness_witness :
  "org/a"%string ∈ scanned two_repo_scan.1
  /\ ("org/b"%string ∉ scanned two_repo_scan.1)
  /\ ("org/a"%string ∈ scanned fresh_run
      \/ completed_in (fun w => w) (fun _ => 0) (fun _ => true) (fun _ _ => false)
           (fun w => (w, Return tt)) detect_a_only (fun _ => false)
           (fun _ w => (w, Return [])) (fun _ _ w => (w, Return None)) None
           2 fresh_run 0 [repo_a; repo_b] "org/a"%string).
Proof.
  assert ("org/a"%string ∈ scanned two_repo_scan.1) as Hin
    by (vm_compute; apply list_elem_of_here).
  split; [exact Hin|]. split.
  - vm_compute. intros H. apply list_elem_of_singleton in H. discriminate H.
  - destruct (checkpoint_completeness (fun w : Q => w) (fun _ => 0)
                (fun _ => true) (fun _ _ => false) (fun w => (w, Return tt))
                detect_a_only (fun _ => false) (fun _ w => (w, Return []))
                (fun _ _ w => (w, Return None)) None)
      as (_ & _ & _ & _ & H & _).
    apply H. exact Hin.
Defined.

End CheckpointProps.

(** ** The strategic filter and the merging of duplicates *)

Module FilterProps.

Import Py AIFilter Main FilterSpec.

(** [Str.contains] is the substring test. *)
Lemma startswith_spec (s p : string) :
  Str.startswith s p = true <-> exists post, s = String.append p post.
Proof.
  revert s. induction p as [|a p IH]; intros s; simpl.
  - destruct s; simpl; (split; [intros _; by eexists | done]).
  - destruct s as [|b s]; [split; [done | by intros [post H]]|].
    simpl. case_decide as Hab.
    + subst b. rewrite IH. split; intros [post H]; exists post.
      * simpl. by rewrite H.
      * simpl in H. by injection H.
    + split; [done|]. intros [post H]. simpl in H. injection H as -> _. done.
Qed.

Lemma contains_spec (sub s : string) :
  Str.contains sub s = true <->
  exists pre post, s = String.append pre (String.append sub post).
Proof.
  induction s as [|c s IH]; cbn [Str.contains].
  - rewrite orb_false_r, startswith_spec. split.
    + intros [post H]. by exists EmptyString, post.
    + intros (pre & post & H). destruct pre; simpl in H; [by exists post | done].
  - rewrite orb_true_iff, startswith_spec, IH. split.
    + intros [[post H] | (pre & post & H)].
      * by exists EmptyString, post.
      * exists (String c pre), post. simpl. by rewrite H.
    + intros (pre & post & H). destruct pre as [|c' pre]; simpl in H.
      * left. by exists post.
      * right. exists pre, post. by injection H.
Qed.

Lemma any_in_spec (l : list string) (s : string) :
  Str.any_in l s = true <-> exists p, p ∈ l /\ Str.contains p s = true.
Proof.
  unfold Str.any_in. rewrite existsb_exists.
  split; intros (p & Hp & Hc); exists p; split; try done; by apply list_elem_of_In.
Qed.

Lemma should_auto_ignore_rule (self : AITechnologyFilter) (tech : Tech) :
  _should_auto_ignore self tech = true <-> ignore_rule self tech.
Proof.
  unfold _should_auto_ignore, ignore_rule. rewrite <- !any_in_spec.
  destruct (ignore_single_repo self), (ignore_os_utilities self),
    (ignore_dev_conveniences self),
    (Z.eqb_spec (repos_count (metadata tech)) 1),
    (Str.any_in os_utils _), (Str.any_in dev_utils _); simpl;
    intuition (try done; try lia).
Qed.

Lemma evaluate_one_ignored (self : AITechnologyFilter) (tech : Tech) :
  name tech ∉ always_include_names self ->
  repos_count (metadata tech) < always_include_min_repos self ->
  _should_auto_ignore self tech = true ->
  removed_without_oracle self tech.
Proof.
  intros Hname Hcount Hauto W oracle w. unfold evaluate_one.
  rewrite bool_decide_eq_false_2 by done.
  change (always_include_min_repos (set_stats self _))
    with (always_include_min_repos self).
  destruct (Z.leb_spec (always_include_min_repos self) (repos_count (metadata tech)));
    [lia|].
  assert (_should_auto_ignore (set_stats self (add_evaluated (stats self))) tech
          = true) as -> by done.
  reflexivity.
Qed.

Lemma evaluate_one_consulted (self : AITechnologyFilter) (tech : Tech) :
  name tech ∉ always_include_names self ->
  repos_count (metadata tech) < always_include_min_repos self ->
  _should_auto_ignore self tech = false ->
  oracle_consulted self tech.
Proof.
  intros Hname Hcount Hauto W oracle w. cbv zeta. unfold evaluate_one.
  rewrite bool_decide_eq_false_2 by done.
  change (always_include_min_repos (set_stats self _))
    with (always_include_min_repos self).
  destruct (Z.leb_spec (always_include_min_repos self) (repos_count (metadata tech)));
    [lia|].
  assert (_should_auto_ignore (set_stats self (add_evaluated (stats self))) tech
          = false) as -> by done.
  unfold _evaluate_strategic_value.
  destruct (oracle tech w) as [w' [e | [answer|]]]; simpl; [done| |done].
  by destruct (Str.mem _ _).
Qed.

(** C8, as stated, fails: with the default configuration GraphQL in one
    repository is removed without the oracle although it is on no
    utility list, and curl in three repositories is removed although it
    is not in exactly one. *)
Lemma auto_removal_counterexample :
  ~ (forall tech : Tech,
        name tech ∉ always_include_names default_filter ->
        repos_count (metadata tech) < always_include_min_repos default_filter ->
        (removed_without_oracle default_filter tech
         <-> matches_utility_list tech /\ repos_count (metadata tech) = 1))
  /\ removed_without_oracle default_filter graphql_once
  /\ ~ matches_utility_list graphql_once
  /\ removed_without_oracle default_filter curl_thrice
  /\ repos_count (metadata curl_thrice) <> 1.
Proof.
  assert (repos_count (metadata curl_thrice) <> 1) as Hcurl by done.
  assert (removed_without_oracle default_filter curl_thrice) as Hauto
    by (by apply evaluate_one_ignored).
  split; [|split; [by apply evaluate_one_ignored|split; [|by split]]].
  - intros H. apply Hcurl. by apply (H curl_thrice).
  - intros Hm. apply any_in_spec in Hm. by vm_compute in Hm.
Qed.

(** C8, amended.  A technology that is neither allow-listed nor at or
    above the minimum is removed without consulting the oracle exactly
    when one of the enabled rules holds: it is used by exactly one
    repository, or its lowered name contains the name of an OS utility,
    or it contains the name of a developer convenience; otherwise the
    oracle is consulted and its verdict decides. *)
Theorem auto_removal_condition (self : AITechnologyFilter) (tech : Tech) :
  name tech ∉ always_include_names self ->
  repos_count (metadata tech) < always_include_min_repos self ->
  (ignore_rule self tech -> removed_without_oracle self tech)
  /\ (~ ignore_rule self tech -> oracle_consulted self tech).
Proof.
  intros Hname Hcount. split; intros Hrule.
  - apply evaluate_one_ignored; [done..|]. by apply should_auto_ignore_rule.
  - apply evaluate_one_consulted; [done..|].
    destruct (_should_auto_ignore self tech) eqn:E; [|done].
    by apply should_auto_ignore_rule in E.
Qed.

Lemma auto_removal_condition_witness :
  ((name graphql_once ∉ always_include_names default_filter)
   /\ repos_count (metadata graphql_once)
      < always_include_min_repos default_filter
   /\ ignore_rule default_filter graphql_once)
  /\ removed_without_oracle default_filter graphql_once.
Proof.
  assert (name graphql_once ∉ always_include_names default_filter) as Hname
    by (simpl; apply not_elem_of_empty).
  assert (repos_count (metadata graphql_once)
          < always_include_min_repos default_filter) as Hcount by reflexivity.
  assert (ignore_rule default_filter graphql_once) as Hrule
    by (left; split; reflexivity).
  split; [done|].
  exact (proj1 (auto_removal_condition default_filter graphql_once Hname Hcount) Hrule).
Defined.

(** *** Grouping of similar names *)

Lemma similar_names_sym (a b : string) : similar_names a b = similar_names b a.
Proof.
  unfold similar_names.
  destruct (decide (Str.lower a = Str.lower b)),
    (decide (Str.lower b = Str.lower a)); try congruence.
  rewrite orb_comm. f_equal.
  destruct (Z.leb_spec (Z.abs (Str.len a - Str.len b)) 5),
    (Z.leb_spec (Z.abs (Str.len b - Str.len a)) 5); try done; lia.
Qed.

Lemma elem_of_joining (tech_names : list string) (processed : gset string)
    (name other : string) :
  other ∈ joining tech_names processed name <->
  other ∈ tech_names /\ other <> name /\ (other ∉ processed)
  /\ similar_names name other = true.
Proof.
  unfold joining. rewrite list_elem_of_In, filter_In, <- list_elem_of_In.
  rewrite andb_true_iff, negb_true_iff, orb_false_iff.
  rewrite !bool_decide_eq_false. tauto.
Qed.

(** Among dissimilar names no group is formed. *)
Lemma group_names_dissimilar (tech_names todo : list string)
    (groups : list (list string)) (processed : gset string) :
  dissimilar tech_names -> todo ⊆ tech_names ->
  group_names tech_names todo groups processed = groups.
Proof.
  intros Hd. revert groups processed.
  induction todo as [|name rest IH]; intros groups processed Hsub; [done|].
  cbn [group_names]. case_decide; [apply IH; set_solver|].
  fold (joining tech_names processed name).
  assert (joining tech_names processed name = []) as ->.
  { destruct (joining tech_names processed name) as [|other l] eqn:E; [done|].
    assert (other ∈ joining tech_names processed name) as Hin
      by (rewrite E; apply list_elem_of_here).
    apply elem_of_joining in Hin as (Hin & Hne & _ & Hsim).
    rewrite (Hd name other) in Hsim; [done|set_solver|done|done]. }
  simpl. apply IH. set_solver.
Qed.

Lemma members_snoc (groups : list (list string)) (group : list string) :
  members (groups ++ [group]) = members groups ∪ list_to_set group.
Proof. unfold members. rewrite map_app, union_list_app_L. simpl. set_solver. Qed.

Lemma followers_snoc (groups : list (list string)) (group : list string) :
  followers (groups ++ [group]) = followers groups ∪ list_to_set (tail group).
Proof. unfold followers. rewrite map_app, union_list_app_L. simpl. set_solver. Qed.

Lemma followers_members (groups : list (list string)) :
  followers groups ⊆ members groups.
Proof.
  unfold followers, members. induction groups as [|group groups IH]; [done|].
  simpl. assert (list_to_set (tail group) ⊆@{gset string} list_to_set group).
  { destruct group; set_solver. }
  set_solver.
Qed.

Lemma grouping_step (tech_names visited : list string)
    (groups : list (list string)) (processed : gset string) (name : string) :
  name ∈ tech_names ->
  grouping_inv tech_names visited groups processed ->
  if decide (name ∈ processed)
  then grouping_inv tech_names (visited ++ [name]) groups processed
  else
    let similar := name :: joining tech_names processed name in
    if (1 <? length similar)%nat
    then grouping_inv tech_names (visited ++ [name]) (groups ++ [similar])
           (processed ∪ list_to_set similar)
    else grouping_inv tech_names (visited ++ [name]) groups processed.
Proof.
  intros Hname (Hp & Hh & Hd).
  pose proof (followers_members groups) as Hfm.
  assert (forall b, b ∈ tech_names -> b <> name -> b ∉ followers groups ->
            b ∈ processed -> name ∉ processed ->
            similar_names name b = false) as Hold.
  { intros b Hb Hne Hnf Hbp Hnp. rewrite similar_names_sym.
    apply Hd; try done.
    - rewrite Hp in Hbp. destruct (Hh b Hbp); [done|done].
    - rewrite Hp in Hnp. set_solver. }
  case_decide as Hproc.
  - split; [done|]. split.
    + intros a Ha. destruct (Hh a Ha); [by left | right; set_solver].
    + intros a b Ha Hna Hb Hnb Hab.
      apply elem_of_app in Ha as [Ha | Ha]; [by apply Hd|].
      apply list_elem_of_singleton in Ha as ->.
      rewrite Hp in Hproc. destruct (Hh name Hproc); [done | by apply Hd].
  - cbv zeta. destruct (1 <? _)%nat eqn:Elen.
    + split; [by rewrite members_snoc, Hp|]. split.
      * intros a Ha. rewrite members_snoc in Ha. rewrite followers_snoc. simpl.
        apply elem_of_union in Ha as [Ha | Ha].
        -- destruct (Hh a Ha); [left | right]; set_solver.
        -- rewrite list_to_set_cons in Ha. set_solver.
      * intros a b Ha Hna Hb Hnb Hab. rewrite followers_snoc in Hna, Hnb.
        simpl in Hna, Hnb.
        apply not_elem_of_union in Hna as [Hna Hna'].
        apply not_elem_of_union in Hnb as [Hnb Hnb'].
        apply elem_of_app in Ha as [Ha | Ha]; [by apply Hd|].
        apply list_elem_of_singleton in Ha as ->.
        destruct (similar_names name b) eqn:Esim; [exfalso|done].
        destruct (decide (b ∈ processed)) as [Hbp | Hbp].
        -- by rewrite (Hold b) in Esim.
        -- apply Hnb'. rewrite elem_of_list_to_set. apply elem_of_joining.
           by repeat split.
    + split; [done|]. split.
      * intros a Ha. destruct (Hh a Ha); [by left | right; set_solver].
      * intros a b Ha Hna Hb Hnb Hab.
        apply elem_of_app in Ha as [Ha | Ha]; [by apply Hd|].
        apply list_elem_of_singleton in Ha as ->.
        destruct (similar_names name b) eqn:Esim; [exfalso|done].
        destruct (decide (b ∈ processed)) as [Hbp | Hbp].
        -- by rewrite (Hold b) in Esim.
        -- assert (b ∈ joining tech_names processed name) as Hj
             by (apply elem_of_joining; by repeat split).
           simpl in Elen. destruct (joining tech_names processed name); [|done].
           by apply not_elem_of_nil in Hj.
Qed.

(** At the end of the loop the names that follow no other in a group
    are dissimilar. *)
Lemma group_names_inv (tech_names todo visited : list string)
    (groups : list (list string)) (processed : gset string) :
  todo ⊆ tech_names ->
  grouping_inv tech_names visited groups processed ->
  exists processed',
    grouping_inv tech_names (visited ++ todo)
      (group_names tech_names todo groups processed) processed'.
Proof.
  revert visited groups processed.
  induction todo as [|name rest IH]; intros visited groups processed Hsub Hinv.
  - exists processed. by rewrite app_nil_r.
  - pose proof (grouping_step tech_names visited groups processed name
                  ltac:(set_solver) Hinv) as Hstep.
    cbn [group_names]. fold (joining tech_names processed name).
    replace (visited ++ name :: rest) with ((visited ++ [name]) ++ rest)
      by (by rewrite <- app_assoc).
    case_decide; [apply IH; [set_solver|done]|].
    cbv zeta in Hstep. destruct (1 <? _)%nat; apply IH; (set_solver || done).
Qed.

Lemma survivors_dissimilar (technologies : list Tech) (names : list string) :
  names ⊆ map name technologies ->
  (forall a, a ∈ names -> a ∉ followers (_group_similar_names technologies)) ->
  dissimilar names.
Proof.
  intros Hsub Hnot. unfold _group_similar_names in *.
  destruct (group_names_inv (map name technologies) (map name technologies) []
              [] ∅ ltac:(done)) as [processed (_ & _ & Hd)].
  { split; [done|]. split; [set_solver|]. intros a b Ha. by apply not_elem_of_nil in Ha. }
  intros a b Ha Hb Hab. apply Hd; auto.
Qed.

(** *** Applying the decisions *)

Lemma lookup_table_spec (technologies : list Tech) :
  keyed (lookup_table technologies)
  /\ (forall key tech, lookup_table technologies !! key = Some tech ->
        tech ∈ technologies)
  /\ (forall tech, tech ∈ technologies ->
        is_Some (lookup_table technologies !! name tech)).
Proof.
  unfold lookup_table.
  assert (forall (l : list Tech) (table : gmap string Tech),
    let table' := fold_left (fun table tech => <[name tech := tech]> table) l table in
    (keyed table -> keyed table')
    /\ (forall key tech, table' !! key = Some tech ->
          tech ∈ l \/ table !! key = Some tech)
    /\ (forall tech, tech ∈ l -> is_Some (table' !! name tech))
    /\ (forall key, is_Some (table !! key) -> is_Some (table' !! key))) as H.
  { induction l as [|t l IH]; intros table; cbv zeta.
    - simpl. repeat split; try done; [by right | by intros tech Hin; apply not_elem_of_nil in Hin].
    - simpl. destruct (IH (<[name t := t]> table)) as (H1 & H2 & H3 & H4).
      repeat split.
      + intros Hk. apply H1. intros key tech.
        rewrite lookup_insert. case_decide; [naive_solver | apply Hk].
      + intros key tech Hl. destruct (H2 key tech Hl) as [Hin | Hin]; [left; set_solver|].
        rewrite lookup_insert in Hin. case_decide; [left|by right].
        injection Hin as ->. set_solver.
      + intros tech Hin. apply elem_of_cons in Hin as [-> | Hin]; [|by apply H3].
        apply H4. rewrite lookup_insert_eq. by eexists.
      + intros key Hs. apply H4. rewrite lookup_insert. by case_decide. }
  destruct (H technologies ∅) as (H1 & H2 & H3 & _). repeat split.
  - by apply H1.
  - intros key tech Hl. by destruct (H2 key tech Hl).
  - done.
Qed.

Lemma merge_group_spec (table : gmap string Tech) (to_remove : gset string)
    (group : MergeGroup) (state : gmap string Tech * gset string) :
  merge_group (table, to_remove) group = inr state ->
  state.2 = to_remove ∪ list_to_set (merge_candidates group)
  /\ (keyed table -> keyed state.1)
  /\ (counted table -> counted state.1)
  /\ (forall key, is_Some (state.1 !! key) <-> is_Some (table !! key)).
Proof.
  unfold merge_group. destruct (table !! canonical_name group) as [tech|] eqn:El.
  - destruct (Z.eqb_spec (total_repos (metadata tech)) 0); [done|].
    intros [= <-]. simpl. repeat split.
    + intros Hk key t. rewrite lookup_insert. case_decide; [|apply Hk].
      intros [= <-]. subst key. simpl. by apply Hk.
    + intros Hc key t. rewrite lookup_insert. case_decide; [|apply Hc].
      by intros [= <-].
    + rewrite lookup_insert. case_decide; [subst key; by rewrite El|done].
    + rewrite lookup_insert. case_decide; [by eexists|done].
  - intros [= <-]. by repeat split.
Qed.

Lemma merge_all_spec (groups : list MergeGroup) (table : gmap string Tech)
    (to_remove : gset string) (state : gmap string Tech * gset string) :
  merge_all (table, to_remove) groups = inr state ->
  state.2 = to_remove ∪ candidates_of groups
  /\ (keyed table -> keyed state.1)
  /\ (forall key, is_Some (state.1 !! key) <-> is_Some (table !! key)).
Proof.
  revert table to_remove.
  induction groups as [|group groups IH]; intros table to_remove;
    cbn [merge_all].
  - intros [= <-]. simpl. unfold candidates_of. simpl.
    split; [set_solver|]. by split.
  - destruct (merge_group (table, to_remove) group) as [e|[table1 rm1]] eqn:Eg.
    { intros [=]. }
    intros Hall. apply merge_group_spec in Eg as (Hrm & Hk & _ & Hd). simpl in *.
    destruct (IH table1 rm1 Hall) as (Hrm' & Hk' & Hd').
    split; [|split].
    + rewrite Hrm', Hrm. unfold candidates_of. simpl. set_solver.
    + auto.
    + intros key. by rewrite Hd', Hd.
Qed.

Lemma merge_all_returns (groups : list MergeGroup) (table : gmap string Tech)
    (to_remove : gset string) :
  counted table -> is_Some (match merge_all (table, to_remove) groups with
                            | inr state => Some state | inl _ => None end).
Proof.
  revert table to_remove.
  induction groups as [|group groups IH]; intros table to_remove Hc;
    cbn [merge_all]; [by eexists|].
  destruct (merge_group (table, to_remove) group) as [e|[table1 rm1]] eqn:Eg.
  - exfalso. unfold merge_group in Eg.
    destruct (table !! canonical_name group) as [tech|] eqn:El; [|done].
    destruct (Z.eqb_spec (total_repos (metadata tech)) 0) as [Hz|]; [|done].
    by apply (Hc _ _ El).
  - apply IH. by apply (merge_group_spec _ _ _ _ Eg).
Qed.

Lemma consolidate_step (c : Consolidation) (table : gmap string Tech)
    (to_remove : gset string) :
  to_remove ⊆ (consolidate (table, to_remove) c).2
  /\ (keyed table -> keyed (consolidate (table, to_remove) c).1)
  /\ (forall key, is_Some ((consolidate (table, to_remove) c).1 !! key)
                  <-> is_Some (table !! key)).
Proof.
  unfold consolidate. simpl. split; [set_solver|].
  destruct (table !! parent c) as [tech|] eqn:El; [|done]. split.
  - intros Hk key t. rewrite lookup_insert.
    case_decide; [|apply Hk]. intros [= <-]. subst key. simpl. by apply Hk.
  - intros key. rewrite lookup_insert.
    case_decide; [subst key; rewrite El; split; by eexists|done].
Qed.

Lemma consolidate_spec (found : list Consolidation) (table : gmap string Tech)
    (to_remove : gset string) :
  let state := fold_left consolidate found (table, to_remove) in
  to_remove ⊆ state.2
  /\ (keyed table -> keyed state.1)
  /\ (forall key, is_Some (state.1 !! key) <-> is_Some (table !! key)).
Proof.
  revert table to_remove.
  induction found as [|c found IH]; intros table to_remove; cbv zeta; [done|].
  cbn [fold_left].
  destruct (consolidate_step c table to_remove) as (H1 & H2 & H3).
  destruct (consolidate (table, to_remove) c) as [table1 rm1].
  destruct (IH table1 rm1) as (H1' & H2' & H3'). simpl in *.
  split; [set_solver|]. split; [auto|]. intros key. by rewrite H3', H3.
Qed.

Lemma deprecate_step (d : Deprecation) (table : gmap string Tech) :
  (keyed table -> keyed (deprecate table d))
  /\ (forall key, is_Some (deprecate table d !! key) <-> is_Some (table !! key)).
Proof.
  unfold deprecate. destruct (table !! dep_name d) as [tech|] eqn:El; [|done].
  split.
  - intros Hk key t. rewrite lookup_insert.
    case_decide; [|apply Hk]. intros [= <-]. subst key. simpl. by apply Hk.
  - intros key. rewrite lookup_insert.
    case_decide; [subst key; rewrite El; split; by eexists|done].
Qed.

Lemma deprecate_spec (flagged : list Deprecation) (table : gmap string Tech) :
  let table' := fold_left deprecate flagged table in
  (keyed table -> keyed table')
  /\ (forall key, is_Some (table' !! key) <-> is_Some (table !! key)).
Proof.
  revert table. induction flagged as [|d flagged IH]; intros table; cbv zeta; [done|].
  cbn [fold_left]. destruct (deprecate_step d table) as (H1 & H2).
  destruct (IH (deprecate table d)) as (H1' & H2').
  split; [auto|]. intros key. by rewrite H2', H2.
Qed.

Lemma final_technologies_names (technologies : list Tech)
    (table : gmap string Tech) (to_remove : gset string) (key : string) :
  keyed table ->
  key ∈ map name (final_technologies technologies table to_remove) ->
  key ∈ map name technologies /\ key ∉ to_remove.
Proof.
  intros Hk Hin. apply list_elem_of_fmap in Hin as (tech' & -> & Hin).
  unfold final_technologies in Hin.
  apply list_elem_of_omap in Hin as (tech & Hin & Hl).
  case_bool_decide; [done|]. apply Hk in Hl. rewrite Hl.
  split; [|done]. apply list_elem_of_fmap. by exists tech.
Qed.

(** The names that [apply_filter_decisions] returns are names it was
    given, and none of them is a merge candidate. *)
Lemma apply_filter_decisions_names (technologies : list Tech)
    (decisions : Decisions) (curated : list Tech) (key : string) :
  apply_filter_decisions technologies decisions = inr curated ->
  key ∈ map name curated ->
  key ∈ map name technologies
  /\ key ∉ candidates_of (merge_groups decisions).
Proof.
  unfold apply_filter_decisions.
  destruct (merge_all _ _) as [e|[table1 rm1]] eqn:Em; [done|].
  apply merge_all_spec in Em as (Hrm & Hk & _). simpl in Hrm, Hk.
  pose proof (consolidate_spec (consolidations decisions) table1 rm1) as Hc.
  destruct (fold_left consolidate _ _) as [table2 rm2].
  cbv zeta in Hc. simpl in Hc. destruct Hc as (Hsub & Hk2 & _).
  pose proof (deprecate_spec (deprecated_list decisions) table2) as [Hk3 _].
  intros [= <-] Hin.
  apply final_technologies_names in Hin as [Hin Hnot].
  - split; [done|]. set_solver.
  - apply Hk3, Hk2, Hk, lookup_table_spec.
Qed.

(** [apply_filter_decisions] returns when every technology records a
    total of repositories that is not zero. *)
Lemma apply_filter_decisions_returns (technologies : list Tech)
    (decisions : Decisions) :
  (forall tech, tech ∈ technologies -> total_repos (metadata tech) <> 0) ->
  exists curated, apply_filter_decisions technologies decisions = inr curated.
Proof.
  intros Hnz. unfold apply_filter_decisions.
  assert (counted (lookup_table technologies)) as Hc.
  { intros key tech Hl. apply Hnz.
    by apply (proj1 (proj2 (lookup_table_spec technologies)) key). }
  pose proof (merge_all_returns (merge_groups decisions) (lookup_table technologies)
                (strategic_removals (strategic_decisions decisions)) Hc) as Hr.
  destruct (merge_all _ _) as [e|state]; [by destruct Hr|].
  destruct (fold_left consolidate _ _). by eexists.
Qed.

(** One merge group gives its canonical entry the sum of the counts that
    the table holds for the canonical name and the candidates, and
    leaves the other entries as they are. *)
Lemma merge_group_absorbs (table : gmap string Tech) (to_remove : gset string)
    (group : MergeGroup) (tech : Tech) :
  table !! canonical_name group = Some tech ->
  total_repos (metadata tech) <> 0 ->
  exists table' tech',
    merge_group (table, to_remove) group =
      inr (table', to_remove ∪ list_to_set (merge_candidates group))
    /\ table' !! canonical_name group = Some tech'
    /\ repos_count (metadata tech') =
         sum_counts table (canonical_name group :: merge_candidates group)
    /\ merged_from <$> filtering_metadata tech' =
         Some (Some (merge_candidates group))
    /\ (forall other, other <> canonical_name group ->
          table' !! other = table !! other).
Proof.
  intros Hl Hnz. unfold merge_group. rewrite Hl.
  destruct (Z.eqb_spec (total_repos (metadata tech)) 0); [done|].
  eexists _, _. split; [reflexivity|]. split; [apply lookup_insert_eq|].
  split; [done|]. split; [done|].
  intros other Hne. by rewrite lookup_insert_ne.
Qed.

(** *** A second run *)

Lemma candidates_of_snoc (groups : list MergeGroup) (group : MergeGroup) :
  candidates_of (groups ++ [group]) =
    candidates_of groups ∪ list_to_set (merge_candidates group).
Proof.
  unfold candidates_of. rewrite map_app, union_list_app_L. simpl. set_solver.
Qed.

Lemma detect_groups_whole {W : Type}
    (duplicate_oracle : list string -> W -> W * (exn + option MergeGroup))
    (potential : list (list string))
    (self : AITechnologyFilter) (merged : list MergeGroup) (w : W) :
  merges_onto_first duplicate_oracle ->
  candidates_of merged ∪ followers potential
  ⊆ candidates_of (detect_groups duplicate_oracle self potential merged w).2.
Proof.
  intros Horacle. revert self merged w.
  induction potential as [|group potential IH]; intros self merged w.
  - simpl. unfold followers. simpl. set_solver.
  - cbn [detect_groups]. unfold followers. cbn [map union_list].
    fold (followers potential).
    destruct (1 <? length group)%nat eqn:Elen.
    + unfold _detect_duplicates.
      destruct (Horacle group w) as (answer & Ha & Hd & _ & Hc).
      destruct (duplicate_oracle group w) as [w' r]. simpl in Ha. subst r.
      rewrite Hd. simpl.
      etrans; [|apply IH]. rewrite candidates_of_snoc, Hc. set_solver.
    + etrans; [|apply IH].
      assert (tail group = []) as ->; [|set_solver].
      destruct group as [|a [|b group]]; done.
Qed.

Section SecondRun.

Context {W : Type}
  (strategic_oracle : Tech -> W -> W * (exn + option StrategicAnswer))
  (duplicate_oracle : list string -> W -> W * (exn + option MergeGroup))
  (hierarchy_oracle : string -> list string -> W -> W * (exn + option HierarchyAnswer)).

Local Abbreviation filter_technologies :=
  (filter_technologies strategic_oracle duplicate_oracle hierarchy_oracle).

(** With that oracle the merge groups of a run take in every name that
    follows another in a group of similar names. *)
Lemma filter_technologies_whole (self : AITechnologyFilter)
    (technologies : list Tech) (w : W) :
  enabled self = true -> duplicate_detection self = true ->
  merges_onto_first duplicate_oracle ->
  followers (_group_similar_names technologies)
  ⊆ candidates_of (merge_groups (filter_technologies self technologies w).2).
Proof.
  intros He Hd Horacle. unfold AIFilter.filter_technologies. rewrite He. simpl.
  destruct (_evaluate_all_strategic_value _ _ _ _) as [[self1 w1] strategic] eqn:Es.
  assert (duplicate_detection self1 = true) as ->.
  { revert Es. unfold _evaluate_all_strategic_value.
    generalize (∅ : gmap string Decision). revert self w Hd He.
    induction technologies as [|tech technologies IH]; intros self w Hd He table.
    - by intros [= <- _ _].
    - cbn [evaluate_all].
      destruct (evaluate_one strategic_oracle self tech w) as [[self2 w2] d] eqn:Eo.
      assert (duplicate_detection self2 = true /\ enabled self2 = true) as [? ?].
      { revert Eo. unfold evaluate_one, _evaluate_strategic_value.
        repeat case_match; intros [= <- _ _]; simplify_eq; by split. }
      by apply IH. }
  unfold _detect_all_duplicates.
  pose proof (detect_groups_whole duplicate_oracle
                (_group_similar_names technologies) self1 [] w1 Horacle) as Hsub.
  destruct (detect_groups _ _ _ _ _) as [[self2 w2] groups].
  destruct (consolidation self2);
    [destruct (_detect_all_hierarchies _ _ _ _) as [[self3 w3] found]|];
    simpl in *; set_solver.
Qed.

(** A run on dissimilar names finds no merge group. *)
Lemma filter_technologies_dissimilar (self : AITechnologyFilter)
    (curated : list Tech) (w : W) :
  dissimilar (map name curated) ->
  merge_groups (filter_technologies self curated w).2 = [].
Proof.
  intros Hd. unfold AIFilter.filter_technologies.
  destruct (enabled self); [|done]. simpl.
  destruct (_evaluate_all_strategic_value _ _ _ _) as [[self1 w1] strategic].
  unfold _detect_all_duplicates, _group_similar_names.
  rewrite (group_names_dissimilar _ _ [] ∅ Hd) by done. simpl.
  destruct (duplicate_detection self1);
    destruct (consolidation self1);
    try destruct (_detect_all_hierarchies _ _ _ _) as [[self3 w3] found]; done.
Qed.

End SecondRun.

(** *** Two runs of the curation *)

(** C9, as stated, fails: the first run merges ECR into AWS ECR, which
    takes the 13 repositories of the two, and the second run, on what
    the first returned, finds AWS ECR and AWS similar and merges
    again. *)
Lemma curation_idempotence_counterexample :
  (curate values_all merges_onto_last keeps_separate default_filter registry tt).2
    = inr (curated_by merges_onto_last registry)
  /\ merges (curate values_all merges_onto_last keeps_separate default_filter
               registry tt).1 = [("AWS ECR", ["ECR"])]%string
  /\ summary (curated_by merges_onto_last registry)
     = [("AWS ECR", 13); ("AWS", 8)]%string
  /\ merges (curate values_all merges_onto_last keeps_separate default_filter
               (curated_by merges_onto_last registry) tt).1
     = [("AWS", ["AWS ECR"])]%string.
Proof. repeat split; by vm_compute. Qed.

(** C9, amended.  Applying the decisions removes every merge candidate;
    a merge group gives its canonical entry the sum of the counts held
    for the canonical name and its candidates, and leaves the other
    entries; a run on names of which no two different ones are similar
    produces no merge group; and that is the case for what a run
    returns when its oracle takes every group submitted for one
    technology named by the first member of the group: a second run
    then produces no merge group. *)
Theorem merging_idempotent_over_dissimilar_names :
  (forall (technologies : list Tech) (decisions : Decisions)
          (curated : list Tech) (group : MergeGroup) (candidate : string),
      apply_filter_decisions technologies decisions = inr curated ->
      group ∈ merge_groups decisions ->
      candidate ∈ merge_candidates group ->
      candidate ∉ map name curated) /\
  (forall (table : gmap string Tech) (to_remove : gset string)
          (group : MergeGroup) (tech : Tech),
      table !! canonical_name group = Some tech ->
      total_repos (metadata tech) <> 0 ->
      exists table' tech',
        merge_group (table, to_remove) group =
          inr (table', to_remove ∪ list_to_set (merge_candidates group))
        /\ table' !! canonical_name group = Some tech'
        /\ repos_count (metadata tech') =
             sum_counts table (canonical_name group :: merge_candidates group)
        /\ merged_from <$> filtering_metadata tech' =
             Some (Some (merge_candidates group))
        /\ (forall other, other <> canonical_name group ->
              table' !! other = table !! other)) /\
  (forall (W : Type)
          (strategic_oracle : Tech -> W -> W * (exn + option StrategicAnswer))
          (duplicate_oracle : list string -> W -> W * (exn + option MergeGroup))
          (hierarchy_oracle : string -> list string -> W -> W * (exn + option HierarchyAnswer))
          (self : AITechnologyFilter) (curated : list Tech) (w : W),
      dissimilar (map name curated) ->
      merge_groups (curate strategic_oracle duplicate_oracle hierarchy_oracle
                      self curated w).1 = []) /\
  (forall (W : Type)
          (strategic_oracle : Tech -> W -> W * (exn + option StrategicAnswer))
          (duplicate_oracle : list string -> W -> W * (exn + option MergeGroup))
          (hierarchy_oracle : string -> list string -> W -> W * (exn + option HierarchyAnswer))
          (self self' : AITechnologyFilter) (technologies curated : list Tech)
          (w w' : W),
      enabled self = true -> duplicate_detection self = true ->
      merges_onto_first duplicate_oracle ->
      (curate strategic_oracle duplicate_oracle hierarchy_oracle
         self technologies w).2 = inr curated ->
      dissimilar (map name curated)
      /\ merge_groups (curate strategic_oracle duplicate_oracle hierarchy_oracle
                         self' curated w').1 = []).
Proof.
  split; [|split; [|split]].
  - intros technologies decisions curated group candidate Happly Hg Hc Hin.
    apply (apply_filter_decisions_names _ _ _ _ Happly) in Hin as [_ Hnot].
    apply Hnot. unfold candidates_of. apply elem_of_union_list.
    exists (list_to_set (merge_candidates group)). split; [|set_solver].
    apply list_elem_of_fmap. by exists group.
  - apply merge_group_absorbs.
  - intros. by apply filter_technologies_dissimilar.
  - intros W so do ho self self' technologies curated w w' He Hd Horacle Hrun.
    assert (dissimilar (map name curated)) as Hdis.
    { apply (survivors_dissimilar technologies).
      - intros key Hin. by apply (apply_filter_decisions_names _ _ _ _ Hrun).
      - intros key Hin Hf.
        apply (apply_filter_decisions_names _ _ _ _ Hrun) in Hin as [_ Hnot].
        apply Hnot. by apply (filter_technologies_whole so do ho). }
    split; [done|]. by apply filter_technologies_dissimilar.
Qed.

Lemma merging_idempotent_over_dissimilar_names_witness :
  (enabled default_filter = true /\ duplicate_detection default_filter = true
   /\ merges_onto_first merges_onto_head
   /\ (curate values_all merges_onto_head keeps_separate default_filter
         registry tt).2 = inr (curated_by merges_onto_head registry))
  /\ summary (curated_by merges_onto_head registry) = [("ECR", 13); ("AWS", 8)]%string
  /\ merge_groups (curate values_all merges_onto_head keeps_separate default_filter
                     (curated_by merges_onto_head registry) tt).1 = [].
Proof.
  assert (merges_onto_first merges_onto_head) as Horacle.
  { intros group w. eexists. by repeat split. }
  assert ((curate values_all merges_onto_head keeps_separate default_filter
             registry tt).2 = inr (curated_by merges_onto_head registry)) as Hrun
    by (by vm_compute).
  split; [by repeat split|]. split; [by vm_compute|].
  destruct merging_idempotent_over_dissimilar_names as (_ & _ & _ & H).
  exact (proj2 (H unit values_all merges_onto_head keeps_separate default_filter
                  default_filter registry _ tt tt eq_refl eq_refl Horacle Hrun)).
Defined.

End FilterProps.

(** ** Counting in lists *)

Module ListFacts.

Import TemporalAnalyzer.

Lemma count_if_app {A : Type} (flag : A -> bool) (l1 l2 : list A) :
  count_if flag (l1 ++ l2) = count_if flag l1 + count_if flag l2.
Proof. induction l1 as [|x l1 IH]; simpl; [done|]. rewrite IH. lia. Qed.

Lemma count_if_filter {A : Type} (f : A -> bool) (l : list A) :
  Z.of_nat (length (List.filter f l)) = count_if f l.
Proof.
  induction l as [|x l IH]; simpl; [done|].
  destruct (f x); simpl; lia.
Qed.

Lemma count_if_of_filter {A : Type} (f g : A -> bool) (l : list A) :
  count_if f (List.filter g l) = count_if (fun x => g x && f x) l.
Proof.
  induction l as [|x l IH]; simpl; [done|].
  destruct (g x); simpl; by rewrite IH.
Qed.

Lemma count_if_ext {A : Type} (f g : A -> bool) (l : list A) :
  (forall x, f x = g x) -> count_if f l = count_if g l.
Proof. intros H. induction l as [|x l IH]; simpl; [done|]. by rewrite H, IH. Qed.

End ListFacts.

(** ** Rounding *)

Module RoundFacts.

Import FloatFacts.

Lemma round_half_even_floor (x : Q) :
  Qfloor x <= Float.round_half_even x <= Qfloor x + 1.
Proof.
  unfold Float.round_half_even.
  destruct (Float.ltb _ _); [lia|]. destruct (Float.gtb _ _); [lia|].
  destruct (Z.even _); lia.
Qed.

(** Rounding never crosses an integer. *)
Lemma round_half_even_lower (n : Z) (x : Q) :
  (inject_Z n <= x)%Q -> n <= Float.round_half_even x.
Proof.
  intros H. pose proof (round_half_even_floor x).
  pose proof (Qfloor_resp_le _ _ H) as Hf. rewrite Qfloor_Z in Hf. lia.
Qed.

Lemma round_half_even_upper (n : Z) (x : Q) :
  (x <= inject_Z n)%Q -> Float.round_half_even x <= n.
Proof.
  intros H. pose proof (round_half_even_floor x) as Hr.
  pose proof (Qfloor_resp_le _ _ H) as Hf. rewrite Qfloor_Z in Hf.
  destruct (decide (Qfloor x = n)) as [E|]; [|lia].
  unfold Float.round_half_even.
  destruct (ltb_reflect (x - inject_Z (Qfloor x)) 0.5) as [|Hn]; [lia|].
  exfalso. apply Hn. rewrite E. lra.
Qed.

Lemma round_half_even_Z (n : Z) : Float.round_half_even (inject_Z n) = n.
Proof.
  apply Z.le_antisymm.
  - apply round_half_even_upper. lra.
  - apply round_half_even_lower. lra.
Qed.

Lemma pow10_pos (ndigits : Z) : 0 <= ndigits -> (0 < inject_Z (10 ^ ndigits))%Q.
Proof. intros H. apply inject_pos. by apply Z.pow_pos_nonneg. Qed.

Lemma scaled_le (n : Z) (p x : Q) :
  (0 < p)%Q -> (inject_Z n / p <= x <-> inject_Z n <= x * p)%Q.
Proof.
  intros Hp. rewrite <- (Qmult_le_r _ _ p Hp).
  by setoid_replace (inject_Z n / p * p)%Q with (inject_Z n)
    using relation Qeq by (field; lra).
Qed.

Lemma scaled_ge (n : Z) (p x : Q) :
  (0 < p)%Q -> (x <= inject_Z n / p <-> x * p <= inject_Z n)%Q.
Proof.
  intros Hp. rewrite <- (Qmult_le_r _ _ p Hp).
  by setoid_replace (inject_Z n / p * p)%Q with (inject_Z n)
    using relation Qeq by (field; lra).
Qed.

(** A bound with at most [ndigits] decimals is kept by [round]. *)
Lemma round_lower (n ndigits : Z) (x : Q) :
  0 <= ndigits ->
  (inject_Z n / inject_Z (10 ^ ndigits) <= x)%Q ->
  (inject_Z n / inject_Z (10 ^ ndigits) <= Float.round x ndigits)%Q.
Proof.
  intros Hd H. pose proof (pow10_pos ndigits Hd) as Hp. unfold Float.round.
  apply scaled_le in H; [|done]. apply Qle_shift_div_l; [done|].
  setoid_replace (inject_Z n / inject_Z (10 ^ ndigits) * inject_Z (10 ^ ndigits))%Q
    with (inject_Z n) using relation Qeq by (field; lra).
  rewrite <- Zle_Qle. by apply round_half_even_lower.
Qed.

Lemma round_upper (n ndigits : Z) (x : Q) :
  0 <= ndigits ->
  (x <= inject_Z n / inject_Z (10 ^ ndigits))%Q ->
  (Float.round x ndigits <= inject_Z n / inject_Z (10 ^ ndigits))%Q.
Proof.
  intros Hd H. pose proof (pow10_pos ndigits Hd) as Hp. unfold Float.round.
  apply scaled_ge in H; [|done]. apply Qle_shift_div_r; [done|].
  setoid_replace (inject_Z n / inject_Z (10 ^ ndigits) * inject_Z (10 ^ ndigits))%Q
    with (inject_Z n) using relation Qeq by (field; lra).
  rewrite <- Zle_Qle. by apply round_half_even_upper.
Qed.

(** A value with at most [ndigits] decimals is its own rounding. *)
Lemma round_exact (n ndigits : Z) (x : Q) :
  0 <= ndigits ->
  (x == inject_Z n / inject_Z (10 ^ ndigits))%Q ->
  (Float.round x ndigits == x)%Q.
Proof.
  intros Hd H. set (b := (inject_Z n / inject_Z (10 ^ ndigits))%Q) in *.
  assert (x <= b)%Q as Hle by (rewrite H; apply Qle_refl).
  assert (b <= x)%Q as Hge by (rewrite H; apply Qle_refl).
  pose proof (round_upper n ndigits x Hd Hle).
  pose proof (round_lower n ndigits x Hd Hge).
  fold b in H0, H1. lra.
Qed.

End RoundFacts.

(** ** The classification of the technologies *)

Module DecisionProps.

Import RepoData TemporalAnalyzer Classifier Decision FloatFacts RoundFacts ListFacts.
Import DecisionSpec.

Lemma domain_dominance_table (entries : list (string * DomainMetrics))
    (decision : Z * Q) :
  domain_dominance entries = Some decision ->
  decision = (0, 0.9%Q) \/ decision = (1, 0.8%Q).
Proof.
  induction entries as [|[d metrics] entries IH]; [done|].
  cbn [domain_dominance]. repeat case_match; naive_solver.
Qed.

Lemma global_ring_table (usage recency activity : Q) (trend : Trend) :
  global_ring_decision usage recency activity trend ∈ ring_table.
Proof.
  unfold global_ring_decision, ring_table. repeat case_match; set_solver.
Qed.

Lemma ring_decision_table (usage recency activity : Q) (trend : Trend)
    (temporal_data : TemporalData) :
  _smart_ring_decision usage recency activity trend temporal_data ∈ ring_table.
Proof.
  unfold _smart_ring_decision.
  destruct (match by_domain temporal_data with
            | Some (entry :: entries) => domain_dominance (entry :: entries)
            | _ => None
            end) as [decision|] eqn:E; [|apply global_ring_table].
  assert (decision = (0, 0.9%Q) \/ decision = (1, 0.8%Q)) as [-> | ->].
  { destruct (by_domain temporal_data) as [[|entry entries]|]; try done.
    by eapply domain_dominance_table. }
  all: unfold ring_table; set_solver.
Qed.

Lemma ring_table_named (decision : Z * Q) :
  decision ∈ ring_table -> is_Some (RINGS decision.1).
Proof.
  unfold ring_table. rewrite !elem_of_cons, elem_of_nil.
  intros [-> | [-> | [-> | [-> | []]]]]; by eexists.
Qed.

(** X1.  Whatever the scores and the breakdown, the ring decision is
    one of Adopt with confidence 0.9, Trial with 0.8, Assess with 0.6
    and Hold with 0.85: the ring always has a name in [RINGS], so that
    the prompt can be built. *)
Theorem ring_decision_named (usage recency activity : Q) (trend : Trend)
    (temporal_data : TemporalData) :
  let decision :=
    _smart_ring_decision usage recency activity trend temporal_data in
  decision ∈ ring_table /\ is_Some (RINGS decision.1).
Proof.
  cbv zeta. split; [apply ring_decision_table|].
  apply ring_table_named, ring_decision_table.
Qed.

(** *** The quadrant of a name *)

Lemma append_assoc (a b c : string) :
  String.append (String.append a b) c = String.append a (String.append b c).
Proof.
  induction a as [|x a IH]; [done|]. exact (f_equal (String x) IH).
Qed.

Lemma contains_trans (a b s : string) :
  Str.contains a b = true -> Str.contains b s = true -> Str.contains a s = true.
Proof.
  rewrite !FilterProps.contains_spec.
  intros (pre1 & post1 & ->) (pre2 & post2 & ->).
  exists (String.append pre2 pre1), (String.append post1 post2).
  by rewrite !append_assoc.
Qed.

(** X11.  The keywords of the languages and frameworks are tried first
    and [go] is one of them: a name that contains [mongodb], in any
    case of the letters, is given the quadrant of the languages and
    frameworks, and the platform keyword [mongodb] decides for no
    name. *)
Theorem infer_quadrant_mongodb (tech_name : string) :
  Str.contains "mongodb" (Str.lower tech_name) = true ->
  QUADRANTS (_infer_quadrant tech_name) = Some "Languages & Frameworks"%string.
Proof.
  intros H. unfold _infer_quadrant.
  assert (Str.any_in (languages ++ frameworks) (Str.lower tech_name) = true)
    as ->; [|done].
  apply FilterProps.any_in_spec. exists "go"%string. split.
  - unfold languages. set_solver.
  - by apply (contains_trans _ "mongodb").
Qed.

Lemma infer_quadrant_mongodb_witness :
  QUADRANTS (_infer_quadrant "MongoDB") = Some "Languages & Frameworks"%string.
Proof. by apply infer_quadrant_mongodb. Defined.

(** *** The suggestions per domain *)

Lemma suggest_named (metrics : DomainMetrics) :
  exists suggestion,
    suggest metrics = Some suggestion
    /\ RINGS (suggested_ring suggestion) = Some (ring_name suggestion)
    /\ suggestion_total_repos suggestion = dom_total_repos metrics.
Proof.
  unfold suggest.
  pose proof (ring_decision_table
    (Float.min (inject_Z (dom_total_repos metrics) / 10.0)%Q 1.0)
    (dom_recency_score metrics) (dom_activity_score metrics)
    (dom_trend metrics) (metrics_profile metrics)) as Hin.
  destruct (_smart_ring_decision _ _ _ _ _) as [ring confidence].
  destruct (ring_table_named _ Hin) as [ring_name Hname]. cbn [fst] in Hname.
  rewrite Hname. by eexists.
Qed.

(** Every entry of the breakdown gets its suggestion. *)
Lemma domain_breakdown_defined (entries : list (string * DomainMetrics)) :
  exists suggestions,
    _analyze_domain_breakdown entries = Some suggestions
    /\ Forall2
         (fun entry suggestion =>
            suggestion.1 = entry.1
            /\ suggestion_total_repos suggestion.2 = dom_total_repos entry.2
            /\ RINGS (suggested_ring suggestion.2) = Some (ring_name suggestion.2))
         entries suggestions.
Proof.
  induction entries as [|[d metrics] entries (suggestions & IH & Hall)].
  - exists []. by split.
  - destruct (suggest_named metrics) as (suggestion & Hs & Hname & Htotal).
    exists ((d, suggestion) :: suggestions). cbn [_analyze_domain_breakdown].
    rewrite Hs, IH. split; [done|]. by constructor.
Qed.

(** X2.  The breakdown of the suggestions never fails on a ring without
    a name: every domain of the analysis gets one suggestion, in the
    order of the analysis, for the number of repositories of the domain
    and with the name of the ring that it suggests. *)
Theorem domain_breakdown_total (entries : list (string * DomainMetrics)) :
  exists suggestions,
    _analyze_domain_breakdown entries = Some suggestions
    /\ Forall2
         (fun entry suggestion =>
            suggestion.1 = entry.1
            /\ suggestion_total_repos suggestion.2 = dom_total_repos entry.2
            /\ RINGS (suggested_ring suggestion.2) = Some (ring_name suggestion.2))
         entries suggestions.
Proof. exact (domain_breakdown_defined entries). Qed.

(** X3.  In the breakdown four repositories of a domain, half of them
    active, are enough for the suggestion Adopt with confidence 0.9,
    while as long as the domain has fewer than 20 repositories it has no
    say in the ring of the technology itself. *)
Theorem domain_suggestion_adopt (d : string) (metrics : DomainMetrics)
    (rest : list (string * DomainMetrics)) :
  4 <= dom_total_repos metrics -> (0.5 <= dom_activity_score metrics)%Q ->
  (exists suggestion,
      suggest metrics = Some suggestion
      /\ suggested_ring suggestion = 0
      /\ ring_name suggestion = "Adopt"%string
      /\ (suggestion_confidence suggestion == 0.9)%Q)
  /\ (dom_total_repos metrics < 20 ->
      domain_dominance ((d, metrics) :: rest) = domain_dominance rest).
Proof.
  intros Htotal Hactive. split.
  - unfold suggest, _smart_ring_decision, metrics_profile. cbn [by_domain].
    unfold global_ring_decision.
    assert (Float.geb (Float.min (inject_Z (dom_total_repos metrics) / 10.0) 1.0) 0.4
            = true) as ->.
    { assert (4 <= inject_Z (dom_total_repos metrics))%Q
        by (change 4%Q with (inject_Z 4); by rewrite <- Zle_Qle).
      unfold Float.min.
      destruct (ltb_reflect 1.0 (inject_Z (dom_total_repos metrics) / 10.0));
        destruct (geb_reflect 1.0 0.4), 
          (geb_reflect (inject_Z (dom_total_repos metrics) / 10.0) 0.4);
        try done; exfalso; try lra.
      apply n0. apply Qle_shift_div_l; lra. }
    destruct (geb_reflect (dom_activity_score metrics) 0.5); [|done].
    cbn. eexists. split; [done|]. repeat split; by vm_compute.
  - intros Hsmall. cbn [domain_dominance].
    destruct (Z.leb_spec 20 (dom_total_repos metrics)); [lia|done].
Qed.

Lemma domain_suggestion_adopt_witness :
  (4 <= dom_total_repos small_domain
   /\ (0.5 <= dom_activity_score small_domain)%Q)
  /\ exists suggestion,
       suggest small_domain = Some suggestion
       /\ suggested_ring suggestion = 0
       /\ ring_name suggestion = "Adopt"%string
       /\ (suggestion_confidence suggestion == 0.9)%Q.
Proof.
  assert (4 <= dom_total_repos small_domain) as H1 by (simpl; lia).
  assert (0.5 <= dom_activity_score small_domain)%Q as H2 by (by vm_compute).
  split; [by split|].
  exact (proj1 (domain_suggestion_adopt "mobile" small_domain [] H1 H2)).
Defined.

(** *** The threshold per domain *)

Lemma get_count_domain (counts : list (string * Z)) (d d' : string) :
  get (count_domain counts d) d' =
    get counts d' + (if decide (d = d') then 1 else 0).
Proof.
  induction counts as [|[d0 n] counts IH]; simpl.
  - repeat case_decide; congruence || lia.
  - destruct (decide (d0 = d)) as [->|]; simpl; repeat case_decide;
      try congruence; try lia. 
Qed.

Lemma count_domain_keys (counts : list (string * Z)) (d : string) :
  NoDup counts.*1 -> Forall (fun entry => 0 < entry.2) counts ->
  NoDup (count_domain counts d).*1
  /\ Forall (fun entry => 0 < entry.2) (count_domain counts d)
  /\ (forall x, x ∈ (count_domain counts d).*1 -> x ∈ counts.*1 \/ x = d).
Proof.
  induction counts as [|[d0 n] counts IH]; simpl; intros Hnd Hpos.
  - split; [apply NoDup_singleton|]. split; [by repeat constructor|]. set_solver.
  - apply NoDup_cons in Hnd as [Hnotin Hnd].
    apply Forall_cons in Hpos as [Hn Hpos]. cbn [snd] in Hn.
    destruct (decide (d0 = d)) as [->|Hne]; simpl.
    + split; [by apply NoDup_cons|]. split; [constructor; [simpl; lia|done]|].
      set_solver.
    + destruct (IH Hnd Hpos) as (IH1 & IH2 & IH3).
      split; [|split; [by constructor|set_solver]].
      apply NoDup_cons. split; [|done]. intros Hin.
      destruct (IH3 _ Hin) as [Hin'|Heq]; [by apply Hnotin|by apply Hne].
Qed.

Lemma domain_counts_inv (tech_name : string) (repo_details : list RepoDetail) :
  let counts := domain_counts tech_name repo_details in
  NoDup counts.*1
  /\ Forall (fun entry => 0 < entry.2) counts
  /\ forall d, get counts d = repos_in_domain tech_name d repo_details.
Proof.
  induction repo_details as [|repo repo_details IH] using rev_ind.
  - cbv zeta. split; [constructor|]. by split.
  - cbv zeta in *. destruct IH as (Hnd & Hpos & Hget).
    unfold domain_counts in *. rewrite fold_left_app. cbn [fold_left].
    unfold repos_in_domain in *. setoid_rewrite count_if_app. cbn [count_if].
    destruct (uses tech_name repo).
    + destruct (count_domain_keys _ (domain_of repo) Hnd Hpos) as (H1 & H2 & _).
      split; [done|]. split; [done|]. intros d.
      rewrite get_count_domain, Hget. cbn [andb].
      destruct (decide (domain_of repo = d)); case_bool_decide; try done; lia.
    + split; [done|]. split; [done|]. intros d. rewrite Hget. simpl. lia.
Qed.

Lemma elem_of_get (counts : list (string * Z)) (d : string) (n : Z) :
  NoDup counts.*1 -> (d, n) ∈ counts -> get counts d = n.
Proof.
  induction counts as [|[d0 n0] counts IH]; simpl; intros Hnd Hin.
  - by apply elem_of_nil in Hin.
  - apply NoDup_cons in Hnd as [Hnotin Hnd].
    apply elem_of_cons in Hin as [[= -> ->]|Hin].
    + by rewrite decide_True.
    + rewrite decide_False; [by apply IH|]. intros ->. apply Hnotin.
      apply list_elem_of_fmap. by exists (d, n).
Qed.

Lemma get_elem_of (counts : list (string * Z)) (d : string) :
  get counts d <> 0 -> (d, get counts d) ∈ counts.
Proof.
  induction counts as [|[d0 n0] counts IH]; simpl; [done|].
  destruct (decide (d0 = d)) as [->|]; intros H; [left|right; by apply IH].
Qed.

Lemma meets_threshold_iff (tech_name : string) (total_count : Z)
    (repo_details : list RepoDetail) (default_min_repos : Z)
    (min_repos_by_domain : gmap string Z) :
  _meets_domain_threshold tech_name total_count repo_details
    default_min_repos min_repos_by_domain = true
  <-> default_min_repos <= total_count
      \/ exists d,
           0 < repos_in_domain tech_name d repo_details
           /\ threshold default_min_repos min_repos_by_domain d
              <= repos_in_domain tech_name d repo_details.
Proof.
  unfold _meets_domain_threshold, threshold.
  destruct (domain_counts_inv tech_name repo_details) as (Hnd & Hpos & Hget).
  destruct (Z.leb_spec default_min_repos total_count) as [Hle|Hlt].
  { split; [by left|done]. }
  rewrite existsb_exists. split.
  - intros ([d n] & Hin & Htest). right. exists d.
    apply list_elem_of_In in Hin.
    rewrite <- Hget, (elem_of_get _ _ _ Hnd Hin).
    rewrite Forall_forall in Hpos. specialize (Hpos _ Hin).
    cbn [fst snd] in *. split; [done|]. by apply Z.leb_le.
  - intros [Hle|(d & Hpos' & Hthr)]; [lia|].
    exists (d, repos_in_domain tech_name d repo_details). split.
    + apply list_elem_of_In. rewrite <- Hget. apply get_elem_of.
      rewrite Hget. lia.
    + by apply Z.leb_le.
Qed.

(** X4.  A technology passes the threshold exactly when its count
    reaches the default minimum, or when some domain in which it is used
    holds as many of its repositories as the threshold of that domain
    asks for (the default minimum where the domain has none of its own):
    the dictionary built by the loop holds, for each domain, the number
    of repositories of the domain that use the technology. *)
Theorem meets_domain_threshold_exact (tech_name : string) (total_count : Z)
    (repo_details : list RepoDetail) (default_min_repos : Z)
    (min_repos_by_domain : gmap string Z) :
  _meets_domain_threshold tech_name total_count repo_details
    default_min_repos min_repos_by_domain = true
  <-> default_min_repos <= total_count
      \/ exists d,
           0 < repos_in_domain tech_name d repo_details
           /\ threshold default_min_repos min_repos_by_domain d
              <= repos_in_domain tech_name d repo_details.
Proof. apply meets_threshold_iff. Qed.

Lemma meets_domain_threshold_exact_witness :
  _meets_domain_threshold "Terraform" 1 three_repos 2
    {[ "infrastructure"%string := 1 ]} = true.
Proof.
  apply (meets_domain_threshold_exact "Terraform" 1 three_repos 2
           {[ "infrastructure"%string := 1 ]}).
  right. exists "infrastructure"%string. by vm_compute.
Defined.

Lemma repos_in_domain_le (tech_name d : string) (repo_details : list RepoDetail) :
  repos_in_domain tech_name d repo_details <= count_if (uses tech_name) repo_details.
Proof.
  apply TrendProps.count_if_mono. intros repo _ H. by apply andb_true_iff in H as [? _].
Qed.

(** X5.  The thresholds of the domains can only let more technologies
    through: when none of them is below the default minimum, and the
    count of the technology is at least the number of repositories that
    use it, the test is that of the default minimum alone. *)
Theorem domain_thresholds_only_loosen (tech_name : string) (total_count : Z)
    (repo_details : list RepoDetail) (default_min_repos : Z)
    (min_repos_by_domain : gmap string Z) :
  (forall d n, min_repos_by_domain !! d = Some n -> default_min_repos <= n) ->
  count_if (uses tech_name) repo_details <= total_count ->
  _meets_domain_threshold tech_name total_count repo_details
    default_min_repos min_repos_by_domain
  = (default_min_repos <=? total_count).
Proof.
  intros Hthr Hcount.
  destruct (Z.leb_spec default_min_repos total_count) as [Hle|Hlt].
  { apply meets_threshold_iff. by left. }
  apply not_true_is_false. rewrite meets_threshold_iff.
  intros [?|(d & _ & Hd)]; [lia|].
  pose proof (repos_in_domain_le tech_name d repo_details).
  unfold threshold in Hd.
  destruct (min_repos_by_domain !! d) as [n|] eqn:E; simpl in Hd.
  - specialize (Hthr _ _ E). lia.
  - lia.
Qed.

Lemma domain_thresholds_only_loosen_witness :
  _meets_domain_threshold "Django" 1 three_repos 2
    {[ "infrastructure"%string := 3 ]} = (2 <=? 1).
Proof.
  apply domain_thresholds_only_loosen.
  - intros d n H. apply lookup_singleton_Some in H as [_ <-]. lia.
  - by vm_compute.
Defined.

(** *** One classification *)

Lemma convert_ai_confidence_values (label : string) :
  _convert_ai_confidence label ∈ ai_confidence_values.
Proof.
  unfold _convert_ai_confidence, ai_confidence_values.
  repeat case_decide; set_solver.
Qed.

(** The blend of a ring confidence and a converted confidence of the
    model has at most three decimals, is never 0.75 and stays between
    0.3 and 0.94. *)
Lemma calculate_confidence_values (usage_score recency_score activity_score : Q)
    (temporal_data : TemporalData) (decision : Z * Q) (ai_confidence : Q) :
  decision ∈ ring_table -> ai_confidence ∈ ai_confidence_values ->
  let confidence :=
    _calculate_confidence usage_score recency_score activity_score
      temporal_data decision.2 ai_confidence in
  (0.3 <= confidence /\ confidence <= 0.94
   /\ Float.round confidence 3 == confidence /\ ~ confidence == 0.75)%Q.
Proof.
  unfold ring_table, ai_confidence_values. rewrite !elem_of_cons, !elem_of_nil.
  intros Hd Ha. cbv zeta. unfold _calculate_confidence.
  destruct (Float.gtb usage_score 0.7 || Float.ltb usage_score 0.1),
    (Float.gtb activity_score 0.8 || Float.ltb activity_score 0.2),
    (bool_decide (trend temporal_data ∈ [GROWING; ABANDONED])),
    (5 <=? total_repos temporal_data);
    destruct Hd as [-> | [-> | [-> | [-> | []]]]];
    destruct Ha as [-> | [-> | [-> | [-> | []]]]];
    by vm_compute.
Qed.

Lemma high_round (confidence : Q) :
  (Float.round confidence 3 == confidence)%Q ->
  Float.geb (Float.round confidence 3) 0.75 = negb (Float.ltb confidence 0.75).
Proof.
  intros E.
  destruct (geb_reflect (Float.round confidence 3) 0.75) as [H|H],
    (ltb_reflect confidence 0.75) as [H'|H']; try done; exfalso; lra.
Qed.

Lemma review_need_low (confidence : Q) (temporal_data : TemporalData)
    (usage_score : Q) (ring : Z) :
  Float.ltb confidence 0.75 = true ->
  _determine_review_need confidence temporal_data usage_score ring =
    (true, Some "Low confidence classification"%string).
Proof. unfold _determine_review_need. by intros ->. Qed.

(** *** The order of the counts *)

Lemma insert_by_count_perm (entry : string * Z) (sorted : list (string * Z)) :
  insert_by_count entry sorted ≡ₚ entry :: sorted.
Proof.
  induction sorted as [|first rest IH]; simpl; [done|].
  case_match; [done|]. rewrite IH. apply Permutation_swap.
Qed.

Lemma sorted_by_count_perm (items : list (string * Z)) :
  sorted_by_count items ≡ₚ items.
Proof.
  unfold sorted_by_count.
  enough (forall acc,
    fold_left (fun sorted entry => insert_by_count entry sorted) items acc
    ≡ₚ acc ++ items) as H by apply (H []).
  induction items as [|entry items IH]; intros acc; simpl.
  - by rewrite app_nil_r.
  - rewrite IH, insert_by_count_perm. simpl. apply Permutation_middle.
Qed.

Lemma insert_by_count_Forall (P : Z -> Prop) (entry : string * Z)
    (sorted : list (string * Z)) :
  P entry.2 -> Forall P sorted.*2 -> Forall P (insert_by_count entry sorted).*2.
Proof.
  intros He Hs. eapply Forall_fmap, Forall_forall. intros x Hx.
  rewrite insert_by_count_perm in Hx.
  apply elem_of_cons in Hx as [->|Hx]; [done|].
  rewrite Forall_fmap, Forall_forall in Hs. by apply Hs.
Qed.

Lemma insert_by_count_descending (entry : string * Z)
    (sorted : list (string * Z)) :
  descending sorted.*2 -> descending (insert_by_count entry sorted).*2.
Proof.
  induction sorted as [|first rest IH]; simpl; [done|].
  intros [Hall Hrest]. destruct (Z.ltb_spec first.2 entry.2); simpl.
  - split; [|done]. constructor; [lia|].
    eapply Forall_impl; [exact Hall|]. simpl. lia.
  - split; [|by apply IH]. apply insert_by_count_Forall; [lia|done].
Qed.

Lemma sorted_by_count_descending (items : list (string * Z)) :
  descending (sorted_by_count items).*2.
Proof.
  unfold sorted_by_count.
  enough (forall acc, descending acc.*2 ->
    descending
      (fold_left (fun sorted entry => insert_by_count entry sorted) items acc).*2)
    as H by (by apply H).
  induction items as [|entry items IH]; intros acc Hacc; simpl; [done|].
  by apply IH, insert_by_count_descending.
Qed.

Lemma descending_sublist (l1 l2 : list Z) :
  l1 `sublist_of` l2 -> descending l2 -> descending l1.
Proof.
  induction 1 as [|x l1 l2 Hsub IH|x l1 l2 Hsub IH]; simpl; [done| |].
  - intros [Hall Hrest]. split; [|by apply IH].
    apply Forall_forall. intros y Hy. rewrite Forall_forall in Hall.
    apply Hall. by apply (sublist_subseteq _ _ Hsub).
  - intros [_ Hrest]. by apply IH.
Qed.

Lemma filter_sublist {A : Type} (f : A -> bool) (l : list A) :
  List.filter f l `sublist_of` l.
Proof.
  induction l as [|x l IH]; simpl; [done|].
  destruct (f x); by constructor.
Qed.

Lemma filter_perm {A : Type} (f : A -> bool) (l1 l2 : list A) :
  l1 ≡ₚ l2 -> List.filter f l1 ≡ₚ List.filter f l2.
Proof.
  induction 1 as [|x l1 l2 _ IH|x y l|l1 l2 l3 _ IH1 _ IH2]; simpl.
  - done.
  - destruct (f x); by rewrite IH.
  - destruct (f x), (f y); try done. apply Permutation_swap.
  - by rewrite IH1.
Qed.

Lemma filter_split {A : Type} (f : A -> bool) (l : list A) :
  List.filter f l ++ List.filter (fun x => negb (f x)) l ≡ₚ l.
Proof.
  induction l as [|x l IH]; simpl; [done|].
  destruct (f x); simpl.
  - by rewrite IH.
  - by rewrite <- Permutation_middle, IH.
Qed.

(** *** The two lists *)

Section Classify.

Context {W : Type}
  (fnmatch : string -> string -> bool)
  (ai_oracle : string -> Q -> TemporalData -> Z -> W -> W * option AIResult).

Lemma classify_single_inv (config : Config) (tech_name : string)
    (count total_repos : Z) (usage_percentage : Q)
    (temporal_data : TemporalData) (w : W) :
  let result :=
    _classify_single_enhanced ai_oracle config tech_name count total_repos
      usage_percentage temporal_data w in
  (forall c, result.2 = Some c -> key c = (tech_name, count) /\ well_scored c)
  /\ (replies_typed ai_oracle -> is_Some result.2).
Proof.
  cbv zeta. unfold _classify_single_enhanced.
  pose proof (ring_decision_table (usage_percentage / 100)
    (recency_score temporal_data) (activity_score temporal_data)
    (trend temporal_data) temporal_data) as Hin.
  destruct (_smart_ring_decision _ _ _ _ _) as [ring ring_confidence].
  destruct (ring_table_named _ Hin) as [ring_name Hname]. cbn [fst] in Hname.
  unfold _get_ai_classification. rewrite Hname.
  assert (forall reply,
    (ai_oracle tech_name usage_percentage temporal_data ring w).2 = Some reply ->
    replies_typed ai_oracle -> string_confidence reply) as Htyped.
  { intros reply E H. by eapply H. }
  destruct (ai_oracle tech_name usage_percentage temporal_data ring w)
    as [w' reply]. cbn [snd] in Htyped.
  set (ai_result :=
    match reply with
    | Some result => of_reply result
    | None => _fallback_classification tech_name usage_percentage ring
    end).
  assert (replies_typed ai_oracle ->
          exists label,
            default (JStr "medium") (ai_confidence_key ai_result) = JStr label)
    as Hlabel.
  { intros H. unfold ai_result. destruct reply as [reply|]; [|by eexists].
    specialize (Htyped reply eq_refl H). unfold string_confidence in Htyped.
    unfold of_reply. cbn [ai_confidence_key].
    destruct (ai_confidence reply) as [[label| |]|]; try done; by eexists. }
  assert (match reply with
          | Some result => (w', Some (of_reply result))
          | None => (w', Some (_fallback_classification tech_name
                                 usage_percentage ring))
          end = (w', Some ai_result)) as -> by (by destruct reply).
  clearbody ai_result.
  destruct (domain_breakdown_defined
              (match by_domain temporal_data with
               | Some entries => entries | None => [] end))
    as (suggestions & Hsug & _).
  assert (exists domain_breakdown,
    match by_domain temporal_data with
    | Some (entry :: entries) =>
        match _analyze_domain_breakdown (entry :: entries) with
        | Some [] => Some None
        | Some suggestions => Some (Some suggestions)
        | None => None
        end
    | _ => Some None
    end = Some domain_breakdown) as [domain_breakdown ->].
  { destruct (by_domain temporal_data) as [[|entry entries]|];
      [by eexists| |by eexists].
    rewrite Hsug. destruct suggestions; by eexists. }
  destruct (default (JStr "medium") (ai_confidence_key ai_result))
    as [label| |] eqn:El.
  2,3: split; [done|]; intros H; destruct (Hlabel H) as [? ?]; done.
  pose proof (calculate_confidence_values (usage_percentage / 100)
    (recency_score temporal_data) (activity_score temporal_data) temporal_data
    (ring, ring_confidence) (_convert_ai_confidence label) Hin
    (convert_ai_confidence_values label)) as Hconf.
  cbv zeta in Hconf. cbn [snd] in Hconf.
  set (confidence := _calculate_confidence _ _ _ _ _ _) in *.
  destruct Hconf as (Hlo & Hhi & Hround & Hne).
  pose proof (review_need_low confidence temporal_data (usage_percentage / 100)
    ring) as Hrev.
  destruct (_determine_review_need _ _ _ _) as [needs reason].
  split; [|by eexists].
  intros c [= <-]. split; [done|]. unfold well_scored, high. cbn.
  rewrite (high_round _ Hround).
  split; [split; lra|]. split; [by eexists|]. split.
  - intros Hlow. apply negb_false_iff in Hlow.
    by pose proof (Hrev Hlow) as [= -> ->].
  - by intros ->.
Qed.

Lemma classify_one_cases (config : Config) (total_repos : Z)
    (repo_details : list RepoDetail)
    (lists : list Classification * list Classification) (entry : string * Z)
    (w : W) :
  let result :=
    classify_one fnmatch ai_oracle config total_repos repo_details lists entry w in
  (result.1 = lists
   \/ exists c,
        eligible fnmatch config repo_details entry = true
        /\ key c = entry /\ well_scored c /\ result.1 = push lists c)
  /\ (eligible fnmatch config repo_details entry = false \/ total_repos = 0 ->
      result = (lists, w))
  /\ (total_repos <> 0 -> replies_typed ai_oracle ->
      eligible fnmatch config repo_details entry = true ->
      exists c, key c = entry /\ well_scored c /\ result.1 = push lists c).
Proof.
  cbv zeta. unfold classify_one, eligible. destruct entry as [tech_name count].
  cbn [fst snd].
  destruct (_meets_domain_threshold _ _ _ _ _); cbn [negb andb];
    [|by repeat split; auto].
  destruct (_should_exclude _ _ _); cbn [negb];
    [by repeat split; auto|].
  destruct (Z.eqb_spec total_repos 0) as [->|Hne];
    [by repeat split; auto|].
  pose proof (classify_single_inv config tech_name count total_repos
    (Float.div count total_repos * 100)
    (analyze_technology tech_name repo_details) w) as [Hsome Htyped].
  cbv zeta in Hsome, Htyped.
  destruct (_classify_single_enhanced _ _ _ _ _ _ _ _) as [w' [c|]];
    cbn [snd] in Hsome, Htyped.
  - destruct (Hsome c eq_refl) as [Hkey Hscored].
    assert ((if Float.geb (confidence c) 0.75
             then (lists.1 ++ [c], lists.2, w')
             else (lists.1, lists.2 ++ [c], w')) = (push lists c, w')) as ->.
    { unfold push, high. by destruct (Float.geb _ _). }
    split; [right; by exists c|]. split; [by intros [?|?]|].
    intros _ _ _. by exists c.
  - split; [by left|]. split; [by intros [?|?]|].
    intros _ H _. by destruct (Htyped H).
Qed.

Lemma classify_all_spec (config : Config) (total_repos : Z)
    (repo_details : list RepoDetail) (entries : list (string * Z))
    (lists : list Classification * list Classification) (w : W) :
  exists cs,
    (classify_all fnmatch ai_oracle config total_repos repo_details lists
       entries w).1
    = (lists.1 ++ List.filter high cs,
       lists.2 ++ List.filter (fun c => negb (high c)) cs)
    /\ key <$> cs
       `sublist_of` List.filter (eligible fnmatch config repo_details) entries
    /\ Forall well_scored cs
    /\ (total_repos <> 0 -> replies_typed ai_oracle ->
        key <$> cs = List.filter (eligible fnmatch config repo_details) entries).
Proof.
  revert lists w. induction entries as [|entry entries IH]; intros lists w.
  - exists []. simpl. rewrite !app_nil_r. by destruct lists.
  - cbn [classify_all List.filter].
    pose proof (classify_one_cases config total_repos repo_details lists entry w)
      as (Hcases & Hskip & Hpush). cbv zeta in Hcases, Hskip, Hpush.
    destruct (classify_one _ _ _ _ _ _ _ _) as [lists1 w1].
    cbn [fst] in Hcases, Hpush.
    destruct (IH lists1 w1) as (cs & Heq & Hsub & Hall & Hfull).
    rewrite Heq.
    destruct (eligible fnmatch config repo_details entry) eqn:Eel.
    + destruct Hcases as [->|(c & _ & Hkey & Hscored & ->)].
      * exists cs. split; [done|]. split; [by constructor|]. split; [done|].
        intros Hne Htyped. destruct (Hpush Hne Htyped eq_refl)
          as (c & Hkey & _ & Hlists).
        exfalso. unfold push in Hlists. destruct lists as [hi lo].
        destruct (high c); simpl in Hlists; injection Hlists as Hlen;
          apply (f_equal length) in Hlen; rewrite length_app in Hlen;
          simpl in Hlen; lia.
      * exists (c :: cs). unfold push. cbn [List.filter]. rewrite fmap_cons.
        destruct (high c); cbn [negb fst snd]; rewrite <- ?app_assoc; cbn [app].
        all: split; [done|]; rewrite Hkey.
        all: split; [by constructor|]; split; [by constructor|].
        all: intros Hne Htyped; by rewrite (Hfull Hne Htyped).
    + specialize (Hskip (or_introl eq_refl)). injection Hskip as -> ->.
      by exists cs.
Qed.

Lemma classify_technologies_spec (config : Config)
    (tech_counts : list (string * Z)) (total_repos : Z)
    (repo_details : list RepoDetail) (w : W) :
  exists cs,
    (classify_technologies fnmatch ai_oracle config tech_counts total_repos
       repo_details w).1
    = (List.filter high cs, List.filter (fun c => negb (high c)) cs)
    /\ key <$> cs
       `sublist_of` List.filter (eligible fnmatch config repo_details)
                      (sorted_by_count tech_counts)
    /\ Forall well_scored cs
    /\ (total_repos <> 0 -> replies_typed ai_oracle ->
        key <$> cs = List.filter (eligible fnmatch config repo_details)
                       (sorted_by_count tech_counts)).
Proof. apply (classify_all_spec _ _ _ _ ([], [])). Qed.

(** X6.  A classification is made for the technology and the count it
    was asked for; its ring has a name; its confidence lies between 0.3
    and 0.94, so that the cap at 1 never applies and no classification
    is certain; and one whose confidence is below 0.75 asks for review
    with the reason of low confidence. *)
Theorem classification_well_scored (config : Config) (tech_name : string)
    (count total_repos : Z) (usage_percentage : Q)
    (temporal_data : TemporalData) (w : W) (c : Classification) :
  (_classify_single_enhanced ai_oracle config tech_name count total_repos
     usage_percentage temporal_data w).2 = Some c ->
  name c = tech_name
  /\ repos_count (metadata c) = count
  /\ is_Some (RINGS (ring c))
  /\ (0.3 <= confidence c /\ confidence c <= 0.94)%Q
  /\ ((confidence c < 0.75)%Q ->
      needs_review c = true
      /\ review_reason c = Some "Low confidence classification"%string)
  /\ (needs_review c = false -> review_reason c = None).
Proof.
  intros H.
  destruct (classify_single_inv config tech_name count total_repos
    usage_percentage temporal_data w) as [Hsome _].
  destruct (Hsome c H) as [[= Hname Hcount] (Hrange & Hring & Hlow & Hnone)].
  repeat split; try done; try apply Hrange; apply Hlow;
    unfold high; by destruct (geb_reflect (confidence c) 0.75); [lra|].
Qed.

(** X7.  The two lists of [classify_technologies] are split by the
    confidence: every classification of the first list has a confidence
    of at least 0.75, and every one of the second list a confidence
    below 0.75, the flag of review set and low confidence as the
    reason. *)
Theorem classification_split (config : Config)
    (tech_counts : list (string * Z)) (total_repos : Z)
    (repo_details : list RepoDetail) (w : W) :
  let lists :=
    (classify_technologies fnmatch ai_oracle config tech_counts total_repos
       repo_details w).1 in
  Forall (fun c => (0.75 <= confidence c)%Q) lists.1
  /\ Forall
       (fun c =>
          (confidence c < 0.75)%Q /\ needs_review c = true
          /\ review_reason c = Some "Low confidence classification"%string)
       lists.2.
Proof.
  cbv zeta.
  destruct (classify_technologies_spec config tech_counts total_repos
    repo_details w) as (cs & -> & _ & Hall & _). cbn [fst snd].
  rewrite Forall_forall in Hall. split; apply Forall_forall; intros c Hc.
  - apply list_elem_of_In, filter_In in Hc as [_ Hc]. unfold high in Hc.
    by destruct (geb_reflect (confidence c) 0.75).
  - apply list_elem_of_In, filter_In in Hc as [Hc Hlow].
    apply list_elem_of_In in Hc. apply negb_true_iff in Hlow.
    destruct (Hall c Hc) as (_ & _ & Hrev & _). split; [|by apply Hrev].
    unfold high in Hlow. destruct (geb_reflect (confidence c) 0.75); [done|lra].
Qed.

(** X8.  No technology is lost: with a non-zero total and a model whose
    replies carry a string as their confidence, or none, the
    classifications of the two lists together are made from the entries
    of the counts that pass the threshold and match no exclusion
    pattern, one from each. *)
Theorem classification_complete (config : Config)
    (tech_counts : list (string * Z)) (total_repos : Z)
    (repo_details : list RepoDetail) (w : W) :
  total_repos <> 0 -> replies_typed ai_oracle ->
  let lists :=
    (classify_technologies fnmatch ai_oracle config tech_counts total_repos
       repo_details w).1 in
  key <$> lists.1 ++ lists.2
  ≡ₚ List.filter (eligible fnmatch config repo_details) tech_counts.
Proof.
  intros Hne Htyped. cbv zeta.
  destruct (classify_technologies_spec config tech_counts total_repos
    repo_details w) as (cs & -> & _ & _ & Hfull). cbn [fst snd].
  rewrite filter_split, (Hfull Hne Htyped).
  apply filter_perm, sorted_by_count_perm.
Qed.

(** X9.  Each of the two lists is in the order of the counts, the most
    used technology first. *)
Theorem classification_order (config : Config)
    (tech_counts : list (string * Z)) (total_repos : Z)
    (repo_details : list RepoDetail) (w : W) :
  let lists :=
    (classify_technologies fnmatch ai_oracle config tech_counts total_repos
       repo_details w).1 in
  descending ((fun c => repos_count (metadata c)) <$> lists.1)
  /\ descending ((fun c => repos_count (metadata c)) <$> lists.2).
Proof.
  cbv zeta.
  destruct (classify_technologies_spec config tech_counts total_repos
    repo_details w) as (cs & -> & Hsub & _ & _). cbn [fst snd].
  assert (descending (key <$> cs).*2) as Hdesc.
  { eapply descending_sublist; [|apply (sorted_by_count_descending tech_counts)].
    apply fmap_sublist. etrans; [exact Hsub|]. apply filter_sublist. }
  rewrite <- list_fmap_compose in Hdesc.
  split; (eapply descending_sublist; [|exact Hdesc]);
    apply (fmap_sublist (snd ∘ key)), filter_sublist.
Qed.

(** X10.  With a total of zero repositories the share of a technology
    cannot be computed: every technology is passed over, both lists are
    empty and the model is never asked. *)
Theorem classification_of_nothing (config : Config)
    (tech_counts : list (string * Z)) (repo_details : list RepoDetail) (w : W) :
  classify_technologies fnmatch ai_oracle config tech_counts 0 repo_details w
  = (([], []), w).
Proof.
  unfold classify_technologies. generalize (sorted_by_count tech_counts).
  intros entries. induction entries as [|entry entries IH]; [done|].
  cbn [classify_all].
  destruct (classify_one_cases config 0 repo_details ([], []) entry w)
    as (_ & Hskip & _). cbv zeta in Hskip.
  by rewrite (Hskip (or_intror eq_refl)).
Qed.

End Classify.

Lemma classification_well_scored_witness :
  match
    (_classify_single_enhanced no_model radar_config "Terraform" 1 3
       (Float.div 1 3 * 100) (analyze_technology "Terraform" three_repos) tt).2
  with
  | Some c => (0.3 <= confidence c /\ confidence c <= 0.94)%Q
  | None => False
  end.
Proof.
  destruct (_classify_single_enhanced no_model radar_config "Terraform" 1 3
       (Float.div 1 3 * 100) (analyze_technology "Terraform" three_repos) tt).2
    as [c|] eqn:E.
  - apply (classification_well_scored no_model radar_config "Terraform" 1 3
             _ _ tt c E).
  - by vm_compute in E.
Defined.

Lemma classification_complete_witness :
  key <$>
    ((classify_technologies no_match no_model radar_config three_counts 3
        three_repos tt).1.1
     ++ (classify_technologies no_match no_model radar_config three_counts 3
           three_repos tt).1.2)
  ≡ₚ List.filter (eligible no_match radar_config three_repos) three_counts.
Proof.
  apply (classification_complete no_match no_model radar_config three_counts 3
           three_repos tt); [done|].
  intros ? ? ? ? ? ? H. discriminate H.
Defined.

End DecisionProps.

(** ** The rate limiter *)

Module LimiterProps.

Import Py Limiter FloatFacts LimiterSpec.

Lemma recent_within (now : Q) (times : list Q) :
  Forall (fun t => (now - t < 60)%Q) (recent now times).
Proof.
  apply Forall_forall. intros t Ht.
  apply list_elem_of_In, filter_In in Ht as [_ Ht].
  by destruct (ltb_reflect (now - t) 60).
Qed.

Lemma recent_length (now : Q) (times : list Q) :
  (length (recent now times) <= length times)%nat.
Proof.
  induction times as [|t times IH]; simpl; [done|].
  destruct (Float.ltb _ _); simpl; lia.
Qed.

Section Limit.

Context {W : Type}
  (time : W -> Q)
  (datetime_now : W -> Z)
  (sleep : Q -> W -> W).

(** What [_enforce_per_minute_limit] does with a positive limit. *)
Lemma enforce_cases (self : RateLimiter) (w : W) :
  0 < max_per_minute self ->
  let kept := recent (time w) (request_times self) in
  exists w',
    _enforce_per_minute_limit time sleep self w
    = (set_request_times self (kept ++ [time w]), w', Return tt)
    /\ ((Z.of_nat (length kept) < max_per_minute self /\ w' = w)
        \/ (max_per_minute self <= Z.of_nat (length kept)
            /\ exists oldest,
                 head kept = Some oldest
                 /\ (0 < 60 - (time w - oldest))%Q
                 /\ w' = sleep (60 - (time w - oldest))%Q w)).
Proof.
  intros Hmax. cbv zeta. unfold _enforce_per_minute_limit.
  cbn [request_times max_per_minute set_request_times].
  fold (recent (time w) (request_times self)).
  pose proof (recent_within (time w) (request_times self)) as Hin.
  destruct (Z.leb_spec (max_per_minute self)
              (Z.of_nat (length (recent (time w) (request_times self)))))
    as [Hfull|Hroom].
  - destruct (recent (time w) (request_times self)) as [|oldest rest] eqn:E;
      [simpl in Hfull; lia|].
    apply Forall_cons in Hin as [Hold _].
    assert (0 < 60 - (time w - oldest))%Q as Hpos by lra.
    destruct (gtb_reflect (60 - (time w - oldest)) 0) as [_|Hn]; [|done].
    eexists. split; [done|]. right. split; [done|]. by exists oldest.
  - eexists. split; [done|]. by left.
Qed.

(** X12.  With a positive limit the per-minute check always returns,
    and it records the time at which it was entered, not the time at
    which it woke up, after the requests that are less than a minute
    old.  Below the limit it does not sleep; at the limit it sleeps
    until the oldest of the kept requests is a minute old, for a
    positive time of at most 60 seconds. *)
Theorem per_minute_limit_waits (self : RateLimiter) (w : W) :
  0 < max_per_minute self ->
  Forall (fun t => (t <= time w)%Q) (request_times self) ->
  let kept := recent (time w) (request_times self) in
  let result := _enforce_per_minute_limit time sleep self w in
  result.2 = Return tt
  /\ request_times result.1.1 = kept ++ [time w]
  /\ (Z.of_nat (length kept) < max_per_minute self -> result.1.2 = w)
  /\ (max_per_minute self <= Z.of_nat (length kept) ->
      exists oldest,
        head kept = Some oldest
        /\ (0 < 60 - (time w - oldest) /\ 60 - (time w - oldest) <= 60)%Q
        /\ result.1.2 = sleep (60 - (time w - oldest))%Q w).
Proof.
  intros Hmax Hpast. cbv zeta.
  destruct (enforce_cases self w Hmax) as (w' & -> & Hcases). cbn [fst snd].
  split; [done|]. split; [done|].
  destruct Hcases as [[Hroom ->]|(Hfull & oldest & Hhead & Hpos & ->)].
  - split; [done|]. lia.
  - split; [lia|]. intros _. exists oldest. split; [done|]. split; [|done].
    split; [done|].
    assert (oldest ∈ request_times self) as Hin.
    { destruct (recent (time w) (request_times self)) as [|x rest] eqn:E;
        [done|]. injection Hhead as ->.
      assert (oldest ∈ recent (time w) (request_times self)) as Hin
        by (rewrite E; left).
      by apply list_elem_of_In, filter_In in Hin as [Hin%list_elem_of_In _]. }
    rewrite Forall_forall in Hpast. specialize (Hpast _ Hin). lra.
Qed.

(** X13.  A limit of zero or less is not read as no limit: when no
    request is less than a minute old the check looks for the oldest of
    an empty list and raises an [IndexError], recording nothing and
    without sleeping. *)
Theorem per_minute_limit_of_zero (self : RateLimiter) (w : W) :
  max_per_minute self <= 0 ->
  recent (time w) (request_times self) = [] ->
  _enforce_per_minute_limit time sleep self w
  = (set_request_times self [], w, Raise (Failure "IndexError")).
Proof.
  intros Hmax Hnone. unfold _enforce_per_minute_limit.
  cbn [request_times max_per_minute set_request_times].
  fold (recent (time w) (request_times self)). rewrite Hnone. simpl.
  change (Z.of_nat 0) with 0.
  destruct (Z.leb_spec (max_per_minute self) 0); [done|lia].
Qed.

(** X14.  While the cached quota is at most [cache_ttl] seconds old,
    [check_and_wait] does not query the quota: whatever the query would
    return, the limiter, the world and the outcome are the same. *)
Theorem cached_quota_not_queried (self : RateLimiter) (w : W) (cached : Core)
    (query query' : W -> W * outcome Core) :
  rate_limit_cache self = Some cached ->
  (time w - rate_limit_cache_time self <= inject_Z (cache_ttl self))%Q ->
  check_and_wait time datetime_now sleep query self w
  = check_and_wait time datetime_now sleep query' self w.
Proof.
  intros Hcache Hfresh. unfold check_and_wait, current_rate_limit.
  rewrite Hcache.
  destruct (gtb_reflect (time w - rate_limit_cache_time self)
              (inject_Z (cache_ttl self))); [lra|done].
Qed.

(** X15.  When the quota has to be queried, without a cached quota or
    with one older than [cache_ttl] seconds, and the query raises, then
    [check_and_wait] raises the same exception: the limiter is left as
    it was, no request is recorded and there is no sleep. *)
Theorem quota_failure_propagates (self : RateLimiter) (w w' : W) (e : exn)
    (get_rate_limit : W -> W * outcome Core) :
  rate_limit_cache self = None
  \/ (inject_Z (cache_ttl self) < time w - rate_limit_cache_time self)%Q ->
  get_rate_limit w = (w', Raise e) ->
  check_and_wait time datetime_now sleep get_rate_limit self w
  = (self, w', Raise e).
Proof.
  intros Hstale Hquery. unfold check_and_wait, current_rate_limit.
  destruct (rate_limit_cache self) as [cached|].
  - destruct Hstale as [?|Hold]; [done|].
    destruct (gtb_reflect (time w - rate_limit_cache_time self)
                (inject_Z (cache_ttl self))); [|lra].
    by rewrite Hquery.
  - by rewrite Hquery.
Qed.

Lemma bounded_later (self self' : RateLimiter) (w w' : W) :
  request_times self' = request_times self ->
  max_per_minute self' = max_per_minute self ->
  (time w <= time w')%Q ->
  bounded time self w -> bounded time self' w'.
Proof.
  unfold bounded. intros -> -> Hlater [Hlen Hfull]. split; [done|].
  intros Heq. destruct (Hfull Heq) as (oldest & Hhead & Hold).
  exists oldest. split; [done|]. lra.
Qed.

Lemma recent_drops_oldest (now oldest : Q) (times : list Q) :
  head times = Some oldest -> (oldest + 60 <= now)%Q ->
  (S (length (recent now times)) <= length times)%nat.
Proof.
  destruct times as [|t times]; [done|]. intros [= ->] Hold. simpl.
  destruct (ltb_reflect (now - oldest) 60); [lra|].
  pose proof (recent_length now times). unfold recent in *. lia.
Qed.

Lemma enforce_bounded (self : RateLimiter) (w : W) :
  0 < max_per_minute self -> sleep_lasts time sleep ->
  bounded time self w ->
  let result := _enforce_per_minute_limit time sleep self w in
  bounded time result.1.1 result.1.2.
Proof.
  intros Hmax Hsleep [Hlen Hfull]. cbv zeta.
  destruct (enforce_cases self w Hmax) as (w' & -> & Hcases). cbn [fst snd].
  assert (Z.of_nat (length (recent (time w) (request_times self)))
          <= max_per_minute self) as Hkept.
  { pose proof (recent_length (time w) (request_times self)).
    destruct (decide (Z.of_nat (length (request_times self))
                      = max_per_minute self + 1)) as [Heq|]; [|lia].
    destruct (Hfull Heq) as (oldest & Hhead & Hold).
    pose proof (recent_drops_oldest _ _ _ Hhead Hold). lia. }
  unfold bounded. cbn [request_times max_per_minute set_request_times].
  rewrite length_app. cbn [length].
  destruct Hcases as [[Hroom ->]|(_ & oldest & Hhead & Hpos & ->)].
  - split; lia.
  - split; [lia|]. intros _. exists oldest. split.
    + destruct (recent (time w) (request_times self)); [done|]. done.
    + pose proof (Hsleep (60 - (time w - oldest))%Q w). lra.
Qed.

(** X16.  The limiter never holds more than one recorded request above
    the limit, and when it holds that many the oldest is a minute old
    by the time the call returns: with a positive limit, a sleep that
    lasts as long as asked and a clock that the query does not turn
    back, [check_and_wait] keeps this however it ends. *)
Theorem recorded_requests_bounded (self : RateLimiter) (w : W)
    (get_rate_limit : W -> W * outcome Core) :
  0 < max_per_minute self ->
  sleep_lasts time sleep -> query_takes_time time get_rate_limit ->
  bounded time self w ->
  let result := check_and_wait time datetime_now sleep get_rate_limit self w in
  bounded time result.1.1 result.1.2.
Proof.
  intros Hmax Hsleep Hquery Hb. cbv zeta. unfold check_and_wait.
  assert (let r := current_rate_limit time get_rate_limit self w in
          bounded time r.1.1 r.1.2
          /\ max_per_minute r.1.1 = max_per_minute self) as Hcur.
  { cbv zeta. unfold current_rate_limit. specialize (Hquery w).
    destruct (rate_limit_cache self) as [cached|];
      [destruct (Float.gtb _ _); [|by split]|];
      destruct (get_rate_limit w) as [w1 [core|e|]]; cbn [fst snd] in *;
      (split; [|done]); by eapply bounded_later. }
  cbv zeta in Hcur.
  destruct (current_rate_limit time get_rate_limit self w) as [[self1 w1] r].
  cbn [fst snd] in Hcur. destruct Hcur as [Hb1 Hmax1].
  destruct r as [core| |]; cbn [fst snd]; [|done|done].
  assert (let p :=
            if remaining core <? safety_threshold self1 then
              if Float.gtb (Float.div (reset core - datetime_now w1) 1000000) 0
              then (set_rate_limit_cache self1 None,
                    sleep (Float.div (reset core - datetime_now w1) 1000000 + 1) w1)
              else (self1, w1)
            else (self1, w1) in
          bounded time p.1 p.2 /\ max_per_minute p.1 = max_per_minute self)
    as Hp.
  { cbv zeta. destruct (_ <? _); [|by split].
    destruct (gtb_reflect (Float.div (reset core - datetime_now w1) 1000000) 0)
      as [Hpos|]; [|by split].
    cbn [fst snd]. split; [|done]. eapply bounded_later; [done..| |exact Hb1].
    pose proof (Hsleep (Float.div (reset core - datetime_now w1) 1000000 + 1)%Q
                  w1). lra. }
  cbv zeta in Hp.
  destruct (if remaining core <? safety_threshold self1 then _ else _)
    as [self2 w2].
  cbn [fst snd] in Hp. destruct Hp as [Hb2 Hmax2].
  apply enforce_bounded; [lia|done|done].
Qed.

End Limit.

Lemma per_minute_limit_waits_witness :
  (clock (_enforce_per_minute_limit clock wait busy 2%Q).1.2 == 60)%Q.
Proof.
  destruct (per_minute_limit_waits clock wait busy 2%Q) as (_ & _ & _ & H).
  - done.
  - repeat constructor; by vm_compute.
  - destruct H as (oldest & Hhead & _ & ->); [by vm_compute|].
    injection Hhead as <-. by vm_compute.
Defined.

Lemma per_minute_limit_of_zero_witness :
  _enforce_per_minute_limit clock wait (__init__ 0 100) 5%Q
  = (set_request_times (__init__ 0 100) [], 5%Q, Raise (Failure "IndexError")).
Proof. by apply per_minute_limit_of_zero. Defined.

Lemma cached_quota_not_queried_witness :
  check_and_wait clock midnight wait quota cached 5%Q
  = check_and_wait clock midnight wait no_quota cached 5%Q.
Proof.
  apply (cached_quota_not_queried clock midnight wait cached 5%Q ample);
    [done|by vm_compute].
Defined.

Lemma quota_failure_propagates_witness :
  check_and_wait clock midnight wait no_quota (__init__ 25 100) 5%Q
  = (__init__ 25 100, 5%Q, Raise (Failure "connection")).
Proof.
  apply quota_failure_propagates; [by left|done].
Defined.

Lemma recorded_requests_bounded_witness :
  bounded clock (check_and_wait clock midnight wait quota busy 2%Q).1.1
    (check_and_wait clock midnight wait quota busy 2%Q).1.2.
Proof.
  apply (recorded_requests_bounded clock midnight wait busy 2%Q quota).
  - done.
  - intros d w. unfold clock, wait. lra.
  - intros w. unfold clock, quota. simpl. lra.
  - split; [simpl; lia|]. intros H. simpl in H. lia.
Defined.

End LimiterProps.

(** ** The counts of the detector and of the temporal analyzer *)

Module CountProps.

Import RepoData TemporalAnalyzer Detector FloatFacts RoundFacts ListFacts CountSpec.

(** *** The aggregation *)

Lemma count_occurrences_lookup (tech_counts : gmap string Z)
    (techs : gset string) (tech : string) :
  default 0 (count_occurrences tech_counts techs !! tech)
  = default 0 (tech_counts !! tech) + (if decide (tech ∈ techs) then 1 else 0)
  /\ (is_Some (count_occurrences tech_counts techs !! tech)
      <-> is_Some (tech_counts !! tech) \/ tech ∈ techs).
Proof.
  unfold count_occurrences.
  set (P := fun (result : gmap string Z) (X : gset string) =>
       default 0 (result !! tech)
       = default 0 (tech_counts !! tech) + (if decide (tech ∈ X) then 1 else 0)
       /\ (is_Some (result !! tech) <-> is_Some (tech_counts !! tech) \/ tech ∈ X)).
  match goal with |- ?G => change G with (P (set_fold
    (fun tech tech_counts =>
       <[tech := default 0 (tech_counts !! tech) + 1]> tech_counts)
    tech_counts techs) techs) end.
  apply set_fold_ind_L; unfold P; clear P.
  - split; [rewrite decide_False by set_solver; lia|]. set_solver.
  - intros x X result Hx [IH1 IH2].
    destruct (decide (x = tech)) as [->|Hne].
    + rewrite lookup_insert_eq. simpl.
      rewrite decide_False in IH1 by done.
      rewrite decide_True by set_solver. split; [lia|].
      split; [intros _; right; set_solver|by eexists].
    + rewrite lookup_insert_ne by done. split.
      * rewrite IH1. repeat case_decide; try lia; set_solver.
      * rewrite IH2. set_solver.
Qed.

Lemma elem_of_all_techs (tech : string) (repo_techs : Techs) :
  tech ∈ all_techs repo_techs
  <-> existsb (fun cat => bool_decide (tech ∈ cat.2)) repo_techs = true.
Proof.
  unfold all_techs. rewrite elem_of_union_list, existsb_exists. split.
  - intros (X & HX & Hin). apply list_elem_of_fmap in HX as (cat & -> & Hcat).
    exists cat. split; [by apply list_elem_of_In|by apply bool_decide_eq_true].
  - intros (cat & Hcat & Hin). exists cat.2. split.
    + apply list_elem_of_fmap. exists cat. split; [done|by apply list_elem_of_In].
    + by apply bool_decide_eq_true in Hin.
Qed.

Lemma mentions_uses (tech : string) (repo : RepoDetail) :
  mentions tech (technologies repo) = uses tech repo.
Proof.
  unfold mentions, uses. apply eq_true_iff_eq.
  by rewrite bool_decide_eq_true, elem_of_all_techs.
Qed.

Lemma aggregate_lookup (all_repo_techs : list Techs) (tech : string) :
  default 0 (aggregate_technologies all_repo_techs !! tech)
  = count_if (mentions tech) all_repo_techs
  /\ (is_Some (aggregate_technologies all_repo_techs !! tech)
      <-> 0 < count_if (mentions tech) all_repo_techs).
Proof.
  unfold aggregate_technologies.
  induction all_repo_techs as [|repo_techs l IH] using rev_ind.
  - simpl. rewrite lookup_empty. split; [done|].
    split; [by intros [? ?]|lia].
  - rewrite fold_left_app. cbn [fold_left].
    destruct (count_occurrences_lookup
      (fold_left
         (fun tech_counts repo_techs =>
            count_occurrences tech_counts (all_techs repo_techs)) l ∅)
      (all_techs repo_techs) tech) as [H1 H2].
    destruct IH as [IH1 IH2].
    rewrite H1, H2, IH1, IH2, count_if_app. cbn [count_if].
    pose proof (TrendProps.count_if_bounds (mentions tech) l).
    change (mentions tech repo_techs)
      with (bool_decide (tech ∈ all_techs repo_techs)).
    destruct (decide (tech ∈ all_techs repo_techs)).
    + rewrite bool_decide_eq_true_2 by done. split; [lia|]. split; [lia|auto].
    + rewrite bool_decide_eq_false_2 by done. split; [lia|].
      split; [intros [?|?]; [lia|done]|intros ?; left; lia].
Qed.

(** X17.  The count of a technology is the number of repositories that
    list it, a repository that lists it in several categories being
    counted once; a technology has an entry exactly when some
    repository lists it, so that no count is zero. *)
Theorem aggregate_counts_repositories (all_repo_techs : list Techs)
    (tech : string) :
  let tech_counts := aggregate_technologies all_repo_techs in
  match tech_counts !! tech with
  | Some count =>
      count = count_if (mentions tech) all_repo_techs /\ 0 < count
  | None => count_if (mentions tech) all_repo_techs = 0
  end.
Proof.
  cbv zeta. destruct (aggregate_lookup all_repo_techs tech) as [H1 H2].
  pose proof (TrendProps.count_if_bounds (mentions tech) all_repo_techs).
  destruct (aggregate_technologies all_repo_techs !! tech) as [count|];
    simpl in H1.
  - split; [done|]. rewrite H1. apply H2. by eexists.
  - destruct (decide (0 < count_if (mentions tech) all_repo_techs)) as [Hpos|];
      [|lia].
    apply H2 in Hpos. by destruct Hpos.
Qed.

(** *** The analysis of a technology *)

Lemma count_if_fmap {A B : Type} (f : A -> B) (flag : B -> bool) (l : list A) :
  count_if flag (f <$> l) = count_if (fun x => flag (f x)) l.
Proof.
  induction l as [|x l IH]; [done|].
  rewrite fmap_cons. cbn [count_if]. by rewrite IH.
Qed.

Lemma determine_trend_none (recent new legacy active total : Z) :
  _determine_trend recent new legacy active total = NONE <-> total = 0.
Proof.
  unfold _determine_trend. destruct (Z.eqb_spec total 0); [done|].
  split; [|done]. by repeat case_match.
Qed.

Lemma analysis_unused (tech_name : string) (repo_details : list RepoDetail) :
  List.filter (uses tech_name) repo_details = [] ->
  analyze_technology tech_name repo_details = _empty_analysis.
Proof. unfold analyze_technology. by intros ->. Qed.

Lemma analysis_used (tech_name : string) (repo_details : list RepoDetail) :
  List.filter (uses tech_name) repo_details <> [] ->
  let repos_with_tech := List.filter (uses tech_name) repo_details in
  let total := Z.of_nat (length repos_with_tech) in
  let a := analyze_technology tech_name repo_details in
  0 < total
  /\ total_repos a = total
  /\ recent_repos a = count_if flag_recent repos_with_tech
  /\ new_repos a = count_if flag_new repos_with_tech
  /\ legacy_repos a = count_if flag_legacy repos_with_tech
  /\ active_repos a = count_if flag_active repos_with_tech
  /\ stale_repos a = total - active_repos a
  /\ trend a = _determine_trend (recent_repos a) (new_repos a) (legacy_repos a)
                 (active_repos a) total
  /\ activity_score a = Float.round (Float.div (active_repos a) total) 3
  /\ repos_list a = take 10 (map name repos_with_tech)
  /\ default [] (by_domain a) = _analyze_by_domain repos_with_tech.
Proof.
  intros Hne. cbv zeta. unfold analyze_technology.
  destruct (List.filter (uses tech_name) repo_details) as [|repo rest] eqn:E;
    [done|].
  set (l := repo :: rest).
  assert (0 < Z.of_nat (length l)) as Hpos by (simpl; lia).
  cbn [total_repos recent_repos new_repos legacy_repos active_repos stale_repos
       trend activity_score repos_list by_domain].
  destruct (Z.ltb_spec 0 (Z.of_nat (length l))); [|lia].
  repeat split; try done. by destruct (_analyze_by_domain l).
Qed.

Lemma analysis_total (tech_name : string) (repo_details : list RepoDetail) :
  total_repos (analyze_technology tech_name repo_details)
  = count_if (uses tech_name) repo_details.
Proof.
  rewrite <- count_if_filter.
  destruct (List.filter (uses tech_name) repo_details) as [|repo rest] eqn:E.
  - by rewrite analysis_unused.
  - rewrite <- E. apply analysis_used. by rewrite E.
Qed.

Lemma analysis_trend_none (tech_name : string) (repo_details : list RepoDetail) :
  trend (analyze_technology tech_name repo_details) = NONE
  <-> count_if (uses tech_name) repo_details = 0.
Proof.
  rewrite <- count_if_filter.
  destruct (List.filter (uses tech_name) repo_details) as [|repo rest] eqn:E.
  - by rewrite analysis_unused.
  - assert (List.filter (uses tech_name) repo_details <> []) as Hne
      by (by rewrite E).
    destruct (analysis_used _ _ Hne) as (_ & _ & _ & _ & _ & _ & _ & -> & _).
    rewrite determine_trend_none. by rewrite E.
Qed.

(** X18.  The detector and the analyzer count alike: for the details
    of the scanned repositories, the count that the aggregation gives a
    technology is the number of repositories of its temporal analysis,
    and the analysis has the trend NONE exactly for a technology
    without a count. *)
Theorem count_matches_analysis (tech_name : string)
    (repo_details : list RepoDetail) :
  let tech_counts := aggregate_technologies (technologies <$> repo_details) in
  let analysis := analyze_technology tech_name repo_details in
  default 0 (tech_counts !! tech_name) = total_repos analysis
  /\ (tech_counts !! tech_name = None <-> trend analysis = NONE).
Proof.
  cbv zeta.
  destruct (aggregate_lookup (technologies <$> repo_details) tech_name)
    as [H1 H2].
  rewrite count_if_fmap in H1, H2.
  rewrite (count_if_ext _ (uses tech_name)) in H1, H2
    by (intros repo; apply mentions_uses).
  rewrite analysis_total, analysis_trend_none. split; [done|].
  pose proof (TrendProps.count_if_bounds (uses tech_name) repo_details).
  rewrite eq_None_not_Some, H2. lia.
Qed.

Lemma round_unit (x : Q) :
  (0 <= x)%Q -> (x <= 1)%Q ->
  (0 <= Float.round x 3 /\ Float.round x 3 <= 1)%Q.
Proof.
  intros H0 H1.
  assert (inject_Z 0 / inject_Z (10 ^ 3) <= x)%Q as Hlo.
  { change (inject_Z (10 ^ 3)) with 1000%Q. change (inject_Z 0) with 0%Q.
    apply Qle_shift_div_r; [reflexivity|lra]. }
  assert (x <= inject_Z 1000 / inject_Z (10 ^ 3))%Q as Hhi.
  { change (inject_Z (10 ^ 3)) with 1000%Q. change (inject_Z 1000) with 1000%Q.
    apply Qle_shift_div_l; [reflexivity|lra]. }
  apply (round_lower 0 3 x ltac:(lia)) in Hlo.
  apply (round_upper 1000 3 x ltac:(lia)) in Hhi.
  change (inject_Z (10 ^ 3)) with 1000%Q in Hlo, Hhi.
  change (inject_Z 0) with 0%Q in Hlo. change (inject_Z 1000) with 1000%Q in Hhi.
  assert (0 / 1000 == 0)%Q as E0 by reflexivity.
  assert (1000 / 1000 == 1)%Q as E1 by reflexivity.
  rewrite E0 in Hlo. rewrite E1 in Hhi. by split.
Qed.

(** X19.  In the analysis of a technology the total is the number of
    repositories that use it; the recent, new, legacy and active counts
    lie between zero and the total; the stale repositories are the ones
    that are not active; the activity score lies between 0 and 1; at
    most ten names are listed; and the trend is NONE exactly when no
    repository uses the technology. *)
Theorem analysis_counts (tech_name : string) (repo_details : list RepoDetail) :
  let a := analyze_technology tech_name repo_details in
  total_repos a = count_if (uses tech_name) repo_details
  /\ 0 <= recent_repos a <= total_repos a
  /\ 0 <= new_repos a <= total_repos a
  /\ 0 <= legacy_repos a <= total_repos a
  /\ 0 <= active_repos a <= total_repos a
  /\ 0 <= stale_repos a
  /\ active_repos a + stale_repos a = total_repos a
  /\ (0 <= activity_score a /\ activity_score a <= 1)%Q
  /\ (length (repos_list a) <= 10)%nat
  /\ (trend a = NONE <-> total_repos a = 0).
Proof.
  cbv zeta. rewrite analysis_trend_none, analysis_total.
  split; [done|]. rewrite <- count_if_filter.
  destruct (List.filter (uses tech_name) repo_details) as [|repo rest] eqn:E.
  - rewrite analysis_unused by done. simpl. repeat split; try done; lia.
  - assert (List.filter (uses tech_name) repo_details <> []) as Hne
      by (by rewrite E).
    destruct (analysis_used _ _ Hne)
      as (Hpos & _ & -> & -> & -> & Hact & -> & _ & -> & -> & _).
    rewrite Hact, E in *.
    set (l := repo :: rest) in *.
    pose proof (TrendProps.count_if_bounds flag_recent l).
    pose proof (TrendProps.count_if_bounds flag_new l).
    pose proof (TrendProps.count_if_bounds flag_legacy l).
    pose proof (TrendProps.count_if_bounds flag_active l) as Hactive.
    repeat split; try lia.
    + apply round_unit.
      * apply Qle_shift_div_l; [by apply inject_pos|].
        rewrite Qmult_0_l. change 0%Q with (inject_Z 0). rewrite <- Zle_Qle. lia.
      * apply Qle_shift_div_r; [by apply inject_pos|].
        rewrite Qmult_1_l. rewrite <- Zle_Qle. lia.
    + apply round_unit.
      * apply Qle_shift_div_l; [by apply inject_pos|].
        rewrite Qmult_0_l. change 0%Q with (inject_Z 0). rewrite <- Zle_Qle. lia.
      * apply Qle_shift_div_r; [by apply inject_pos|].
        rewrite Qmult_1_l. rewrite <- Zle_Qle. lia.
    + rewrite length_take. lia.
Qed.

(** *** The breakdown by domain *)

Lemma group_of_append (groups : list (string * list RepoDetail))
    (d d' : string) (repo : RepoDetail) :
  group_of (group_append groups d repo) d'
  = group_of groups d' ++ (if decide (d = d') then [repo] else []).
Proof.
  induction groups as [|[d0 repos] groups IH]; simpl.
  - by case_decide.
  - destruct (decide (d0 = d)) as [->|]; simpl; repeat case_decide;
      try congruence; try done; by rewrite app_nil_r.
Qed.

Lemma group_append_keys (groups : list (string * list RepoDetail))
    (d : string) (repo : RepoDetail) (P : string -> Prop) :
  P d -> NoDup groups.*1 ->
  Forall (fun group => P group.1 /\ group.2 <> []) groups ->
  NoDup (group_append groups d repo).*1
  /\ Forall (fun group => P group.1 /\ group.2 <> [])
       (group_append groups d repo)
  /\ (forall x, x ∈ (group_append groups d repo).*1 -> x ∈ groups.*1 \/ x = d).
Proof.
  intros Hd. induction groups as [|[d0 repos] groups IH]; simpl; intros Hnd Hall.
  - split; [apply NoDup_singleton|]. split; [by repeat constructor|]. set_solver.
  - apply NoDup_cons in Hnd as [Hnotin Hnd].
    apply Forall_cons in Hall as [[Hp Hne] Hall]. cbn [fst snd] in Hp, Hne.
    destruct (decide (d0 = d)) as [->|Hneq]; simpl.
    + split; [by apply NoDup_cons|]. split; [|set_solver].
      constructor; [|done]. split; [done|]. by destruct repos.
    + destruct (IH Hnd Hall) as (IH1 & IH2 & IH3).
      split; [|split; [by constructor|set_solver]].
      apply NoDup_cons. split; [|done]. intros Hin.
      destruct (IH3 _ Hin) as [Hin'|Heq]; [by apply Hnotin|by apply Hneq].
Qed.

Lemma domain_groups_inv (repos : list RepoDetail) :
  let groups := domain_groups repos in
  NoDup groups.*1
  /\ Forall (fun group => group.1 <> EmptyString /\ group.2 <> []) groups
  /\ forall d, d <> EmptyString ->
       group_of groups d = List.filter (in_domain d) repos.
Proof.
  induction repos as [|repo repos IH] using rev_ind.
  - cbv zeta. split; [constructor|]. by split.
  - cbv zeta in *. destruct IH as (Hnd & Hall & Hget).
    unfold domain_groups in *. rewrite fold_left_app. cbn [fold_left].
    setoid_rewrite List.filter_app. cbn [List.filter]. unfold in_domain at 2.
    destruct (domain_info repo) as [info|].
    + destruct (decide (domain info = EmptyString)) as [Hempty|Hne].
      * split; [done|]. split; [done|]. intros d Hd. rewrite Hget by done.
        rewrite bool_decide_eq_false_2 by congruence. by rewrite app_nil_r.
      * destruct (group_append_keys _ (domain info) repo
                    (fun d => d <> EmptyString) Hne Hnd Hall) as (H1 & H2 & _).
        split; [done|]. split; [done|]. intros d Hd.
        rewrite group_of_append, Hget by done.
        by destruct (decide (domain info = d)); case_bool_decide.
    + split; [done|]. split; [done|]. intros d Hd. rewrite Hget by done.
      by rewrite app_nil_r.
Qed.

Lemma elem_of_group_of (groups : list (string * list RepoDetail)) (d : string)
    (repos : list RepoDetail) :
  NoDup groups.*1 -> (d, repos) ∈ groups -> group_of groups d = repos.
Proof.
  induction groups as [|[d0 repos0] groups IH]; simpl; intros Hnd Hin.
  - by apply elem_of_nil in Hin.
  - apply NoDup_cons in Hnd as [Hnotin Hnd].
    apply elem_of_cons in Hin as [[= -> ->]|Hin].
    + by rewrite decide_True.
    + rewrite decide_False; [by apply IH|]. intros ->. apply Hnotin.
      apply list_elem_of_fmap. by exists (d, repos).
Qed.

Lemma group_of_elem_of (groups : list (string * list RepoDetail)) (d : string) :
  group_of groups d <> [] -> d ∈ groups.*1.
Proof.
  induction groups as [|[d0 repos0] groups IH]; simpl; [done|].
  destruct (decide (d0 = d)) as [->|]; intros H; [left|right; by apply IH].
Qed.

(** X20.  The breakdown of an analysis has one entry for each domain
    into which a repository that uses the technology was put, and no
    other: the domains are distinct and not empty, and the entry of a
    domain counts the repositories of that domain that use the
    technology, at least one. *)
Theorem domain_breakdown_partition (tech_name : string)
    (repo_details : list RepoDetail) :
  let entries := default [] (by_domain (analyze_technology tech_name repo_details)) in
  let used_in d :=
    count_if (fun repo => uses tech_name repo && in_domain d repo) repo_details in
  NoDup entries.*1
  /\ (forall d metrics, (d, metrics) ∈ entries ->
        d <> EmptyString
        /\ dom_total_repos metrics = used_in d /\ 0 < used_in d)
  /\ (forall d, d <> EmptyString -> 0 < used_in d -> d ∈ entries.*1).
Proof.
  cbv zeta.
  assert (default [] (by_domain (analyze_technology tech_name repo_details))
          = _analyze_by_domain (List.filter (uses tech_name) repo_details)) as ->.
  { destruct (List.filter (uses tech_name) repo_details) as [|repo rest] eqn:E.
    - by rewrite analysis_unused.
    - rewrite <- E. apply analysis_used. by rewrite E. }
  unfold _analyze_by_domain.
  destruct (domain_groups_inv (List.filter (uses tech_name) repo_details))
    as (Hnd & Hall & Hget).
  set (groups := domain_groups _) in *.
  assert (forall gs : list (string * list RepoDetail),
    (map (fun g => (g.1, domain_metrics g.2)) gs).*1 = gs.*1) as Hkeys.
  { induction gs as [|g gs IH]; [done|].
    cbn [map]. rewrite !fmap_cons. by rewrite IH. }
  assert (forall d, d <> EmptyString ->
    Z.of_nat (length (group_of groups d))
    = count_if (fun repo => uses tech_name repo && in_domain d repo) repo_details)
    as Hcount.
  { intros d Hd. rewrite (Hget d Hd), count_if_filter, count_if_of_filter. done. }
  rewrite Hkeys. split; [done|]. split.
  - intros d metrics Hin. apply list_elem_of_In, in_map_iff in Hin
      as ([d0 repos] & [= -> <-] & Hin). apply list_elem_of_In in Hin.
    rewrite Forall_forall in Hall. destruct (Hall _ Hin) as [Hd Hne].
    cbn [fst snd] in *. split; [done|].
    rewrite <- (Hcount d Hd), (elem_of_group_of _ _ _ Hnd Hin).
    split; [done|]. destruct repos; [done|simpl; lia].
  - intros d Hd Hpos. apply group_of_elem_of. rewrite <- (Hcount d Hd) in Hpos.
    destruct (group_of groups d); [simpl in Hpos; lia|done].
Qed.

End CountProps.

(** ** The progress tracker *)

Module ProgressProps.

Import Py Progress Resume CheckpointSpec ScanSpec.

Section Tracker.

Context {W : Type} (now : W -> Q) (dump_ok : W -> bool).

Implicit Types (tracker : ProgressTracker).

Lemma mark_scanned_list tracker (name : string) (save_interval : Z) (w : W) :
  scanned_repos (data (mark_scanned now dump_ok tracker name save_interval w).1)
  = if Str.mem name (scanned_repos (data tracker))
    then scanned_repos (data tracker)
    else scanned_repos (data tracker) ++ [name].
Proof.
  unfold mark_scanned, _save.
  destruct (Str.mem name _); destruct (save_interval =? 0); simpl; try done;
    destruct (_ mod _ =? 0); simpl; try done;
    by destruct (enabled tracker).
Qed.

(** X21.  Marking and asking go together: after [mark_scanned], also
    when it raises for an interval of zero, the repository is scanned
    and no other answer has changed; a list without repetitions stays
    without, and marking a repository that is already scanned leaves
    the list as it was. *)
Theorem mark_scanned_round_trip tracker (name other : string)
    (save_interval : Z) (w : W) :
  let tracker' := (mark_scanned now dump_ok tracker name save_interval w).1 in
  is_scanned tracker' name = true
  /\ (other <> name -> is_scanned tracker' other = is_scanned tracker other)
  /\ (NoDup (scanned_repos (data tracker)) ->
      NoDup (scanned_repos (data tracker')))
  /\ (is_scanned tracker name = true ->
      scanned_repos (data tracker') = scanned_repos (data tracker)).
Proof.
  cbv zeta. unfold is_scanned. rewrite mark_scanned_list. unfold Str.mem.
  destruct (decide (name ∈ scanned_repos (data tracker))) as [Hin|Hin].
  - rewrite (bool_decide_eq_true_2 _ Hin). repeat split; try done.
    by apply bool_decide_eq_true.
  - rewrite (bool_decide_eq_false_2 _ Hin). repeat split.
    + apply bool_decide_eq_true. set_solver.
    + intros Hne. apply bool_decide_ext. set_solver.
    + intros Hnd. apply NoDup_app. split; [done|].
      split; [set_solver|apply NoDup_singleton].
    + done.
Qed.

Lemma mod_succ (n k : Z) :
  0 < k -> 0 <= n -> (n + 1) mod k <> 0 -> (n + 1) mod k = n mod k + 1.
Proof.
  intros Hk Hn Hne. pose proof (Z.mod_pos_bound n k Hk).
  destruct (decide (k = 1)) as [->|].
  { exfalso. apply Hne. apply Z.mod_1_r. }
  assert ((n + 1) mod k = (n mod k + 1) mod k) as E.
  { rewrite Z.add_mod by lia. by rewrite (Z.mod_small 1 k) by lia. }
  rewrite E in *.
  destruct (decide (n mod k + 1 = k)) as [E'|].
  - exfalso. apply Hne. rewrite E'. apply Z.mod_same. lia.
  - apply Z.mod_small. lia.
Qed.

(** X22.  With the tracker enabled, a dump that goes through and a
    positive interval, [mark_scanned] keeps the file a prefix of the
    list in memory that is short of it by fewer names than the
    interval: a run that is cut off loses the marks of fewer
    repositories than the interval of the saves. *)
Theorem unsaved_marks_bounded tracker (name : string) (save_interval : Z)
    (w : W) :
  0 < save_interval -> enabled tracker = true -> dump_ok w = true ->
  lag_bounded save_interval tracker ->
  let tracker' := (mark_scanned now dump_ok tracker name save_interval w).1 in
  lag_bounded save_interval tracker'
  /\ Z.of_nat (length (scanned_repos (data tracker')))
     - Z.of_nat (length (on_disk tracker')) < save_interval.
Proof.
  intros Hk Hen Hdump [Hprefix Hlag]. cbv zeta.
  enough (lag_bounded save_interval
            (mark_scanned now dump_ok tracker name save_interval w).1) as Hb.
  { split; [done|]. destruct Hb as [_ Hb].
    pose proof (Z.mod_pos_bound
      (Z.of_nat (length (scanned_repos
         (data (mark_scanned now dump_ok tracker name save_interval w).1))))
      save_interval Hk). lia. }
  unfold lag_bounded, mark_scanned, on_disk in *.
  destruct (Z.eqb_spec save_interval 0); [lia|].
  destruct (Str.mem name (scanned_repos (data tracker))).
  - destruct (Z.eqb_spec
      (Z.of_nat (length (scanned_repos (data tracker))) mod save_interval) 0)
      as [E|E]; cbn [fst]; [|by split].
    unfold _save. rewrite Hen, Hdump. simpl. split; [done|]. rewrite E. lia.
  - cbn [data set_data scanned_repos set_scanned_repos].
    rewrite length_app. cbn [length]. rewrite Nat2Z.inj_add.
    change (Z.of_nat 1) with 1.
    destruct (Z.eqb_spec
      ((Z.of_nat (length (scanned_repos (data tracker))) + 1) mod save_interval)
      0) as [E|E]; cbn [fst].
    + unfold _save. cbn [enabled set_data]. rewrite Hen, Hdump. simpl.
      split; [done|]. rewrite length_app. cbn [length].
      rewrite Nat2Z.inj_add. change (Z.of_nat 1) with 1. rewrite E. lia.
    + cbn [data set_data scanned_repos set_scanned_repos checkpoint_file].
      split; [by apply prefix_app_r|].
      rewrite length_app. cbn [length]. rewrite Nat2Z.inj_add.
      change (Z.of_nat 1) with 1.
      rewrite mod_succ by lia. lia.
Qed.

(** X23.  The flag decides what an earlier checkpoint is worth.  A
    tracker built to resume answers [is_scanned] by the names of the
    file; a tracker built without it knows no repository, and as soon
    as the scan starts it writes its empty list over the file. *)
Theorem resume_or_overwrite (d : Data) (name : string) (w : W) :
  dump_ok w = true ->
  (is_scanned (__init__ (Stored d) true true) name = true
   <-> name ∈ scanned_repos d)
  /\ is_scanned (__init__ (Stored d) true false) name = false
  /\ on_disk (__init__ (Stored d) true false) = scanned_repos d
  /\ on_disk (start_scan now dump_ok (__init__ (Stored d) true false) w) = [].
Proof.
  intros Hdump. unfold is_scanned, Str.mem, on_disk, start_scan, _save. simpl.
  rewrite Hdump. simpl. split; [apply bool_decide_eq_true|]. by repeat split.
Qed.

End Tracker.

Lemma mark_scanned_round_trip_witness :
  is_scanned
    (mark_scanned tick writable (__init__ Missing true false) "org/a" 0 0%Q).1
    "org/a" = true.
Proof.
  apply (mark_scanned_round_trip tick writable (__init__ Missing true false)
           "org/a" "org/b" 0 0%Q).
Defined.

Lemma unsaved_marks_bounded_witness :
  lag_bounded 10
    (mark_scanned tick writable (__init__ Missing true false) "org/a" 10 0%Q).1.
Proof.
  apply (unsaved_marks_bounded tick writable (__init__ Missing true false)
           "org/a" 10 0%Q); [lia|done|done|].
  split; [done|]. by vm_compute.
Defined.

Lemma resume_or_overwrite_witness :
  on_disk (start_scan tick writable (__init__ (Stored two_scanned) true false) 3%Q)
  = [].
Proof.
  apply (resume_or_overwrite tick writable two_scanned "org/a" 3%Q). done.
Defined.

End ProgressProps.

(** ** The scan of the organizations *)

Module ScanProps.

Import Py RepoData Progress Scanner Detector Organizations ScanSpec.

Section Scan.

Context {W : Type}
  (time : W -> Q)
  (utcnow : W -> Z)
  (dump_ok : W -> bool)
  (fnmatch : string -> string -> bool)
  (check_and_wait : W -> W * outcome unit)
  (detect_technologies : Repository -> W -> W * outcome Techs)
  (should_deep_scan : string -> bool)
  (deep_scan_repository : Repository -> W -> W * outcome (list string))
  (detect_domain : Repository -> Techs -> W -> W * outcome (option DomainInfo))
  (get_repos : string -> W -> W * outcome (list Repository))
  (progress_callback : option (Z -> Z -> string -> W -> W * outcome unit)).

Local Abbreviation fetch_and_extract :=
  (_scan_repository check_and_wait detect_technologies should_deep_scan
     deep_scan_repository).
Local Abbreviation guarded_scan :=
  (guarded_scan time check_and_wait detect_technologies should_deep_scan
     deep_scan_repository).
Local Abbreviation try_scan :=
  (try_scan time utcnow dump_ok check_and_wait detect_technologies
     should_deep_scan deep_scan_repository detect_domain).
Local Abbreviation scan_one :=
  (scan_one time utcnow dump_ok fnmatch check_and_wait detect_technologies
     should_deep_scan deep_scan_repository detect_domain progress_callback).
Local Abbreviation scan_loop :=
  (scan_loop time utcnow dump_ok fnmatch check_and_wait detect_technologies
     should_deep_scan deep_scan_repository detect_domain progress_callback).
Local Abbreviation scan_organization :=
  (scan_organization time utcnow dump_ok fnmatch check_and_wait
     detect_technologies should_deep_scan deep_scan_repository detect_domain
     get_repos progress_callback).
Local Abbreviation scan_each :=
  (scan_each time utcnow dump_ok fnmatch check_and_wait detect_technologies
     should_deep_scan deep_scan_repository detect_domain get_repos
     progress_callback).
Local Abbreviation scan_organizations :=
  (scan_organizations time utcnow dump_ok fnmatch check_and_wait
     detect_technologies should_deep_scan deep_scan_repository detect_domain
     get_repos progress_callback).

Implicit Types (run : Run (W := W)) (repo : Repository).

(** The fetch-and-extract counts its call and nothing else. *)
Lemma fetch_and_extract_counters (deep : bool) repo (sw : Stats * W) :
  let st := (fetch_and_extract deep repo sw).1.1 in
  repos_scanned st = repos_scanned sw.1
  /\ repos_skipped st = repos_skipped sw.1
  /\ errors st = errors sw.1.
Proof.
  cbv zeta. unfold _scan_repository.
  destruct (check_and_wait sw.2) as [w [[]|e|]]; try done.
  destruct (detect_technologies repo w) as [w' [technologies|e|]]; try done.
  destruct (deep && should_deep_scan (repo_name repo)); [|done].
  by destruct (deep_scan_repository repo w') as [w'' [deep_techs|e|]].
Qed.

Lemma guarded_scan_counters run repo :
  let st := (guarded_scan run repo).1.2.1 in
  repos_scanned st = repos_scanned (stats (self run))
  /\ repos_skipped st = repos_skipped (stats (self run))
  /\ errors st = errors (stats (self run)).
Proof.
  cbv zeta. unfold Scanner.guarded_scan, RateLimiter.call.
  destruct (RateLimiter.gate _ _ _) as [breaker|e]; [|done].
  pose proof (fetch_and_extract_counters (deep_scanner (self run)) repo
                (stats (self run), world run)) as H.
  cbv zeta in H.
  by destruct (fetch_and_extract _ _ _) as [sw [v|e|]].
Qed.

Lemma record_scan_effect run repo (techs : Techs) :
  let r := record_scan utcnow detect_domain run repo techs in
  progress_tracker (self r.1) = progress_tracker (self run)
  /\ checkpoint_save_interval (self r.1) = checkpoint_save_interval (self run)
  /\ repos_skipped (stats (self r.1)) = repos_skipped (stats (self run))
  /\ errors (stats (self r.1)) = errors (stats (self run))
  /\ ((r.2 = Return tt
       /\ repos_scanned (stats (self r.1)) = repos_scanned (stats (self run)) + 1
       /\ (length (repo_details r.1) <= S (length (repo_details run)))%nat
       /\ (length (repo_details run) <= length (repo_details r.1))%nat
       /\ (aligned run -> aligned r.1))
      \/ (r.2 = Interrupt
          /\ repos_scanned (stats (self r.1)) = repos_scanned (stats (self run))
          /\ repo_details r.1 = repo_details run)).
Proof.
  cbv zeta. unfold record_scan. destruct techs as [|cat techs].
  { simpl. repeat split; try done. left. repeat split; try done; lia. }
  assert (forall w (info : option DomainInfo),
    let detail :=
      {| name := repo_name repo; full_name := repo_full_name repo;
         url := html_url repo; stars := stargazers_count repo;
         technologies := cat :: techs;
         temporal_metadata := _get_temporal_metadata (utcnow w) repo;
         domain_info := info |} in
    aligned run ->
    aligned
      (with_stats
         {| self := self run;
            all_repo_techs := all_repo_techs run ++ [cat :: techs];
            repo_details := repo_details run ++ [detail]; world := w |}
         incr_scanned)) as Haligned.
  { intros w info detail Ha. unfold aligned in *. simpl.
    by rewrite fmap_app, Ha. }
  destruct (domain_detector (self run)).
  - destruct (detect_domain repo (cat :: techs) (world run)) as [w [info|e|]];
      simpl; repeat split; try done;
      try (left; repeat split; try done;
           rewrite ?length_app; simpl; try lia; by apply Haligned);
      by right.
  - simpl. repeat split; try done. left. repeat split; try done;
      rewrite ?length_app; simpl; try lia. by apply Haligned.
Qed.

Lemma checkpoint_effect run repo :
  let r := checkpoint time dump_ok run repo in
  stats (self r.1) = stats (self run)
  /\ all_repo_techs r.1 = all_repo_techs run
  /\ repo_details r.1 = repo_details run
  /\ world r.1 = world run
  /\ checkpoint_save_interval (self r.1) = checkpoint_save_interval (self run)
  /\ (progress_tracker (self r.1) = None <-> progress_tracker (self run) = None)
  /\ r.2 <> Interrupt
  /\ (forall e, r.2 = Raise e -> ~ checkpoint_safe run).
Proof.
  cbv zeta. unfold checkpoint, checkpoint_safe.
  destruct (progress_tracker (self run)) as [tracker|] eqn:Et;
    [|by repeat split].
  unfold mark_scanned.
  destruct (Z.eqb_spec (checkpoint_save_interval (self run)) 0) as [E|E];
    [|destruct (_ mod _ =? 0)]; simpl; repeat split; try done.
  intros e _ [?|?]; done.
Qed.

(** The [try] statement of the loop body. *)
Lemma try_scan_effect run repo :
  let r := try_scan run repo in
  advances run r.1
  /\ repos_skipped (stats (self r.1)) = repos_skipped (stats (self run))
  /\ ((r.2 = None
       /\ (aligned run -> aligned r.1)
       /\ (checkpoint_safe run -> accounted r.1 = accounted run + 1))
      \/ r.2 = Some Interrupted).
Proof.
  cbv zeta. unfold Scanner.try_scan, advances, accounted.
  pose proof (guarded_scan_counters run repo) as Hg. cbv zeta in Hg.
  destruct (guarded_scan run repo) as [[breaker sw] [techs|e|]];
    cbn [fst snd] in Hg; destruct Hg as (Hg1 & Hg2 & Hg3).
  - set (run1 := {| self := _ |}).
    pose proof (record_scan_effect run1 repo techs) as Hr. cbv zeta in Hr.
    destruct (record_scan utcnow detect_domain run1 repo techs) as [run2 r2].
    cbn [fst snd] in Hr. destruct Hr as (Ht & Hi & Hsk & Her & Hr).
    simpl in Ht, Hi, Hsk, Her, Hr.
    destruct Hr as [(-> & Hsc & Hlen & Hlen' & Ha)|(-> & Hsc & Hd)].
    + pose proof (checkpoint_effect run2 repo) as Hc. cbv zeta in Hc.
      destruct (checkpoint time dump_ok run2 repo) as [run3 r3].
      cbn [fst snd] in Hc.
      destruct Hc as (Hst & Hl1 & Hl2 & Hw & Hi3 & Ht3 & Hni & Hraise).
      assert (checkpoint_safe run -> checkpoint_safe run2) as Hsafe.
      { unfold checkpoint_safe. rewrite Ht, Hi. tauto. }
      destruct r3 as [[]|e|]; [| |done]; simpl;
        rewrite ?Hst, ?Hl2, ?Hi3, ?Ht3, ?Ht, ?Hi, ?Hsk, ?Her, ?Hsc, ?Hg1, ?Hg2,
          ?Hg3; repeat split; try done; try lia.
      * left. repeat split; try done; [|lia].
        intros Hal. unfold aligned in *. rewrite Hl1, Hl2. by apply Ha.
      * left. repeat split; try done.
        -- intros Hal. unfold aligned in *. simpl. rewrite Hl1, Hl2. by apply Ha.
        -- intros Hs. destruct (Hraise e eq_refl). by apply Hsafe.
    + simpl. rewrite ?Ht, ?Hi, ?Hsk, ?Her, ?Hsc, ?Hd, ?Hg1, ?Hg2, ?Hg3.
      repeat split; try done; try lia. by right.
  - simpl. rewrite ?Hg1, ?Hg2, ?Hg3. repeat split; try done; try lia.
    left. repeat split; try done. lia.
  - simpl. rewrite ?Hg1, ?Hg2, ?Hg3. repeat split; try done; try lia. by right.
Qed.

Lemma advances_refl run : advances run run.
Proof. unfold advances. repeat split; try done; lia. Qed.

Lemma advances_trans run1 run2 run3 :
  advances run1 run2 -> advances run2 run3 -> advances run1 run3.
Proof.
  unfold advances. intros (H1 & H2 & H3 & H4) (H1' & H2' & H3' & H4').
  repeat split; try congruence; try tauto; lia.
Qed.

Lemma advances_safe run run' :
  advances run run' -> checkpoint_safe run -> checkpoint_safe run'.
Proof.
  unfold advances, checkpoint_safe. intros (H1 & H2 & _) [?|?];
    [left; tauto|right; congruence].
Qed.

(** One turn of the loop. *)
Lemma scan_one_effect (total : Z) run (idx : Z) repo :
  let r := scan_one total run idx repo in
  advances run r.1
  /\ (r.2 <> Some Interrupted -> aligned run -> aligned r.1)
  /\ (r.2 = None -> checkpoint_safe run -> accounted r.1 = accounted run + 1)
  /\ r.2 <> Some Finished.
Proof.
  cbv zeta. unfold Scanner.scan_one.
  destruct (skipped fnmatch run repo).
  { unfold advances, accounted. simpl. repeat split; try done; lia. }
  assert (forall run0,
    self run0 = self run -> all_repo_techs run0 = all_repo_techs run ->
    repo_details run0 = repo_details run ->
    advances run (try_scan run0 repo).1
    /\ ((try_scan run0 repo).2 <> Some Interrupted -> aligned run ->
        aligned (try_scan run0 repo).1)
    /\ ((try_scan run0 repo).2 = None -> checkpoint_safe run ->
        accounted (try_scan run0 repo).1 = accounted run + 1)
    /\ (try_scan run0 repo).2 <> Some Finished) as Htry.
  { intros run0 Hself Htechs Hdetails.
    destruct (try_scan_effect run0 repo) as (Hadv & _ & Hcases).
    cbv zeta in Hadv, Hcases.
    assert (aligned run -> aligned run0) as Hal
      by (unfold aligned; by rewrite Htechs, Hdetails).
    assert (checkpoint_safe run -> checkpoint_safe run0) as Hsafe
      by (unfold checkpoint_safe; by rewrite Hself).
    assert (accounted run0 = accounted run) as Hacc
      by (unfold accounted; by rewrite Hself).
    split; [unfold advances in *; by rewrite <- Hself, <- Hdetails|].
    destruct Hcases as [(-> & Ha & Hc) | ->]; [|by repeat split].
    split; [auto|]. split; [|done]. intros _ Hs. rewrite <- Hacc. auto. }
  destruct progress_callback as [callback|]; [|by apply Htry].
  destruct (callback _ _ _ _) as [w [[]|e|]]; [by apply Htry| |];
    simpl;
    (split; [unfold advances; simpl; repeat split; try done; lia
            |by repeat split]).
Qed.

(** The loop of [scan_organization]. *)
Lemma scan_loop_effect (repos : list Repository) (total : Z) run (idx : Z) :
  let r := scan_loop total run idx repos in
  advances run r.1
  /\ (r.2 <> Interrupted -> aligned run -> aligned r.1)
  /\ (r.2 = Finished -> checkpoint_safe run ->
      accounted r.1 = accounted run + Z.of_nat (length repos)).
Proof.
  revert run idx. induction repos as [|repo rest IH]; intros run idx; cbv zeta.
  { simpl. split; [apply advances_refl|]. split; [done|]. intros _ _. lia. }
  cbn [Scanner.scan_loop].
  pose proof (scan_one_effect total run idx repo) as (Hadv & Hal & Hacc & Hnf).
  cbv zeta in Hadv, Hal, Hacc, Hnf.
  destruct (scan_one total run idx repo) as [run1 [e|]]; cbn [fst snd] in *.
  - split; [done|]. split.
    + intros Hne. apply Hal. by intros [= ->].
    + intros ->. done.
  - destruct (IH run1 (idx + 1)) as (Hadv' & Hal' & Hacc').
    split; [by eapply advances_trans|]. split.
    + intros Hne Ha. apply Hal'; [done|]. by apply Hal.
    + intros Hfin Hsafe. rewrite Hacc' by eauto using advances_safe.
      rewrite Hacc by done. rewrite length_cons, Nat2Z.inj_succ. lia.
Qed.

(** X24.  Every repository of a finished loop is counted once: when
    the checkpoint cannot raise, the counts of the scanned, the skipped
    and the failed repositories together grow by the number of
    repositories of the loop. *)
Theorem every_repository_counted_once (repos : list Repository) (total : Z)
    run (idx : Z) :
  checkpoint_safe run ->
  (scan_loop total run idx repos).2 = Finished ->
  accounted (scan_loop total run idx repos).1
  = accounted run + Z.of_nat (length repos).
Proof.
  intros Hsafe Hfin. by apply (scan_loop_effect repos total run idx).
Qed.

(** The scan of one organization, from a scanner without results. *)
Lemma scan_organization_effect (scanner : GitHubScanner) (org_name : string)
    (w : W) :
  let r := scan_organization scanner org_name w in
  (r.2 <> Interrupted -> aligned r.1)
  /\ repos_scanned (stats scanner) <= repos_scanned (stats (self r.1))
  /\ Z.of_nat (length (repo_details r.1))
     <= repos_scanned (stats (self r.1)) - repos_scanned (stats scanner).
Proof.
  cbv zeta. unfold Scanner.scan_organization.
  destruct (check_and_wait w) as [w1 [[]|e|]]; simpl; [|by repeat split; lia..].
  destruct (get_repos org_name w1) as [w2 [repos|e|]]; simpl;
    [|by repeat split; lia..].
  set (repos' := match repo_limit _ with Some _ => _ | None => _ end).
  set (start := {| self := _ |}).
  destruct (scan_loop_effect repos' (Z.of_nat (length repos')) start 0)
    as ((_ & _ & H1 & H2) & Hal & _).
  simpl in H1, H2. split; [|split; lia].
  intros Hne. by apply Hal.
Qed.

Lemma scan_each_effect (orgs : list string) run :
  let r := scan_each run orgs in
  (r.2 <> Interrupted -> aligned run -> aligned r.1)
  /\ repos_scanned (stats (self run)) <= repos_scanned (stats (self r.1))
  /\ Z.of_nat (length (repo_details r.1)) - Z.of_nat (length (repo_details run))
     <= repos_scanned (stats (self r.1)) - repos_scanned (stats (self run)).
Proof.
  revert run. induction orgs as [|org_name rest IH]; intros run; cbv zeta.
  { simpl. repeat split; try done; lia. }
  cbn [Organizations.scan_each].
  pose proof (scan_organization_effect (self run) org_name (world run))
    as (Hal & H1 & H2). cbv zeta in Hal, H1, H2.
  destruct (scan_organization (self run) org_name (world run))
    as [org_run [|e|]]; cbn [fst snd] in *.
  - set (next := {| self := self org_run |}).
    destruct (IH next) as (Hal' & H1' & H2'). simpl in H1', H2'.
    rewrite length_app, Nat2Z.inj_add in H2'.
    split; [|split; lia].
    intros Hne Ha. apply Hal'; [done|]. unfold aligned in *. simpl.
    rewrite fmap_app, Ha, Hal; done.
  - set (next := {| self := set_stats _ _ |}).
    destruct (IH next) as (Hal' & H1' & H2'). simpl in H1', H2'.
    split; [|split; lia]. intros Hne Ha. by apply Hal'.
  - simpl. split; [done|]. split; lia.
Qed.

(** X25.  What [scan_organizations] returns is consistent: the count
    of a technology is the number of the returned details whose
    repository uses it, which is the total of its temporal analysis;
    and a count is positive and at most the number of repositories
    that the scan counted as scanned. *)
Theorem scan_counts_consistent (scanner : GitHubScanner) (orgs : list string)
    (w : W) run (tech_counts : gmap string Z) (details : list RepoDetail) :
  scan_organizations scanner orgs w = (run, Return (tech_counts, details)) ->
  (forall tech,
      default 0 (tech_counts !! tech)
      = TemporalAnalyzer.total_repos
          (TemporalAnalyzer.analyze_technology tech details))
  /\ (forall tech count,
        tech_counts !! tech = Some count ->
        0 < count
        /\ count <= repos_scanned (stats (self run))
                    - repos_scanned (stats scanner)).
Proof.
  unfold Organizations.scan_organizations.
  set (start := {| self := scanner |}).
  pose proof (scan_each_effect orgs start) as (Hal & _ & Hlen).
  cbv zeta in Hal, Hlen.
  destruct (scan_each start orgs) as [run' e]. cbn [fst snd] in *.
  assert (e <> Interrupted ->
          (run', Return (aggregate_technologies (all_repo_techs run'),
                         repo_details run'))
          = (run, Return (tech_counts, details)) ->
          tech_counts = aggregate_technologies (technologies <$> details)
          /\ Z.of_nat (length details)
             <= repos_scanned (stats (self run)) - repos_scanned (stats scanner))
    as Hret.
  { intros Hne [= -> <- <-]. rewrite (Hal Hne) by done.
    split; [done|]. simpl in Hlen. lia. }
  intros Heq.
  assert (tech_counts = aggregate_technologies (technologies <$> details)
          /\ Z.of_nat (length details)
             <= repos_scanned (stats (self run)) - repos_scanned (stats scanner))
    as [-> Hbound] by (destruct e; [by apply Hret..|done]).
  assert (forall tech,
    default 0 (aggregate_technologies (technologies <$> details) !! tech)
    = TemporalAnalyzer.count_if (TemporalAnalyzer.uses tech) details
    /\ (is_Some (aggregate_technologies (technologies <$> details) !! tech)
        <-> 0 < TemporalAnalyzer.count_if (TemporalAnalyzer.uses tech) details))
    as Hlookup.
  { intros tech.
    destruct (CountProps.aggregate_lookup (technologies <$> details) tech)
      as [H1 H2].
    rewrite CountProps.count_if_fmap in H1, H2.
    rewrite (ListFacts.count_if_ext _ (TemporalAnalyzer.uses tech)) in H1, H2
      by (intros repo; apply CountProps.mentions_uses).
    by split. }
  split.
  - intros tech. rewrite CountProps.analysis_total. apply Hlookup.
  - intros tech count Hsome. destruct (Hlookup tech) as [H1 H2].
    rewrite Hsome in H1, H2. simpl in H1.
    pose proof (TrendProps.count_if_bounds (TemporalAnalyzer.uses tech) details).
    split; [rewrite H1; apply H2; by eexists|lia].
Qed.

(** X26.  A checkpoint that holds every repository of the loop makes
    the loop a count: each repository is counted as skipped, the loop
    finishes, and nothing else happens, no call to the rate limiter, the
    detector or the callback, no change of the tracker, no result. *)
Theorem checkpointed_repositories_skipped (repos : list Repository)
    (total : Z) run (idx : Z) (tracker : ProgressTracker) :
  progress_tracker (self run) = Some tracker ->
  Forall (fun repo => repo_full_name repo ∈ scanned_repos (data tracker)) repos ->
  scan_loop total run idx repos
  = (with_stats run (skip_many (Z.of_nat (length repos))), Finished).
Proof.
  intros Ht Hall. revert run idx Ht.
  induction Hall as [|repo rest Hin _ IH]; intros run idx Ht.
  - simpl. f_equal. destruct run as [[c t b d ds rl ci [n1 n2 n3 n4]] l1 l2 w].
    unfold with_stats, set_stats, skip_many. simpl. by rewrite Z.add_0_r.
  - cbn [Scanner.scan_loop]. unfold Scanner.scan_one, skipped. rewrite Ht.
    unfold is_scanned, Str.mem. rewrite (bool_decide_eq_true_2 _ Hin).
    cbn [orb]. rewrite IH by done. f_equal.
    unfold with_stats, set_stats, skip_many, incr_skipped. simpl.
    rewrite Nat2Z.inj_succ. do 3 f_equal. lia.
Qed.

End Scan.

Lemma every_repository_counted_once_witness :
  accounted CheckpointSpec.two_repo_scan.1
  = accounted CheckpointSpec.fresh_run + 2.
Proof.
  apply (every_repository_counted_once (fun w : Q => w) (fun _ => 0)
           (fun _ => true) (fun _ _ => false) (fun w => (w, Return tt))
           CheckpointSpec.detect_a_only (fun _ => false)
           (fun _ w => (w, Return [])) (fun _ _ w => (w, Return None)) None
           [CheckpointSpec.repo_a; CheckpointSpec.repo_b] 2
           CheckpointSpec.fresh_run 0).
  - right. done.
  - by vm_compute.
Defined.

Lemma scan_counts_consistent_witness :
  match one_org_scan.2 with
  | Return (tech_counts, details) =>
      default 0 (tech_counts !! "Python"%string)
      = TemporalAnalyzer.total_repos
          (TemporalAnalyzer.analyze_technology "Python" details)
  | _ => False
  end.
Proof.
  destruct one_org_scan as [run [[tech_counts details]|e|]] eqn:E; cbn [snd].
  - unfold one_org_scan in E.
    by destruct (scan_counts_consistent _ _ _ _ _ _ _ _ _ _ _ _ _ _ _ _ _ E).
  - apply (f_equal snd) in E. by vm_compute in E.
  - apply (f_equal snd) in E. by vm_compute in E.
Defined.

Lemma checkpointed_repositories_skipped_witness :
  Scanner.scan_loop (fun w : Q => w) (fun _ => 0) (fun _ => true)
    (fun _ _ => false) (fun w => (w, Return tt)) CheckpointSpec.detect_a_only
    (fun _ => false) (fun _ w => (w, Return [])) (fun _ _ w => (w, Return None))
    None 2 resumed_run 0 [CheckpointSpec.repo_a; CheckpointSpec.repo_b]
  = (with_stats resumed_run (skip_many 2), Finished).
Proof.
  apply (checkpointed_repositories_skipped (fun w : Q => w) (fun _ => 0)
           (fun _ => true) (fun _ _ => false) (fun w => (w, Return tt))
           CheckpointSpec.detect_a_only (fun _ => false)
           (fun _ w => (w, Return [])) (fun _ _ w => (w, Return None)) None
           [CheckpointSpec.repo_a; CheckpointSpec.repo_b] 2 resumed_run 0
           (Resume.__init__ (Resume.Stored two_scanned) true true)).
  - done.
  - repeat constructor; simpl; set_solver.
Defined.

End ScanProps.

(** ** The decisions of the filter and their application *)

Module CurationProps.

Import Py AIFilter Main FilterSpec CurationSpec.

Section Oracle.

Context {W : Type}
  (strategic_oracle : Tech -> W -> W * (exn + option StrategicAnswer)).

(** One turn of the strategic evaluation. *)
Lemma evaluate_one_effect (self : AITechnologyFilter) (tech : Tech) (w : W) :
  let r := evaluate_one strategic_oracle self tech w in
  let s := stats self in
  let s' := stats r.1.1 in
  same_configuration self r.1.1
  /\ evaluated s' = evaluated s + 1
  /\ merged s' = merged s /\ consolidated s' = consolidated s
  /\ (ai_calls s' = ai_calls s \/ ai_calls s' = ai_calls s + 1)
  /\ ((should_include r.2 = true
       /\ kept s' = kept s + 1 /\ removed s' = removed s)
      \/ (should_include r.2 = false
          /\ kept s' = kept s /\ removed s' = removed s + 1)).
Proof.
  cbv zeta. unfold evaluate_one, same_configuration.
  destruct self as [en i1 i2 i3 inc dd co de mn names [n1 n2 n3 n4 n5 n6]].
  cbn [always_include_names always_include_min_repos set_stats stats
       add_evaluated].
  case_bool_decide; [simpl; repeat split; auto|].
  destruct (_ <=? _); [simpl; repeat split; auto|].
  destruct (_should_auto_ignore _ _); [simpl; repeat split; auto|].
  unfold _evaluate_strategic_value.
  destruct (strategic_oracle tech w) as [w' [e|[answer|]]]; simpl;
    [repeat split; auto| |repeat split; auto].
  destruct (Str.mem _ _); simpl; repeat split; auto.
Qed.

Lemma same_configuration_trans (self self' self'' : AITechnologyFilter) :
  same_configuration self self' -> same_configuration self' self'' ->
  same_configuration self self''.
Proof.
  unfold same_configuration. intros <- <-.
  by destruct self''.
Qed.

Lemma evaluate_all_effect (technologies : list Tech) (self : AITechnologyFilter)
    (decisions : gmap string Decision) (w : W) :
  let r := evaluate_all strategic_oracle self technologies decisions w in
  let s := stats self in
  let s' := stats r.1.1 in
  let n := Z.of_nat (length technologies) in
  same_configuration self r.1.1
  /\ evaluated s' = evaluated s + n
  /\ kept s' + removed s' = kept s + removed s + n
  /\ kept s <= kept s' /\ removed s <= removed s'
  /\ ai_calls s <= ai_calls s' <= ai_calls s + n
  /\ merged s' = merged s /\ consolidated s' = consolidated s
  /\ dom r.2 = dom decisions ∪ list_to_set (map name technologies).
Proof.
  revert self decisions w.
  induction technologies as [|tech rest IH]; intros self decisions w; cbv zeta.
  { simpl. unfold same_configuration.
    repeat split; try lia; [by destruct self|set_solver]. }
  cbn [evaluate_all].
  pose proof (evaluate_one_effect self tech w) as H. cbv zeta in H.
  destruct (evaluate_one strategic_oracle self tech w) as [[self1 w1] decision].
  cbn [fst snd] in H. destruct H as (Hc & He & Hm & Hco & Hai & Hk).
  destruct (IH self1 (<[name tech := decision]> decisions) w1)
    as (Hc' & He' & Hkr' & Hk' & Hr' & Hai' & Hm' & Hco' & Hdom').
  rewrite length_cons, Nat2Z.inj_succ.
  split; [by eapply same_configuration_trans|].
  repeat split; try lia.
  rewrite Hdom', dom_insert_L. cbn [map list_to_set]. set_solver.
Qed.

(** X27.  The strategic evaluation decides on every technology and
    counts each once: the evaluated grow by the number of technologies,
    and so do the kept and the removed together; the calls to the model
    that are counted are at most as many; the merged and the
    consolidated are not touched, the configuration of the filter is
    kept, and the decisions are filed under the names of the
    technologies. *)
Theorem strategic_stats_account (self : AITechnologyFilter)
    (technologies : list Tech) (w : W) :
  let r := _evaluate_all_strategic_value strategic_oracle self technologies w in
  let s := stats self in
  let s' := stats r.1.1 in
  let n := Z.of_nat (length technologies) in
  same_configuration self r.1.1
  /\ evaluated s' = evaluated s + n
  /\ kept s' + removed s' = kept s + removed s + n
  /\ kept s <= kept s' /\ removed s <= removed s'
  /\ ai_calls s <= ai_calls s' <= ai_calls s + n
  /\ merged s' = merged s /\ consolidated s' = consolidated s
  /\ dom r.2 = list_to_set (map name technologies).
Proof.
  cbv zeta. unfold _evaluate_all_strategic_value.
  destruct (evaluate_all_effect technologies self ∅ w)
    as (H1 & H2 & H3 & H4 & H5 & H6 & H7 & H8 & H9).
  repeat split; try done; try lia. rewrite H9. set_solver.
Qed.

(** X28.  The overrides come first.  A technology on the allow-list, or
    used by at least the configured number of repositories, is kept
    without asking the model, whatever the rules of removal say of it:
    the world is left as it was, and the technology is counted as
    evaluated and kept. *)
Theorem overrides_keep_without_oracle (self : AITechnologyFilter) (tech : Tech)
    (w : W) :
  name tech ∈ always_include_names self
  \/ always_include_min_repos self <= repos_count (metadata tech) ->
  let r := evaluate_one strategic_oracle self tech w in
  r.1.2 = w
  /\ r.1.1 = set_stats self (add_kept (add_evaluated (stats self)))
  /\ (r.2 = allow_listed \/ r.2 = above_threshold).
Proof.
  intros Hover. cbv zeta. unfold evaluate_one.
  cbn [always_include_names always_include_min_repos set_stats stats].
  case_bool_decide as Hin; [by repeat split; auto|].
  destruct Hover as [?|Hmin]; [done|].
  destruct (Z.leb_spec (always_include_min_repos self)
              (repos_count (metadata tech))); [|lia].
  by repeat split; auto.
Qed.

End Oracle.

Lemma overrides_keep_without_oracle_witness :
  (evaluate_one unreachable default_filter curl_everywhere tt).2
  = above_threshold.
Proof.
  destruct (overrides_keep_without_oracle unreachable default_filter
              curl_everywhere tt) as (_ & _ & [H|H]).
  - right. simpl. lia.
  - by vm_compute in H.
  - exact H.
Defined.

(** *** The names that stay *)

Lemma consolidate_removes (found : list Consolidation)
    (table : gmap string Tech) (to_remove : gset string) :
  (fold_left consolidate found (table, to_remove)).2
  = to_remove ∪ children_of found.
Proof.
  revert table to_remove.
  induction found as [|c found IH]; intros table to_remove.
  - simpl. unfold children_of. simpl. set_solver.
  - cbn [fold_left].
    destruct (consolidate (table, to_remove) c) as [table1 rm1] eqn:E.
    assert (rm1 = to_remove ∪ list_to_set (children c)) as ->
      by (unfold consolidate in E; by injection E).
    rewrite IH. unfold children_of. simpl. set_solver.
Qed.

Lemma final_technologies_stay (technologies : list Tech)
    (table : gmap string Tech) (to_remove : gset string) :
  keyed table ->
  (forall tech, tech ∈ technologies -> is_Some (table !! name tech)) ->
  map name (final_technologies technologies table to_remove)
  = List.filter (fun n => negb (bool_decide (n ∈ to_remove)))
      (map name technologies).
Proof.
  intros Hk. unfold final_technologies.
  induction technologies as [|tech rest IH]; intros Hsome; [done|].
  cbn [omap list_omap map List.filter].
  assert (forall tech, tech ∈ rest -> is_Some (table !! name tech)) as Hrest
    by (intros t Ht; apply Hsome; by right).
  specialize (IH Hrest).
  case_bool_decide; cbn [negb]; [exact IH|].
  destruct (Hsome tech ltac:(left)) as [tech' Hl]. rewrite Hl. cbn [map].
  f_equal; [by apply Hk|exact IH].
Qed.

(** X29.  What stays after the decisions are applied: the names
    returned are the names given, in their order, without those decided
    against, the candidates of the merge groups and the children of the
    consolidations; a technology flagged as deprecated stays. *)
Theorem survivors_exact (technologies : list Tech) (decisions : Decisions)
    (curated : list Tech) :
  apply_filter_decisions technologies decisions = inr curated ->
  map name curated = List.filter (stays decisions) (map name technologies).
Proof.
  unfold apply_filter_decisions.
  destruct (merge_all _ _) as [e|[table1 rm1]] eqn:Em; [done|].
  apply FilterProps.merge_all_spec in Em as (Hrm & Hk & Hs).
  simpl in Hrm, Hk, Hs.
  pose proof (FilterProps.consolidate_spec (consolidations decisions) table1 rm1)
    as Hc.
  pose proof (consolidate_removes (consolidations decisions) table1 rm1) as Hrm2.
  destruct (fold_left consolidate _ _) as [table2 rm2].
  cbv zeta in Hc. simpl in Hc, Hrm2. destruct Hc as (_ & Hk2 & Hs2).
  pose proof (FilterProps.deprecate_spec (deprecated_list decisions) table2)
    as [Hk3 Hs3].
  destruct (FilterProps.lookup_table_spec technologies) as (Hk0 & _ & Hs0).
  intros [= <-]. rewrite final_technologies_stay.
  - unfold stays, removed_names. by rewrite Hrm2, Hrm.
  - auto.
  - intros tech Hin. apply Hs3, Hs2, Hs. by apply Hs0.
Qed.

Lemma survivors_exact_witness :
  map name (curated_by merges_onto_last registry)
  = List.filter
      (stays (curate values_all merges_onto_last keeps_separate default_filter
                registry tt).1)
      (map name registry).
Proof.
  apply survivors_exact. by vm_compute.
Defined.

Lemma lookup_table_distinct (technologies : list Tech) (tech : Tech) :
  NoDup (map name technologies) -> tech ∈ technologies ->
  lookup_table technologies !! name tech = Some tech.
Proof.
  unfold lookup_table.
  induction technologies as [|last rest IH] using rev_ind; intros Hnd Hin.
  - by apply elem_of_nil in Hin.
  - rewrite fold_left_app. cbn [fold_left].
    rewrite map_app in Hnd. apply NoDup_app in Hnd as (Hnd & Hnot & _).
    apply elem_of_app in Hin as [Hin|Hin].
    + rewrite lookup_insert_ne; [by apply IH|].
      intros Heq. apply (Hnot (name tech)).
      * apply list_elem_of_In, in_map, list_elem_of_In, Hin.
      * rewrite <- Heq. simpl. left.
    + apply list_elem_of_singleton in Hin as ->. apply lookup_insert_eq.
Qed.

(** X30.  A filter that is disabled leaves the radar as it is: it asks
    the model nothing and takes no decision, and applying its decisions
    to technologies of distinct names returns the list it was given. *)
Theorem disabled_filter_is_identity {W : Type}
    (strategic_oracle : Tech -> W -> W * (exn + option StrategicAnswer))
    (duplicate_oracle : list string -> W -> W * (exn + option MergeGroup))
    (hierarchy_oracle : string -> list string -> W -> W * (exn + option HierarchyAnswer))
    (self : AITechnologyFilter) (technologies : list Tech) (w : W) :
  enabled self = false -> NoDup (map name technologies) ->
  filter_technologies strategic_oracle duplicate_oracle hierarchy_oracle self
    technologies w = (self, w, no_decisions)
  /\ curate strategic_oracle duplicate_oracle hierarchy_oracle self
       technologies w = (no_decisions, inr technologies).
Proof.
  intros Hoff Hnd. unfold curate, filter_technologies. rewrite Hoff. cbn [negb snd].
  split; [done|]. f_equal. unfold apply_filter_decisions, no_decisions.
  cbn [strategic_decisions merge_groups consolidations deprecated_list
       merge_all fold_left].
  f_equal. unfold final_technologies.
  assert (strategic_removals ∅ = ∅) as ->.
  { unfold strategic_removals. by rewrite map_filter_empty, dom_empty_L. }
  assert (forall l : list Tech,
    (forall tech, tech ∈ l -> tech ∈ technologies) ->
    omap (fun tech =>
            if bool_decide (name tech ∈ (∅ : gset string)) then None
            else lookup_table technologies !! name tech) l = l) as Hall.
  { induction l as [|tech rest IH]; intros Hsub; [done|].
    cbn [omap list_omap]. rewrite bool_decide_eq_false_2 by set_solver.
    rewrite (lookup_table_distinct technologies tech Hnd)
      by (apply Hsub; left).
    f_equal. apply IH. intros t Ht. apply Hsub. by right. }
  by apply Hall.
Qed.

Lemma disabled_filter_is_identity_witness :
  (curate values_all merges_onto_last keeps_separate
     (set_enabled_off default_filter) registry tt).2
  = inr registry.
Proof.
  assert (NoDup (map name registry)) as Hnd.
  { simpl. repeat (apply NoDup_cons; split; [set_solver|]). apply NoDup_nil_2. }
  by rewrite (proj2 (disabled_filter_is_identity values_all merges_onto_last
                       keeps_separate (set_enabled_off default_filter)
                       registry tt eq_refl Hnd)).
Defined.

End CurationProps.
